(** * Receipt data extractor: a shallow embedding and its properties

    The development follows the two Python programs of the repository,
    [receipt_extractor.py] and [manage_api_key.py].

    - Python [str] values are sequences of Unicode code points ([str]).
    - The functions of [os.path] are the POSIX ones ([posixpath]).
    - Code that reads or changes the process state (environment,
      files, console, the remote service) runs in the monad [M] over
      the record [World]; a Python exception is the result [Raise]. *)

From Stdlib Require Import ZArith NArith Ascii String List Bool Lia DecimalString.
From stdpp Require Import base tactics option list countable gmap.

Set Warnings "-register-all".
Local Open Scope Z_scope.

(** ** Python strings *)

Module Str.

(** A character is a code point; a [str] is a sequence of them. *)
Abbreviation char := N (only parsing).
Abbreviation str := (list N) (only parsing).

(** The code points of an ASCII literal. *)
Definition py (s : string) : str :=
  List.map N_of_ascii (list_ascii_of_string s).

Definition len (s : str) : Z := Z.of_nat (length s).

(** [s[lo:hi]] with Python's treatment of negative and out-of-range
    bounds; [None] is an omitted bound. *)
Definition clamp (n i : Z) : Z :=
  if i <? 0 then Z.max 0 (n + i) else Z.min i n.

Definition slice (s : str) (lo hi : option Z) : str :=
  let n := len s in
  let a := match lo with None => 0 | Some i => clamp n i end in
  let b := match hi with None => n | Some j => clamp n j end in
  take (Z.to_nat (b - a)) (drop (Z.to_nat a) s).

(** [s.find(c)] and [s.rfind(c)] for a one-character needle: the index
    of the first (last) occurrence, [-1] when there is none. *)
Fixpoint find_from (c : char) (s : str) (i : Z) : Z :=
  match s with
  | [] => -1
  | x :: s' => if N.eqb x c then i else find_from c s' (i + 1)
  end.

Definition find (c : char) (s : str) : Z := find_from c s 0.

Fixpoint rfind_from (c : char) (s : str) (i last : Z) : Z :=
  match s with
  | [] => last
  | x :: s' => rfind_from c s' (i + 1) (if N.eqb x c then i else last)
  end.

Definition rfind (c : char) (s : str) : Z := rfind_from c s 0 (-1).

(** [s.startswith(p)] and [s.endswith(p)]. *)
Fixpoint startswith (s p : str) : bool :=
  match p, s with
  | [], _ => true
  | _ :: _, [] => false
  | c :: p', x :: s' => N.eqb x c && startswith s' p'
  end.

Definition endswith (s p : str) : bool :=
  startswith (rev s) (rev p).

(** Whether [s.encode('utf-8')] succeeds: the text has no surrogate
    code point (U+D800 to U+DFFF). *)
Definition is_surrogate (c : char) : bool :=
  ((55296 <=? c) && (c <=? 57343))%N.

Definition encodable (s : str) : bool :=
  forallb (fun c => negb (is_surrogate c)) s.

(** ["c" * n]. *)
Definition times (c : char) (n : Z) : str := replicate (Z.to_nat n) c.

(** [str.isspace] of one character: the code points Python treats as
    white space. *)
Definition isspace (c : char) : bool :=
  ((9 <=? c) && (c <=? 13) || (28 <=? c) && (c <=? 32)
   || (c =? 133) || (c =? 160) || (c =? 5760)
   || (8192 <=? c) && (c <=? 8202)
   || (c =? 8232) || (c =? 8233) || (c =? 8239) || (c =? 8287)
   || (c =? 12288))%N.

Fixpoint lstrip (s : str) : str :=
  match s with
  | c :: s' => if isspace c then lstrip s' else s
  | [] => []
  end.

Definition rstrip (s : str) : str := rev (lstrip (rev s)).

(** [s.strip()]. *)
Definition strip (s : str) : str := rstrip (lstrip s).

(** [s.split(c, 1)] for a one-character separator: at most one cut, at
    the first occurrence. *)
Fixpoint split1 (c : char) (s : str) : list str :=
  match s with
  | [] => [[]]
  | x :: s' =>
      if N.eqb x c then [[]; s']
      else match split1 c s' with
           | h :: t => (x :: h) :: t
           | [] => [[x]]
           end
  end.

(** [s.upper()] on the letters a-z; the other characters of the
    patterns it is applied to have no case. *)
Definition upper_char (c : char) : char :=
  if ((97 <=? c) && (c <=? 122))%N then (c - 32)%N else c.

Definition upper (s : str) : str := List.map upper_char s.

(** [str(n)] for an integer. *)
Definition str_of_Z (n : Z) : str := py (NilZero.string_of_int (Z.to_int n)).

End Str.
Export Str.

(** ** [os.path] on POSIX *)

Module posixpath.

Definition sep : char := 47%N.     (* / *)
Definition extsep : char := 46%N.  (* . *)

(** [os.path.basename]: [i = p.rfind('/') + 1; return p[i:]]. *)
Definition basename (p : str) : str :=
  let i := rfind sep p + 1 in
  slice p (Some i) None.

(** [os.path.join] of two components. *)
Definition join (a b : str) : str :=
  if startswith b [sep] then b
  else if (len a =? 0) || endswith a [sep] then a ++ b
  else a ++ sep :: b.

(** [genericpath._splitext] with [sep = '/'], no [altsep] and
    [extsep = '.'].  The loop over [filenameIndex] looks in
    [p[sepIndex+1:dotIndex]] for a character other than the dot;
    leading dots of the file name do not start an extension. *)
Definition splitext (p : str) : str * str :=
  let sepIndex := rfind sep p in
  let dotIndex := rfind extsep p in
  if sepIndex <? dotIndex then
    if existsb (fun c => negb (N.eqb c extsep))
               (slice p (Some (sepIndex + 1)) (Some dotIndex))
    then (slice p None (Some dotIndex), slice p (Some dotIndex) None)
    else (p, [])
  else (p, []).

(** [s.rstrip(c)], on the reversed text. *)
Fixpoint rstrip_char (c : char) (rev_s : str) : str :=
  match rev_s with
  | x :: r => if N.eqb x c then rstrip_char c r else rev_s
  | [] => []
  end.

(** [os.path.split]: the head loses its trailing slashes unless it
    consists of slashes only. *)
Definition split (p : str) : str * str :=
  let i := rfind sep p + 1 in
  let head := slice p None (Some i) in
  let tail := slice p (Some i) None in
  if negb (len head =? 0) && negb (forallb (fun c => N.eqb c sep) head)
  then (rev (rstrip_char sep (rev head)), tail)
  else (head, tail).

End posixpath.

(** ** The output file name ([receipt_extractor.get_json_filename]) *)

Definition get_json_filename (image_path : str) : str :=
  let base_name := fst (posixpath.splitext (posixpath.basename image_path)) in
  base_name ++ py ".json".

(** ** Exceptions and results *)

(** The exceptions the programs meet, all subclasses of [Exception];
    each carries the text [str(e)] gives. *)
Inductive exn : Type :=
  | JSONDecodeError (msg : str)
  | ValueError (msg : str)
  | TypeError (msg : str)
  | IndexError (msg : str)
  | OSError (msg : str)
  | GroqError (msg : str)
  | OtherException (class_name msg : str).

Definition str_of_exn (e : exn) : str :=
  match e with
  | JSONDecodeError m | ValueError m | TypeError m | IndexError m
  | OSError m | GroqError m | OtherException _ m => m
  end.

(** The [UnicodeEncodeError] a write into a UTF-8 file raises for a
    text with a lone surrogate.  The text kept is the [reason] of the
    exception; the message of Python names the codec, the character
    and its position in the piece of text written as well.  No code
    of the programs catches it. *)
Definition UnicodeEncodeError : exn :=
  OtherException (py "UnicodeEncodeError") (py "surrogates not allowed").

(** [isinstance(e, json.JSONDecodeError)]. *)
Definition is_JSONDecodeError (e : exn) : bool :=
  match e with JSONDecodeError _ => true | _ => false end.

Inductive Res (A : Type) : Type :=
  | Val (a : A)
  | Raise (e : exn).
Arguments Val {A} a.
Arguments Raise {A} e.

#[global] Instance Res_ret : MRet Res := fun A a => Val a.

#[global] Instance Res_bind : MBind Res := fun A B f r =>
  match r with
  | Val a => f a
  | Raise e => Raise e
  end.

(** [try: body / except <class>: handler e] around code without
    effects; [catches] tells whether the exception belongs to the
    class. *)
Definition try_res {A : Type} (body : Res A) (catches : exn -> bool)
  (handler : exn -> Res A) : Res A :=
  match body with
  | Val a => Val a
  | Raise e => if catches e then handler e else Raise e
  end.

(** ** JSON documents *)

Module json.

(** What [json.loads] returns.  [JNull] is Python's [None].  A float
    is kept as the exact decimal [(-1)^neg * digits * 10^exp10] of its
    literal; Python rounds it to binary64. *)
Inductive value : Type :=
  | JNull
  | JBool (b : bool)
  | JInt (n : Z)
  | JFloat (neg : bool) (digits : N) (exp10 : Z)
  | JNaN
  | JInfinity (neg : bool)
  | JString (s : str)
  | JArray (items : list value)
  | JObject (members : list (str * value)).

(** The decimal [digits * 10^exp10] rounds to the float zero exactly
    when it is at most [2^-1075], half of the least positive float. *)
Definition float_is_zero (digits : N) (exp10 : Z) : bool :=
  if (digits =? 0)%N then true
  else if 0 <=? exp10 then false
  else Z.of_N digits * 2 ^ 1075 <=? 10 ^ (- exp10).

(** [bool(v)]: the test of [if v:]. *)
Definition truthy (v : value) : bool :=
  match v with
  | JNull => false
  | JBool b => b
  | JInt n => negb (n =? 0)
  | JFloat _ d e => negb (float_is_zero d e)
  | JNaN | JInfinity _ => true
  | JString s => negb (len s =? 0)
  | JArray l => negb (Z.of_nat (length l) =? 0)
  | JObject l => negb (Z.of_nat (length l) =? 0)
  end.

(** [d[k] = v] on a dictionary in insertion order: a key already
    present keeps its place and takes the new value. *)
Fixpoint dict_set (d : list (str * value)) (k : str) (v : value)
  : list (str * value) :=
  match d with
  | [] => [(k, v)]
  | (k', v') :: d' =>
      if decide (k' = k) then (k, v) :: d' else (k', v') :: dict_set d' k v
  end.

End json.
Export json.

(** The [json] module as the programs use it: [loads] on a text, and
    [dumps] with its [indent] and [ensure_ascii] arguments.  [dumps]
    is the text of a value.  The encoder can also give up on a value
    the decoder has read ([RecursionError], when the value is nested
    deeper than the interpreter lets the encoder go): [dumps_error]
    gives the exception, if any, that [json.dumps] raises on a
    record where the program calls it, and [dump_error] the
    exception, if any, with which [json.dump] into a file gives up
    before it has written a piece of text that cannot be encoded. *)
Class JsonCodec : Type := {
  loads : str -> Res value;
  dumps : option nat -> bool -> value -> str;
  dump_error : value -> option exn;
  dumps_error : value -> option exn
}.

(** ** A reference codec

    An executable rendering of [json.dumps] and [json.loads] for the
    examples below.  Not modelled: the limits on nesting depth and on
    the length of integer literals; [dumps] prints a float as the
    plain decimal it was read from, which is Python's [repr] for
    literals of at most 15 significant digits between 1e-4 and 1e16. *)

Module refjson.

Definition quote : char := 34%N.
Definition backslash : char := 92%N.
Definition newline : char := 10%N.

Definition hex_digit (n : N) : char :=
  (if n <? 10 then 48 + n else 87 + n)%N.

(** ['{0:04x}'.format(n)]. *)
Definition hex4 (n : N) : str :=
  [hex_digit (n / 4096 mod 16); hex_digit (n / 256 mod 16);
   hex_digit (n / 16 mod 16); hex_digit (n mod 16)]%N.

Definition u_escape (n : N) : str := backslash :: 117%N :: hex4 n.

(** One character inside a string literal, as [encode_basestring_ascii]
    ([ensure_ascii = true]) or [encode_basestring] writes it. *)
Definition escape_char (ensure_ascii : bool) (c : char) : str :=
  if (c =? 34)%N then [backslash; quote]
  else if (c =? 92)%N then [backslash; backslash]
  else if (c =? 10)%N then [backslash; 110%N]
  else if (c =? 13)%N then [backslash; 114%N]
  else if (c =? 9)%N then [backslash; 116%N]
  else if (c =? 8)%N then [backslash; 98%N]
  else if (c =? 12)%N then [backslash; 102%N]
  else if (c <? 32)%N then u_escape c
  else if negb ensure_ascii || (c <? 127)%N then [c]
  else if (c <? 65536)%N then u_escape c
  else
    let n := (c - 65536)%N in
    u_escape (N.lor 55296 (N.land (N.shiftr n 10) 1023))
    ++ u_escape (N.lor 56320 (N.land n 1023)).

Definition encode_string (ensure_ascii : bool) (s : str) : str :=
  quote :: concat (List.map (escape_char ensure_ascii) s) ++ [quote].

Fixpoint strip_trailing_zeros_rev (s : str) : str :=
  match s with
  | c :: s' => if (c =? 48)%N then strip_trailing_zeros_rev s' else s
  | [] => []
  end.

Definition float_repr (neg : bool) (digits : N) (exp10 : Z) : str :=
  let sign := if neg then py "-" else [] in
  if 0 <=? exp10 then
    sign ++ str_of_Z (Z.of_N digits * 10 ^ exp10) ++ py ".0"
  else
    let k := - exp10 in
    let whole := Z.of_N digits / 10 ^ k in
    let part := str_of_Z (Z.of_N digits mod 10 ^ k) in
    let padded := times 48%N (k - len part) ++ part in
    let frac := rev (strip_trailing_zeros_rev (rev padded)) in
    sign ++ str_of_Z whole ++ py "."
    ++ (if len frac =? 0 then py "0" else frac).

Definition spaces (n : nat) : str := replicate n 32%N.

(** [items] joined by [sep]. *)
Fixpoint join_with (sep : str) (items : list str) : str :=
  match items with
  | [] => []
  | [x] => x
  | x :: rest => x ++ sep ++ join_with sep rest
  end.

(** [json.dumps(v, indent=indent, ensure_ascii=ensure_ascii)]; [level]
    is the current nesting depth. *)
Fixpoint encode (indent : option nat) (ensure_ascii : bool) (level : nat)
  (v : value) : str :=
  let opening :=
    match indent with
    | Some n => newline :: spaces (n * S level)
    | None => []
    end in
  let closing :=
    match indent with
    | Some n => newline :: spaces (n * level)
    | None => []
    end in
  let item_separator :=
    match indent with
    | Some n => py "," ++ opening
    | None => py ", "
    end in
  match v with
  | JNull => py "null"
  | JBool true => py "true"
  | JBool false => py "false"
  | JInt n => str_of_Z n
  | JFloat neg d e => float_repr neg d e
  | JNaN => py "NaN"
  | JInfinity false => py "Infinity"
  | JInfinity true => py "-Infinity"
  | JString s => encode_string ensure_ascii s
  | JArray [] => py "[]"
  | JArray items =>
      py "[" ++ opening
      ++ join_with item_separator
           (List.map (encode indent ensure_ascii (S level)) items)
      ++ closing ++ py "]"
  | JObject [] => py "{}"
  | JObject members =>
      py "{" ++ opening
      ++ join_with item_separator
           (List.map (fun kv =>
                   encode_string ensure_ascii (fst kv) ++ py ": "
                   ++ encode indent ensure_ascii (S level) (snd kv))
                members)
      ++ closing ++ py "}"
  end.

Definition dumps (indent : option nat) (ensure_ascii : bool) (v : value)
  : str :=
  encode indent ensure_ascii 0 v.

(** [JSONDecodeError(msg, doc, pos)]: the message names the line,
    column and offset of the error. *)
Definition count_char (c : char) (s : str) : Z :=
  Z.of_nat (length (List.filter (fun x => N.eqb x c) s)).

Definition decode_error (msg : string) (doc : str) (pos : Z) : exn :=
  let before := slice doc None (Some pos) in
  let lineno := count_char newline before + 1 in
  let colno := pos - rfind newline before in
  JSONDecodeError
    (py msg ++ py ": line " ++ str_of_Z lineno ++ py " column "
     ++ str_of_Z colno ++ py " (char " ++ str_of_Z pos ++ py ")").

(** The outcome of scanning at a position: a value with the text left
    and its offset, [StopIteration(idx)], or an error. *)
Inductive scan (A : Type) : Type :=
  | Found (a : A) (rest : str) (pos : Z)
  | Stop (pos : Z)
  | Fail (e : exn).
Arguments Found {A} a rest pos.
Arguments Stop {A} pos.
Arguments Fail {A} e.

Definition is_ws (c : char) : bool :=
  ((c =? 32) || (c =? 9) || (c =? 10) || (c =? 13))%N.

Fixpoint skip_ws (s : str) (pos : Z) : str * Z :=
  match s with
  | c :: s' => if is_ws c then skip_ws s' (pos + 1) else (s, pos)
  | [] => ([], pos)
  end.

Definition is_digit (c : char) : bool := ((48 <=? c) && (c <=? 57))%N.

Fixpoint take_digits (s : str) : str * str :=
  match s with
  | c :: s' =>
      if is_digit c then let '(d, r) := take_digits s' in (c :: d, r)
      else ([], s)
  | [] => ([], [])
  end.

Definition digits_value (d : str) : N :=
  fold_left (fun acc c => (10 * acc + (c - 48))%N) d 0%N.

Definition hex_value (c : char) : option N :=
  if is_digit c then Some (c - 48)%N
  else if ((97 <=? c) && (c <=? 102))%N then Some (c - 87)%N
  else if ((65 <=? c) && (c <=? 70))%N then Some (c - 55)%N
  else None.

(** Four hexadecimal digits at the head of [s]. *)
Definition decode_uXXXX (s : str) : option N :=
  match s with
  | a :: b :: c :: d :: _ =>
      match hex_value a, hex_value b, hex_value c, hex_value d with
      | Some x, Some y, Some z, Some w =>
          Some (x * 4096 + y * 256 + z * 16 + w)%N
      | _, _, _, _ => None
      end
  | _ => None
  end.

Definition unescape (c : char) : option char :=
  if (c =? 34)%N then Some 34%N
  else if (c =? 92)%N then Some 92%N
  else if (c =? 47)%N then Some 47%N
  else if (c =? 98)%N then Some 8%N
  else if (c =? 102)%N then Some 12%N
  else if (c =? 110)%N then Some 10%N
  else if (c =? 114)%N then Some 13%N
  else if (c =? 116)%N then Some 9%N
  else None.

(** [scanstring(doc, end)] in strict mode, from just after the opening
    quote (at offset [begin]); [acc] holds the characters read so far,
    last first.  An escape [\uXXXX] needs its four digits and a
    character after them; the error for a bad one is reported at the
    [u].  A high surrogate is joined to a low one that follows as a
    complete escape. *)
Fixpoint scanstring (fuel : nat) (doc : str) (begin : Z) (acc : str)
  (s : str) (pos : Z) : scan str :=
  match fuel with
  | O => Fail (decode_error "Unterminated string starting at" doc begin)
  | S fuel' =>
  match s with
  | [] => Fail (decode_error "Unterminated string starting at" doc begin)
  | c :: s' =>
      if (c =? 34)%N then Found (rev acc) s' (pos + 1)
      else if (c =? 92)%N then
        match s' with
        | [] =>
            Fail (decode_error "Unterminated string starting at" doc begin)
        | esc :: s'' =>
            if (esc =? 117)%N then
              match (if (length s'' <=? 4)%nat then None
                     else decode_uXXXX s'') with
              | None =>
                  Fail (decode_error "Invalid \uXXXX escape" doc (pos + 1))
              | Some uni =>
                  let after := drop 4 s'' in
                  let pair :=
                    if ((55296 <=? uni) && (uni <=? 56319))%N then
                      match after with
                      | 92%N :: 117%N :: t =>
                          match (if (length t <=? 4)%nat then None
                                 else decode_uXXXX t) with
                          | Some uni2 =>
                              if ((56320 <=? uni2) && (uni2 <=? 57343))%N
                              then Some (uni2, drop 4 t)
                              else None
                          | None => None
                          end
                      | _ => None
                      end
                    else None in
                  match pair with
                  | Some (uni2, t') =>
                      let cp := (65536 + N.lor (N.shiftl (uni - 55296) 10)
                                               (uni2 - 56320))%N in
                      scanstring fuel' doc begin (cp :: acc) t' (pos + 12)
                  | None =>
                      scanstring fuel' doc begin (uni :: acc) after (pos + 6)
                  end
              end
            else
              match unescape esc with
              | Some ch => scanstring fuel' doc begin (ch :: acc) s'' (pos + 2)
              | None => Fail (decode_error "Invalid \escape" doc pos)
              end
        end
      else if (c <? 32)%N then
        Fail (decode_error "Invalid control character at" doc pos)
      else scanstring fuel' doc begin (c :: acc) s' (pos + 1)
  end
  end.

(** [NUMBER_RE]: an integer part, then an optional fraction and an
    optional exponent, each taken only when complete. *)
Definition match_number (s : str) : option (value * str * Z) :=
  let '(neg, s1) :=
    match s with
    | 45%N :: t => (true, t)
    | _ => (false, s)
    end in
  let '(int_digits, s2) :=
    match s1 with
    | 48%N :: t => ([48%N], t)
    | _ => take_digits s1
    end in
  match int_digits with
  | [] => None
  | _ =>
      let '(frac, s3) :=
        match s2 with
        | 46%N :: t =>
            match take_digits t with
            | ([], _) => ([], s2)
            | (f, r) => (f, r)
            end
        | _ => ([], s2)
        end in
      let '(exp, s4, has_exp) :=
        match s3 with
        | e :: t =>
            if ((e =? 101) || (e =? 69))%N then
              let '(eneg, t') :=
                match t with
                | 45%N :: u => (true, u)
                | 43%N :: u => (false, u)
                | _ => (false, t)
                end in
              match take_digits t' with
              | ([], _) => (0, s3, false)
              | (d, r) =>
                  let v := Z.of_N (digits_value d) in
                  (if eneg then - v else v, r, true)
              end
            else (0, s3, false)
        | [] => (0, s3, false)
        end in
      let consumed := len s - len s4 in
      match frac, has_exp with
      | [], false =>
          let n := Z.of_N (digits_value int_digits) in
          Some (JInt (if neg then - n else n), s4, consumed)
      | _, _ =>
          Some (JFloat neg (digits_value (int_digits ++ frac))
                  (exp - len frac), s4, consumed)
      end
  end.

(** [scan_once], [JSONObject] and [JSONArray].  [fuel] bounds the
    number of nested calls; [loads] gives more than any text needs. *)
Definition out_of_fuel {A : Type} : scan A :=
  Fail (OtherException (py "RecursionError")
          (py "maximum recursion depth exceeded")).

Definition expecting_value {A : Type} (doc : str) (r : scan A) : scan A :=
  match r with
  | Stop p => Fail (decode_error "Expecting value" doc p)
  | _ => r
  end.

Fixpoint scan_once (fuel : nat) (doc : str) (s : str) (pos : Z)
  : scan value :=
  match fuel with
  | O => out_of_fuel
  | S fuel' =>
  let array_items :=
    fix array_items (n : nat) (acc : list value) (s : str) (pos : Z)
      : scan value :=
      match n with
      | O => out_of_fuel
      | S n' =>
      match expecting_value doc (scan_once n' doc s pos) with
      | Found v s1 p1 =>
          let '(s2, p2) := skip_ws s1 p1 in
          match s2 with
          | 93%N :: s3 => Found (JArray (rev (v :: acc))) s3 (p2 + 1)
          | 44%N :: s3 =>
              let '(s4, p4) := skip_ws s3 (p2 + 1) in
              array_items n' (v :: acc) s4 p4
          | _ => Fail (decode_error "Expecting ',' delimiter" doc p2)
          end
      | Stop p => Stop p
      | Fail e => Fail e
      end
      end in
  let object_members :=
    fix object_members (n : nat) (acc : list (str * value)) (s : str)
      (pos : Z) : scan value :=
      (* [s] starts just after the opening quote of a key *)
      match n with
      | O => out_of_fuel
      | S n' =>
      match scanstring (S (length s)) doc (pos - 1) [] s pos with
      | Found key s1 p1 =>
          let '(s2, p2) := skip_ws s1 p1 in
          match s2 with
          | 58%N :: s3 =>
              let '(s4, p4) := skip_ws s3 (p2 + 1) in
              match expecting_value doc (scan_once n' doc s4 p4) with
              | Found v s5 p5 =>
                  let acc' := dict_set acc key v in
                  let '(s6, p6) := skip_ws s5 p5 in
                  match s6 with
                  | 125%N :: s7 => Found (JObject acc') s7 (p6 + 1)
                  | 44%N :: s7 =>
                      let '(s8, p8) := skip_ws s7 (p6 + 1) in
                      match s8 with
                      | 34%N :: s9 => object_members n' acc' s9 (p8 + 1)
                      | _ =>
                          Fail (decode_error
                            "Expecting property name enclosed in double quotes"
                            doc p8)
                      end
                  | _ => Fail (decode_error "Expecting ',' delimiter" doc p6)
                  end
              | Stop p => Stop p
              | Fail e => Fail e
              end
          | _ => Fail (decode_error "Expecting ':' delimiter" doc p2)
          end
      | Stop p => Stop p
      | Fail e => Fail e
      end
      end in
  match s with
  | [] => Stop pos
  | c :: s' =>
      if (c =? 34)%N then
        match scanstring (S (length s')) doc pos [] s' (pos + 1) with
        | Found x r p => Found (JString x) r p
        | Stop p => Stop p
        | Fail e => Fail e
        end
      else if (c =? 123)%N then
        let '(s1, p1) := skip_ws s' (pos + 1) in
        match s1 with
        | 125%N :: s2 => Found (JObject []) s2 (p1 + 1)
        | 34%N :: s2 => object_members fuel' [] s2 (p1 + 1)
        | _ =>
            Fail (decode_error
              "Expecting property name enclosed in double quotes" doc p1)
        end
      else if (c =? 91)%N then
        let '(s1, p1) := skip_ws s' (pos + 1) in
        match s1 with
        | 93%N :: s2 => Found (JArray []) s2 (p1 + 1)
        | _ => array_items fuel' [] s1 p1
        end
      else if startswith s (py "null") then Found JNull (drop 4 s) (pos + 4)
      else if startswith s (py "true") then
        Found (JBool true) (drop 4 s) (pos + 4)
      else if startswith s (py "false") then
        Found (JBool false) (drop 5 s) (pos + 5)
      else
        match match_number s with
        | Some (v, r, k) => Found v r (pos + k)
        | None =>
            if startswith s (py "NaN") then Found JNaN (drop 3 s) (pos + 3)
            else if startswith s (py "Infinity") then
              Found (JInfinity false) (drop 8 s) (pos + 8)
            else if startswith s (py "-Infinity") then
              Found (JInfinity true) (drop 9 s) (pos + 9)
            else Stop pos
        end
  end
  end.

(** [json.loads(doc)]: one value between optional white space, and
    nothing after it. *)
Definition loads (doc : str) : Res value :=
  if startswith doc [65279%N] then
    Raise (decode_error "Unexpected UTF-8 BOM (decode using utf-8-sig)" doc 0)
  else
    let '(s, p) := skip_ws doc 0 in
    match expecting_value doc (scan_once (2 * length doc + 2) doc s p) with
    | Found v rest p1 =>
        let '(rest', p2) := skip_ws rest p1 in
        match rest' with
        | [] => Val v
        | _ => Raise (decode_error "Extra data" doc p2)
        end
    | Stop p1 => Raise (decode_error "Expecting value" doc p1)
    | Fail e => Raise e
    end.

End refjson.

(** The reference codec as an instance of the interface; its encoder
    never gives up. *)
Definition reference_codec : JsonCodec :=
  {| loads := refjson.loads; dumps := refjson.dumps;
     dump_error := fun _ => None; dumps_error := fun _ => None |}.

(** ** The process and its surroundings *)

(** One call of [client.chat.completions.create]. *)
Record request : Type := {
  rq_api_key : str;
  rq_model : str;
  rq_prompt : str;        (* the text part of the message *)
  rq_image_url : str;     (* the image part, a data URL *)
  rq_temperature : N * Z; (* digits and decimal exponent: 0.2 *)
  rq_max_tokens : Z
}.

(** What a write left at a path: the whole text, or, when the write
    broke off with an exception, a beginning of the text ([json.dump]
    writes the text piece by piece, and the pieces before the one
    that failed reach the file). *)
Inductive written : Type :=
  | Whole (text : str)
  | Torn (text : str).

(** What the programs read and change.  The first group is given from
    outside: directory listings, file contents, whether a path exists,
    the error (if any) that opening a path for writing meets, the
    dictionary python-dotenv reads from the file it finds ([None]: no
    file, or the package is missing), and the remote service, whose answer (the [content] of
    each choice, or an exception) may depend on the calls before.  The
    second group is what a run leaves behind. *)
Record World : Type := {
  argv : list str;
  dotenv : option (gmap str str);
  scandir : str -> list str;
  read_bytes : str -> Res (list Byte.byte);
  path_exists : str -> bool;
  write_error : str -> option exn;
  service : list request -> request -> Res (list (option str));
  environ : gmap str str;     (* os.environ *)
  outputs : gmap str written; (* files written, by path *)
  calls : list request;       (* requests sent, oldest first *)
  stdout : list str           (* texts printed, oldest first *)
}.

Definition set_environ (f : gmap str str -> gmap str str) (w : World)
  : World :=
  {| argv := argv w; dotenv := dotenv w; scandir := scandir w;
     read_bytes := read_bytes w; path_exists := path_exists w;
     write_error := write_error w; service := service w;
     environ := f (environ w); outputs := outputs w; calls := calls w;
     stdout := stdout w |}.

Definition set_outputs (f : gmap str written -> gmap str written) (w : World)
  : World :=
  {| argv := argv w; dotenv := dotenv w; scandir := scandir w;
     read_bytes := read_bytes w; path_exists := path_exists w;
     write_error := write_error w; service := service w;
     environ := environ w; outputs := f (outputs w); calls := calls w;
     stdout := stdout w |}.

Definition set_calls (f : list request -> list request) (w : World)
  : World :=
  {| argv := argv w; dotenv := dotenv w; scandir := scandir w;
     read_bytes := read_bytes w; path_exists := path_exists w;
     write_error := write_error w; service := service w;
     environ := environ w; outputs := outputs w; calls := f (calls w);
     stdout := stdout w |}.

Definition set_stdout (f : list str -> list str) (w : World) : World :=
  {| argv := argv w; dotenv := dotenv w; scandir := scandir w;
     read_bytes := read_bytes w; path_exists := path_exists w;
     write_error := write_error w; service := service w;
     environ := environ w; outputs := outputs w; calls := calls w;
     stdout := f (stdout w) |}.

(** A computation: from a world to a result, or an exception, and the
    world it leaves. *)
Definition M (A : Type) : Type := World -> Res A * World.

#[global] Instance M_ret : MRet M := fun A a w => (Val a, w).

#[global] Instance M_bind : MBind M := fun A B f c w =>
  match c w with
  | (Val a, w') => f a w'
  | (Raise e, w') => (Raise e, w')
  end.

Definition raise {A : Type} (e : exn) : M A := fun w => (Raise e, w).

Definition lift {A : Type} (r : Res A) : M A := fun w => (r, w).

(** [try: body / except <class> as e: handler e], where [catches]
    tells whether the exception belongs to the class. *)
Definition try_except {A : Type} (body : M A) (catches : exn -> bool)
  (handler : exn -> M A) : M A := fun w =>
  match body w with
  | (Val a, w') => (Val a, w')
  | (Raise e, w') => if catches e then handler e w' else (Raise e, w')
  end.

(** Every exception modelled is an [Exception]. *)
Definition Exception (e : exn) : bool := true.

Definition get {A : Type} (f : World -> A) : M A := fun w => (Val (f w), w).

Definition print (s : str) : M unit := fun w =>
  (Val tt, set_stdout (fun out => out ++ [s]) w).

(** [os.environ.get(name)]. *)
Definition environ_get (name : str) : M (option str) :=
  get (fun w => environ w !! name).

(** Opening [path] with [open(path, 'w', encoding='utf-8')] and
    writing [text] into it piece by piece.  Opening the file fails as
    [write_error] says.  A text with a lone surrogate cannot be
    encoded: the write raises [UnicodeEncodeError], and the file,
    emptied when it was opened, keeps a beginning of the text. *)
Definition write_text (path text : str) : M unit := fun w =>
  match write_error w path with
  | Some e => (Raise e, w)
  | None =>
      if encodable text then
        (Val tt, set_outputs (fun o => <[path := Whole text]> o) w)
      else
        (Raise UnicodeEncodeError,
         set_outputs (fun o => <[path := Torn text]> o) w)
  end.

(** ** [glob] and [fnmatch] *)

Module glob.

(** [fnmatch.fnmatchcase(name, pat)] for patterns made of [*], [?]
    and plain characters (the patterns of the program have no
    brackets); on POSIX [fnmatch] compares case-sensitively. *)
Fixpoint fnmatch (pat name : str) : bool :=
  match pat with
  | [] => match name with [] => true | _ => false end
  | p :: pat' =>
      if (p =? 42)%N then
        (fix star (name : str) : bool :=
           fnmatch pat' name
           || match name with
              | [] => false
              | _ :: name' => star name'
              end) name
      else
        match name with
        | [] => false
        | c :: name' => ((p =? 63)%N || (p =? c)%N) && fnmatch pat' name'
        end
  end.

Definition ishidden (path : str) : bool := startswith path (py ".").

(** [glob.has_magic]: the text has one of the characters [*], [?]
    and [[]. *)
Definition has_magic (s : str) : bool :=
  existsb (fun c => (c =? 42)%N || (c =? 63)%N || (c =? 91)%N) s.

(** [glob.glob(pathname)] when the last component of [pathname] is a
    pattern and the directory part has no wildcard: the names of the
    directory that match, hidden ones left out unless the pattern
    starts with a dot, each joined to the directory part. *)
Definition glob (w : World) (pathname : str) : list str :=
  let '(dirname, pattern) := posixpath.split pathname in
  let names := scandir w (if len dirname =? 0 then py "." else dirname) in
  let visible :=
    if ishidden pattern then names
    else List.filter (fun x => negb (ishidden x)) names in
  List.map (posixpath.join dirname) (List.filter (fnmatch pattern) visible).

End glob.

(** ** [base64] *)

Module base64.

Definition alphabet (n : N) : char :=
  (if n <? 26 then 65 + n
   else if n <? 52 then 71 + n
   else if n <? 62 then n - 4
   else if n =? 62 then 43 else 47)%N.

Definition pad : char := 61%N.

(** [base64.b64encode(data).decode('utf-8')]. *)
Fixpoint b64encode (data : list Byte.byte) : str :=
  match data with
  | [] => []
  | [a] =>
      let n := (Byte.to_N a * 65536)%N in
      [alphabet (n / 262144); alphabet (n / 4096 mod 64); pad; pad]%N
  | [a; b] =>
      let n := (Byte.to_N a * 65536 + Byte.to_N b * 256)%N in
      [alphabet (n / 262144); alphabet (n / 4096 mod 64);
       alphabet (n / 64 mod 64); pad]%N
  | a :: b :: c :: rest =>
      let n := (Byte.to_N a * 65536 + Byte.to_N b * 256 + Byte.to_N c)%N in
      [alphabet (n / 262144); alphabet (n / 4096 mod 64);
       alphabet (n / 64 mod 64); alphabet (n mod 64)]%N
      ++ b64encode rest
  end.

End base64.

(** ** [receipt_extractor.py] *)

Definition GROQ_API_KEY : str := py "GROQ_API_KEY".

(** [dotenv.load_dotenv(override=...)]: the entries of the [.env]
    file go into [os.environ]; unless [override] is set, a variable
    the environment already has keeps its value. *)
Definition dotenv_load (override : bool) : M unit := fun w =>
  match dotenv w with
  | Some file =>
      (Val tt,
       set_environ (fun env => if override then file ∪ env else env ∪ file) w)
  | None => (Val tt, w)
  end.

(** The call at import time, [load_dotenv()]: [override] has its
    default, [False]. *)
Definition load_dotenv : M unit := dotenv_load false.

(** The truth value of an optional string: false for [None] and for
    the empty string. *)
Definition is_set (a : option str) : bool :=
  match a with
  | Some (_ :: _) => true
  | _ => false
  end.

(** [a or b] on optional strings: [a] unless it is [None] or empty. *)
Definition or_else (a b : option str) : option str :=
  if is_set a then a else b.

(** [Groq(api_key=k)]: the client holds the key; without one the
    constructor raises. *)
Definition Groq (api_key : option str) : M str :=
  match api_key with
  | Some k => mret k
  | None =>
      raise (GroqError (py
        "The api_key client option must be set either by passing api_key to the client or by setting the GROQ_API_KEY environment variable"))
  end.

(** [client.chat.completions.create(...)]: one request goes out, and
    the service answers with the choices' contents or an exception. *)
Definition chat_completions_create (rq : request)
  : M (list (option str)) := fun w =>
  (service w (calls w) rq, set_calls (fun l => l ++ [rq]) w).

(** [chat_completion.choices[0].message.content]. *)
Definition first_choice (choices : list (option str)) : Res (option str) :=
  match choices with
  | c :: _ => Val c
  | [] => Raise (IndexError (py "list index out of range"))
  end.

Definition encode_image (image_path : str) : M str :=
  data ← (fun w => (read_bytes w image_path, w));
  mret (base64.b64encode data).

(** [re.search(r'\{[\s\S]*\}', text)]: from the first opening brace to
    the last closing brace after it, when there is one. *)
Definition re_search_braces (text : str) : option str :=
  let i := find 123%N text in
  let j := rfind 125%N text in
  if (0 <=? i) && (i <? j) then Some (slice text (Some i) (Some (j + 1)))
  else None.

Definition system_prompt : str :=
  py "Extract the following details from the provided image of receipt document. First look for VAT identification number (vatNumber) in the document and associated name of the company (companyName)."
  ++ [10%N] ++
  py "Ensure all fields from the schema are populated if the information is present in the document. If a piece of information is not found, you may omit the field or use a suitable placeholder like 'N/A' if the schema requires it, but prioritize extracting actual values. For numerical values (prices, VAT amount, VAT rate), provide them as numbers (float)."
  ++ [10%N] ++
  py "For VAT rate, if it's written as e.g. '21%', provide the number 21. Also, extract the date of sale (transaction date) from the receipt always in dd.mm.yyyy format. It might be in dd/mm/yyyy or dd.mm.yyyy format on document. If multiple dates are present (e.g., issue date, due date), use the primary transaction sale date.".

Definition string_field (description : string) : value :=
  JObject [(py "type", JString (py "string"));
           (py "description", JString (py description))].

Definition number_field (description : string) : value :=
  JObject [(py "type", JString (py "number"));
           (py "format", JString (py "float"));
           (py "description", JString (py description))].

Definition json_schema : value :=
  JObject [
    (py "type", JString (py "object"));
    (py "required",
      JArray (List.map (fun s => JString (py s))
        ["companyName"; "vatNumber"; "priceWithoutVAT"; "vat"; "vatRate";
         "priceIncludingVAT"; "dateOfSale"]%string));
    (py "properties", JObject [
      (py "companyName", string_field
        "The legal name of the company that issued the receipt always associated with the VAT identification number. Legal name always includes legal form (e.g. s.r.o., a.s. etc.)");
      (py "vatNumber", string_field
        "The VAT identification number of the company.");
      (py "priceWithoutVAT", number_field
        "The total price of goods/services before VAT is applied. Use 0.0 if not explicitly found.");
      (py "vat", number_field
        "The total VAT amount charged. Use 0.0 if not explicitly found.");
      (py "vatRate", number_field
        "The VAT rate as a percentage (e.g., 21 for 21%). Use 0.0 if not explicitly found.");
      (py "priceIncludingVAT", number_field
        "The final price including VAT. This is usually the most prominent total amount.");
      (py "dateOfSale", string_field
        "The date of sale or transaction date from the receipt, in dd.mm.yyyy format.")
    ])
  ].

Definition image_extensions : list str :=
  [py "*.jpg"; py "*.jpeg"; py "*.png"; py "*.gif"; py "*.bmp"].

Definition check_mark : char := 9989%N.   (* U+2705 *)
Definition cross_mark : char := 10060%N.  (* U+274C *)

(** The request [extract_receipt_data] sends. *)
Definition extraction_request (api_key extraction_prompt base64_image : str)
  : request :=
  {| rq_api_key := api_key;
     rq_model := py "meta-llama/llama-4-maverick-17b-128e-instruct";
     rq_prompt := extraction_prompt;
     rq_image_url := py "data:image/jpeg;base64," ++ base64_image;
     rq_temperature := (2%N, -1);
     rq_max_tokens := 1000 |}.

Section Extractor.

Context `{JsonCodec}.

Definition create_extraction_prompt (system_prompt : str)
  (json_schema : value) : str :=
  system_prompt ++ [10%N; 10%N]
  ++ py "Please extract the information according to this JSON schema:"
  ++ [10%N] ++ dumps (Some 2%nat) true json_schema ++ [10%N; 10%N]
  ++ py "Return ONLY valid JSON that matches this schema. Do not include any explanatory text.".

(** [json.loads(response_content)]; the content of a message may be
    [None], which [json.loads] refuses with a [TypeError]. *)
Definition json_loads (response_content : option str) : Res value :=
  match response_content with
  | Some text => loads text
  | None =>
      Raise (TypeError (py
        "the JSON object must be str, bytes or bytearray, not NoneType"))
  end.

(** The inner [try] of [extract_receipt_data]: parse the whole
    response; on a [JSONDecodeError] parse what the regular expression
    finds, or raise [ValueError]. *)
Definition parse_response (response_content : option str) : Res value :=
  try_res
    (json_loads response_content)
    is_JSONDecodeError
    (fun _ =>
       match response_content with
       | Some text =>
           match re_search_braces text with
           | Some json_match => loads json_match
           | None =>
               Raise (ValueError
                 (py "Could not find valid JSON in the response"))
           end
       | None =>
           Raise (TypeError (py "expected string or bytes-like object"))
       end).

Definition extract_receipt_data (image_path : str) (api_key : option str)
  : M value :=
  env_key ← environ_get GROQ_API_KEY;
  client ← Groq (or_else api_key env_key);
  base64_image ← encode_image image_path;
  let extraction_prompt :=
    create_extraction_prompt system_prompt json_schema in
  try_except
    (chat_completion ← chat_completions_create
       (extraction_request client extraction_prompt base64_image);
     response_content ← lift (first_choice chat_completion);
     extracted_data ← lift (parse_response response_content);
     mret extracted_data)
    Exception
    (fun e =>
       print (py "Error processing " ++ image_path ++ py ": "
              ++ str_of_exn e);;
       mret JNull).

End Extractor.

Section Batch.

Context `{JsonCodec}.

(** The first loop of [process_all_receipts]: for every pattern, the
    matches of the pattern and then those of its upper-case form. *)
Fixpoint find_image_files (directory : str) (extensions : list str)
  : M (list str) :=
  match extensions with
  | [] => mret []
  | ext :: rest =>
      lower ← get (fun w => glob.glob w (posixpath.join directory ext));
      upper ← get (fun w =>
                     glob.glob w (posixpath.join directory (upper ext)));
      others ← find_image_files directory rest;
      mret (lower ++ upper ++ others)
  end.

(** [with open(path, 'w', encoding='utf-8') as f:
    json.dump(data, f, indent=2, ensure_ascii=False)].  The file is
    opened, which empties it; then the encoder writes the text piece
    by piece.  When the encoder gives up part-way the exception
    leaves a beginning of the text in the file, as a piece that
    cannot be encoded does. *)
Definition json_dump (path : str) (data : value) : M unit := fun w =>
  match write_error w path, dump_error data with
  | Some e, _ => (Raise e, w)
  | None, Some e =>
      (Raise e,
       set_outputs
         (fun o => <[path := Torn (dumps (Some 2%nat) false data)]> o) w)
  | None, None => write_text path (dumps (Some 2%nat) false data) w
  end.

(** [print(json.dumps(data, indent=2))]. *)
Definition print_json (data : value) : M unit :=
  match dumps_error data with
  | Some e => raise e
  | None => print (dumps (Some 2%nat) true data)
  end.

(** The second loop: one image after the other, counting the
    successes. *)
Fixpoint process_images (image_files : list str) (successful_count : Z)
  : M Z :=
  match image_files with
  | [] => mret successful_count
  | image_path :: rest =>
      print ([10%N] ++ py "Processing: " ++ posixpath.basename image_path);;
      extracted_data ← extract_receipt_data image_path None;
      if truthy extracted_data then
        let json_filename := get_json_filename image_path in
        json_dump json_filename extracted_data;;
        print ([check_mark] ++ py " Successfully extracted data from "
               ++ posixpath.basename image_path);;
        print (py "   Saved to: " ++ json_filename);;
        print_json extracted_data;;
        process_images rest (successful_count + 1)
      else
        print ([cross_mark] ++ py " Failed to extract data from "
               ++ posixpath.basename image_path);;
        process_images rest successful_count
  end.

Definition process_all_receipts (directory : str) : M unit :=
  image_files ← find_image_files directory image_extensions;
  match image_files with
  | [] => print (py "No image files found in " ++ directory)
  | _ =>
      print (py "Found " ++ str_of_Z (Z.of_nat (length image_files))
             ++ py " image(s) to process");;
      successful_count ← process_images image_files 0;
      print ([10%N] ++ times 61%N 50);;
      print (py "Processing complete: " ++ str_of_Z successful_count
             ++ py "/" ++ str_of_Z (Z.of_nat (length image_files))
             ++ py " files processed successfully")
  end.

Definition main : M unit :=
  key ← environ_get GROQ_API_KEY;
  if negb (is_set key) then
    print (py "Please set the GROQ_API_KEY environment variable");;
    print (py "You can do this by:");;
    print (py "  - Adding it to your .env file: GROQ_API_KEY=your-api-key-here");;
    print (py "  - Or setting it in your shell: export GROQ_API_KEY='your-api-key-here'")
  else
    args ← get argv;
    match args with
    | _ :: image_path :: _ =>
        exists_ ← get (fun w => path_exists w image_path);
        if exists_ : bool then
          print (py "Processing single file: " ++ image_path);;
          result ← extract_receipt_data image_path None;
          if truthy result then
            print ([10%N] ++ py "Extracted data:");;
            print_json result;;
            let json_filename := get_json_filename image_path in
            json_dump json_filename result;;
            print ([10%N; check_mark] ++ py " Result saved to "
                   ++ json_filename)
          else print (py "Failed to extract data")
        else print (py "File not found: " ++ image_path)
    | _ => process_all_receipts (py ".")
    end.

(** Running the script: the import-time [load_dotenv()], then
    [main()]. *)
Definition script : M unit := load_dotenv;; main.

End Batch.

(** ** [manage_api_key.py] *)

Module manage_api_key.

(** What [view_api_key] reads: the lines of [.env] in the working
    directory ([None] when the file does not exist), each as the
    iteration over the file yields it, and the environment. *)
Record Env : Type := {
  env_file : option (list str);
  os_environ : gmap str str
}.

Definition star : char := 42%N.

(** The masking, written out twice in the source (for the file entry
    and for the environment variable). *)
Definition mask (key : str) : str :=
  if 8 <? len key then
    slice key None (Some 4) ++ times star (len key - 8)
    ++ slice key (Some (-4)) None
  else times star (len key).

(** The loop over the lines of [.env]: the first line that starts
    with [GROQ_API_KEY=] is printed masked and ends the function. *)
Fixpoint view_env_lines (lines : list str) : option (Res str) :=
  match lines with
  | [] => None
  | line :: rest =>
      if startswith line (py "GROQ_API_KEY=") then
        Some match split1 61%N (strip line) with
             | _ :: key :: _ =>
                 Val (py "Current API key (.env): " ++ mask key)
             | _ => Raise (IndexError (py "list index out of range"))
             end
      else view_env_lines rest
  end.

(** [view_api_key()]: the line it prints. *)
Definition view_api_key (e : Env) : Res str :=
  let from_environment :=
    match os_environ e !! GROQ_API_KEY with
    | Some (c :: k) =>
        Val (py "Current API key (environment): " ++ mask (c :: k))
    | _ => Val (py "No API key found!")
    end in
  match env_file e with
  | Some lines =>
      match view_env_lines lines with
      | Some printed => printed
      | None => from_environment
      end
  | None => from_environment
  end.

End manage_api_key.

(** ** The statements of the specification, in its own words *)

(** A file name without its extension: what precedes the last dot,
    unless only dots precede it. *)
Fixpoint cut_last_dot (s : str) : option (str * str) :=
  match s with
  | [] => None
  | c :: s' =>
      match cut_last_dot s' with
      | Some (a, b) => Some (c :: a, b)
      | None => if (c =? 46)%N then Some ([], c :: s') else None
      end
  end.

Definition without_extension (name : str) : str :=
  match cut_last_dot name with
  | Some (root, _) =>
      if forallb (fun c => (c =? 46)%N) root then name else root
  | None => name
  end.

(** The secret as the utility may display it: the first four and the
    last four characters of a value longer than eight, a star for
    every other character. *)
Definition shown_masked (key : str) : str :=
  imap (fun i c =>
          if (8 <? len key)
             && ((Z.of_nat i <? 4) || (len key - 4 <=? Z.of_nat i))
          then c else manage_api_key.star) key.

(** The value [view_api_key] finds, with the label it prints before
    it: the entry of the first line of [.env] that starts with
    [GROQ_API_KEY=], white space at the end of the line left out;
    without such a line, the non-empty environment variable. *)
Inductive stored_value (e : manage_api_key.Env) : str -> str -> Prop :=
  | stored_in_file (before after : list str) (line key : str) :
      manage_api_key.env_file e = Some (before ++ line :: after) ->
      Forall (fun l => startswith l (py "GROQ_API_KEY=") = false) before ->
      startswith line (py "GROQ_API_KEY=") = true ->
      strip line = py "GROQ_API_KEY=" ++ key ->
      stored_value e (py "Current API key (.env): ") key
  | stored_in_environment (key : str) :
      match manage_api_key.env_file e with
      | Some lines =>
          Forall (fun l => startswith l (py "GROQ_API_KEY=") = false) lines
      | None => True
      end ->
      manage_api_key.os_environ e !! GROQ_API_KEY = Some key ->
      key <> [] ->
      stored_value e (py "Current API key (environment): ") key.

Section Statements.

Context `{JsonCodec}.

(** Recovery, stage by stage: the value of the whole text when it
    parses; on a decoding error the result of parsing the span from
    the first opening brace to the last closing brace, or a
    [ValueError] when the text has no such span; any other exception
    of the parser as it is. *)
Inductive recovers (text : str) : Res value -> Prop :=
  | recovers_whole (v : value) :
      loads text = Val v ->
      recovers text (Val v)
  | recovers_span (msg before inside after : str) :
      loads text = Raise (JSONDecodeError msg) ->
      text = before ++ 123%N :: inside ++ 125%N :: after ->
      123%N ∉ before ->
      125%N ∉ after ->
      recovers text (loads (123%N :: inside ++ [125%N]))
  | recovers_no_span (msg : str) :
      loads text = Raise (JSONDecodeError msg) ->
      (forall before inside after : str,
         text <> before ++ 123%N :: inside ++ 125%N :: after) ->
      recovers text
        (Raise (ValueError (py "Could not find valid JSON in the response")))
  | recovers_other (e : exn) :
      loads text = Raise e ->
      is_JSONDecodeError e = false ->
      recovers text (Raise e).

(** Recovery in the words of the specification: the whole text when
    it parses to an object; otherwise the largest brace-delimited
    span; when both fail, an [ExtractionFormatError] that carries the
    raw text. *)
Definition ExtractionFormatError (raw_text : str) : exn :=
  OtherException (py "ExtractionFormatError") raw_text.

Definition spec_recover (text : str) : Res value :=
  match loads text with
  | Val (JObject members) => Val (JObject members)
  | _ =>
      match re_search_braces text with
      | Some span =>
          match loads span with
          | Val v => Val v
          | Raise _ => Raise (ExtractionFormatError text)
          end
      | None => Raise (ExtractionFormatError text)
      end
  end.

(** What the [try] block of [extract_receipt_data] computes from the
    answer of the service. *)
Definition response_outcome (reply : Res (list (option str))) : Res value :=
  choices ← reply;
  response_content ← first_choice choices;
  parse_response response_content.

(** The request for an image with the given bytes. *)
Definition request_for (api_key : str) (data : list Byte.byte) : request :=
  extraction_request api_key
    (create_extraction_prompt system_prompt json_schema)
    (base64.b64encode data).

(** The outcomes of the attempts on a list of images, in order: each
    request is answered by the service knowing the requests before. *)
Fixpoint attempts
  (service : list request -> request -> Res (list (option str)))
  (image : str -> list Byte.byte) (api_key : str)
  (history : list request) (image_files : list str) : list (Res value) :=
  match image_files with
  | [] => []
  | image_path :: rest =>
      let rq := request_for api_key (image image_path) in
      response_outcome (service history rq)
      :: attempts service image api_key (history ++ [rq]) rest
  end.

(** The record can be saved: the encoder returns on it, and its text
    can be encoded in UTF-8. *)
Definition can_be_saved (v : value) : Prop :=
  dump_error v = None /\ dumps_error v = None
  /\ encodable (dumps (Some 2%nat) false v) = true.

(** An attempt succeeds when it yields a value that counts as true. *)
Definition succeeded (outcome : Res value) : bool :=
  match outcome with
  | Val v => truthy v
  | Raise _ => false
  end.

Definition successes (outcomes : list (Res value)) : Z :=
  Z.of_nat (length (List.filter succeeded outcomes)).

End Statements.

(** The world after one request, and after the log line of a failed
    attempt. *)
Definition after_call (rq : request) (w : World) : World :=
  set_calls (fun l => l ++ [rq]) w.

Definition after_error (image_path : str) (e : exn) (w : World) : World :=
  set_stdout
    (fun out => out ++ [py "Error processing " ++ image_path ++ py ": "
                        ++ str_of_exn e]) w.

(** The image files of a directory as [process_all_receipts] collects
    them. *)
Definition discovered (w : World) (directory : str) : list str :=
  concat (List.map
            (fun ext =>
               glob.glob w (posixpath.join directory ext)
               ++ glob.glob w (posixpath.join directory (upper ext)))
            image_extensions).

(** ** Sample data for the examples *)

Definition sample_record : value :=
  JObject [
    (py "companyName", JString (py "Acme s.r.o."));
    (py "vatNumber", JString (py "SK123"));
    (py "priceWithoutVAT", JFloat false 100 (-1));
    (py "vat", JFloat false 21 (-1));
    (py "vatRate", JInt 21);
    (py "priceIncludingVAT", JFloat false 121 (-1));
    (py "dateOfSale", JString (py "01.02.2024"))
  ].

(** The record as a response text, on one line. *)
Definition sample_response : str := refjson.dumps None true sample_record.

(** A record with a lone surrogate: the service can send one as the
    escape [\ud800], which [json.loads] accepts. *)
Definition surrogate_record : value :=
  JObject [(py "companyName", JString [55296%N])].

Definition sample_image : list Byte.byte :=
  [Byte.xff; Byte.xd8; Byte.xff; Byte.xe0].

(** A process with the given arguments, [.env] dictionary,
    environment, names in every directory, unwritable paths,
    unreadable paths and answers of the service (one per request, in
    order; afterwards the service is unreachable). *)
Definition sample_world (args : list str) (file : option (gmap str str))
  (env : gmap str str) (names unwritable unreadable : list str)
  (answers : list (Res (list (option str)))) : World :=
  {| argv := args;
     dotenv := file;
     scandir := fun _ => names;
     read_bytes := fun path =>
       if decide (path ∈ unreadable)
       then Raise (OSError (py "[Errno 13] Permission denied"))
       else Val sample_image;
     path_exists := fun _ => true;
     write_error := fun path =>
       if decide (path ∈ unwritable)
       then Some (OSError (py "[Errno 13] Permission denied"))
       else None;
     service := fun history _ =>
       match answers !! length history with
       | Some answer => answer
       | None =>
           Raise (OtherException (py "APIConnectionError")
                    (py "Connection error."))
       end;
     environ := env;
     outputs := ∅;
     calls := [];
     stdout := [] |}.

(** The lines a run of the batch prints for one image. *)
Definition processing_line (image_path : str) : str :=
  [10%N] ++ py "Processing: " ++ posixpath.basename image_path.

Definition failed_line (image_path : str) : str :=
  [cross_mark] ++ py " Failed to extract data from "
  ++ posixpath.basename image_path.

Definition error_line (image_path : str) (e : exn) : str :=
  py "Error processing " ++ image_path ++ py ": " ++ str_of_exn e.

Definition summary_line (successful_count total : Z) : str :=
  py "Processing complete: " ++ str_of_Z successful_count ++ py "/"
  ++ str_of_Z total ++ py " files processed successfully".

(** The entry of the [.env] dictionary for the key, when there is
    one. *)
Definition file_entry (w : World) : option str :=
  file ← dotenv w; file !! GROQ_API_KEY.

(** The credential of a job as the code resolves it: a non-empty
    override, else the environment variable, else the file entry. *)
Definition resolved_credential (override : option str) (w : World)
  : option str :=
  match override with
  | Some (c :: k) => Some (c :: k)
  | _ =>
      match environ w !! GROQ_API_KEY with
      | Some v => Some v
      | None => file_entry w
      end
  end.

(** The order of the specification: the override, else the file
    entry, else the environment variable. *)
Definition spec_resolved_credential (override : option str) (w : World)
  : option str :=
  match override with
  | Some (c :: k) => Some (c :: k)
  | _ =>
      match file_entry w with
      | Some v => Some v
      | None => environ w !! GROQ_API_KEY
      end
  end.

(** No credential: the variable is unset or empty. *)
Definition no_credential (entry : option str) : Prop :=
  entry = None \/ entry = Some [].

(** What [main] prints when it finds no key. *)
Definition missing_key_lines : list str :=
  [py "Please set the GROQ_API_KEY environment variable";
   py "You can do this by:";
   py "  - Adding it to your .env file: GROQ_API_KEY=your-api-key-here";
   py "  - Or setting it in your shell: export GROQ_API_KEY='your-api-key-here'"].

(** The allow-list of extensions, and the names it admits as the code
    has it: a name that ends with a dot and one of the extensions,
    written in lower case or in upper case throughout. *)
Definition allowed_extensions : list str :=
  [py "jpg"; py "jpeg"; py "png"; py "gif"; py "bmp"].

Definition has_image_extension (name : str) : Prop :=
  exists stem ext,
    ext ∈ allowed_extensions
    /\ (name = stem ++ 46%N :: ext \/ name = stem ++ 46%N :: upper ext).

(** The allow-list in the words of the specification: the extension
    of the name, in any casing. *)
Definition lower_char (c : char) : char :=
  if ((65 <=? c) && (c <=? 90))%N then (c + 32)%N else c.

Definition lower (s : str) : str := List.map lower_char s.

Definition spec_image_file (name : str) : bool :=
  existsb
    (fun ext =>
       bool_decide (lower (snd (posixpath.splitext name)) = 46%N :: ext))
    allowed_extensions.

(** The directory part [glob] gives to the paths it returns, and the
    directory it lists. *)
Definition glob_dirname (directory : str) : str :=
  fst (posixpath.split (posixpath.join directory (py "*"))).

Definition listed_directory (directory : str) : str :=
  if len (glob_dirname directory) =? 0 then py "."
  else glob_dirname directory.

(** Free of the wildcards of [fnmatch]. *)
Definition plain (s : str) : bool :=
  forallb (fun c => negb (c =? 42)%N && negb (c =? 63)%N) s.

(** ** [manage_api_key.py] as a program

    The utility with the file it keeps: [view_api_key] above reads
    the lines of [.env]; [set_api_key] and [remove_api_key] rewrite
    the file.  The state holds the file as the text it decodes to:
    these are the runs in which the file, when it exists, can be
    opened, decodes in the default encoding, taken to be UTF-8, and
    can be opened for writing.  (A file that does not decode is
    not in these states: reading it raises [UnicodeDecodeError]
    where the decoder meets the bad bytes, and [set_api_key] and
    [remove_api_key], which read the whole file before they open it
    for writing, then change nothing.) *)

Module manage_api_key_script.

(** The text of [.env] in the working directory ([None]: no such
    file), the environment, the arguments, and what was printed. *)
Record State : Type := {
  dot_env : option str;
  environ_vars : gmap str str;
  sys_argv : list str;
  printed : list str
}.

Definition set_dot_env (text : option str) (s : State) : State :=
  {| dot_env := text; environ_vars := environ_vars s;
     sys_argv := sys_argv s; printed := printed s |}.

Definition say (line : str) (s : State) : State :=
  {| dot_env := dot_env s; environ_vars := environ_vars s;
     sys_argv := sys_argv s; printed := printed s ++ [line] |}.

(** Reading in text mode: a carriage return, alone or before a line
    feed, comes out as a line feed. *)
Fixpoint translate_newlines (text : str) : str :=
  match text with
  | [] => []
  | 13%N :: rest =>
      10%N :: match rest with
              | 10%N :: rest' => translate_newlines rest'
              | _ => translate_newlines rest
              end
  | c :: rest => c :: translate_newlines rest
  end.

(** [for line in f]: the lines of a text, each with its line feed;
    the last one may lack it. *)
Fixpoint lines_of (text : str) : list str :=
  match text with
  | [] => []
  | c :: rest =>
      if (c =? 10)%N then [c] :: lines_of rest
      else match lines_of rest with
           | line :: more => (c :: line) :: more
           | [] => [[c]]
           end
  end.

Definition read_lines (text : str) : list str :=
  lines_of (translate_newlines text).

Definition key_prefix : str := py "GROQ_API_KEY=".

(** The loop both functions run over the file: the lines that do not
    start with [GROQ_API_KEY=], each without its trailing white
    space. *)
Definition other_vars (lines : list str) : list str :=
  List.map rstrip
    (List.filter (fun line => negb (startswith line key_prefix)) lines).

(** [found] of [remove_api_key]: some line starts with the prefix. *)
Definition found (lines : list str) : bool :=
  existsb (fun line => startswith line key_prefix) lines.

(** The loop that writes the other variables back: one per line,
    blank ones left out. *)
Definition write_vars (vars : list str) : str :=
  concat (List.map (fun var => var ++ [10%N])
            (List.filter (fun var => negb (len (strip var) =? 0)) vars)).

Definition view_api_key (s : State) : Res State :=
  line ← manage_api_key.view_api_key
           {| manage_api_key.env_file := read_lines <$> dot_env s;
              manage_api_key.os_environ := environ_vars s |};
  Val (say line s).

(** [set_api_key(new_key)].  The first write is the entry of the key.
    The key comes from the command line, where a byte that is no
    valid text arrives as a lone surrogate; such a key cannot be
    encoded: [f.write] raises [UnicodeEncodeError] in the file that
    [open(env_file, 'w')] has just emptied, the file stays empty and
    nothing is printed.  The other lines came out of the decoder, so
    they can be encoded again. *)
Definition set_api_key (new_key : str) (s : State) : Res unit * State :=
  let others :=
    match dot_env s with
    | Some text => other_vars (read_lines text)
    | None => []
    end in
  let entry := key_prefix ++ new_key ++ [10%N] in
  if encodable entry then
    (Val tt,
     say ([check_mark] ++ py " API key updated in .env file")
       (set_dot_env (Some (entry ++ write_vars others)) s))
  else (Raise UnicodeEncodeError, set_dot_env (Some []) s).

Definition remove_api_key (s : State) : State :=
  match dot_env s with
  | None => say (py "No .env file found!") s
  | Some text =>
      let lines := read_lines text in
      if found lines then
        say ([check_mark] ++ py " API key removed from .env file")
          (set_dot_env (Some (write_vars (other_vars lines))) s)
      else say (py "No API key found in .env file!") s
  end.

Definition usage : list str :=
  [py "Usage:";
   py "  python manage_api_key.py view     - View current API key (masked)";
   py "  python manage_api_key.py set KEY  - Set new API key";
   py "  python manage_api_key.py remove   - Remove API key"].

(** [main()].  [lower] changes the letters A-Z; no other character
    lowers to a letter of the three command words, so the choice of
    the command is as in Python for every argument (the text echoed
    for an unknown command is Python's when the argument has no cased
    letter outside ASCII). *)
Definition main (s : State) : Res unit * State :=
  match sys_argv s with
  | _ :: arg :: rest =>
      let command := lower arg in
      if bool_decide (command = py "view") then
        match view_api_key s with
        | Val s' => (Val tt, s')
        | Raise e => (Raise e, s)
        end
      else if bool_decide (command = py "set") then
        match rest with
        | new_key :: _ => set_api_key new_key s
        | [] =>
            (Val tt,
             say (py "Usage: python manage_api_key.py set YOUR_NEW_KEY")
               (say (py "Please provide the new API key!") s))
        end
      else if bool_decide (command = py "remove") then
        (Val tt, remove_api_key s)
      else (Val tt, say (py "Unknown command: " ++ command) s)
  | _ => (Val tt, fold_left (fun st line => say line st) usage s)
  end.

End manage_api_key_script.

(** The other variables of the file of a state, as both functions
    collect them, and the lines they are written back as. *)
Definition other_vars_of (s : manage_api_key_script.State) : list str :=
  match manage_api_key_script.dot_env s with
  | Some text =>
      manage_api_key_script.other_vars (manage_api_key_script.read_lines text)
  | None => []
  end.

Definition kept_lines (vars : list str) : list str :=
  List.map (fun var => var ++ [10%N])
    (List.filter (fun var => negb (len (strip var) =? 0)) vars).

(** The lines of the file of a state. *)
Definition file_lines (s : manage_api_key_script.State) : list str :=
  match manage_api_key_script.dot_env s with
  | Some text => manage_api_key_script.read_lines text
  | None => []
  end.

(** What [view_api_key] says when the file has no entry. *)
Definition environment_line (env : gmap str str) : str :=
  match env !! GROQ_API_KEY with
  | Some (c :: k) =>
      py "Current API key (environment): " ++ manage_api_key.mask (c :: k)
  | _ => py "No API key found!"
  end.

(** A state for the examples. *)
Definition sample_state (text : option str) (args : list str)
  : manage_api_key_script.State :=
  {| manage_api_key_script.dot_env := text;
     manage_api_key_script.environ_vars :=
       {[ GROQ_API_KEY := py "gsk_environment_key" ]};
     manage_api_key_script.sys_argv := args;
     manage_api_key_script.printed := [] |}.

(** The characters of a base 64 text: letters, digits, [+], [/], and
    [=] for padding. *)
Definition base64_char (c : char) : bool :=
  ((65 <=? c) && (c <=? 90) || (97 <=? c) && (c <=? 122)
   || (48 <=? c) && (c <=? 57) || (c =? 43) || (c =? 47) || (c =? 61))%N.

(** * Properties *)

(** ** The definitions at work *)

Example get_json_filename_plain :
  get_json_filename (py "./scans/receipt.jpg") = py "receipt.json".
Proof. reflexivity. Qed.

Example get_json_filename_hidden :
  get_json_filename (py "a.b/.hidden") = py ".hidden.json".
Proof. reflexivity. Qed.

Example get_json_filename_two_dots :
  get_json_filename (py "x/archive.tar.gz") = py "archive.tar.json".
Proof. reflexivity. Qed.

Example split_examples :
  posixpath.split (py "./*.jpg") = (py ".", py "*.jpg")
  /\ posixpath.split (py "*.jpg") = ([], py "*.jpg")
  /\ posixpath.split (py "//x") = (py "//", py "x")
  /\ posixpath.split (py "scans//*.png") = (py "scans", py "*.png").
Proof. repeat split; reflexivity. Qed.

Example fnmatch_examples :
  glob.fnmatch (py "*.jpg") (py "receipt.jpg") = true
  /\ glob.fnmatch (py "*.jpg") (py "receipt.JPG") = false
  /\ glob.fnmatch (py "*.JPG") (py "RECEIPT.JPG") = true
  /\ glob.fnmatch (py "*.jpg") (py "receipt.jpg.bak") = false
  /\ glob.fnmatch (py "r?c*.jp*") (py "receipt.jpeg") = true.
Proof. repeat split; reflexivity. Qed.

Example b64encode_examples :
  base64.b64encode [] = []
  /\ base64.b64encode [Byte.x4d] = py "TQ=="
  /\ base64.b64encode [Byte.x4d; Byte.x61] = py "TWE="
  /\ base64.b64encode [Byte.x4d; Byte.x61; Byte.x6e] = py "TWFu"
  /\ base64.b64encode sample_image = py "/9j/4A==".
Proof. repeat split; reflexivity. Qed.

Example loads_examples :
  refjson.loads (py "{}") = Val (JObject [])
  /\ refjson.loads (py " [1, 2.50, -3e2, true, null] ")
     = Val (JArray [JInt 1; JFloat false 250 (-2); JFloat true 3 2;
                    JBool true; JNull])
  /\ refjson.loads (py "[1,]")
     = Raise (JSONDecodeError
                (py "Expecting value: line 1 column 4 (char 3)"))
  /\ refjson.loads (py "{} {}")
     = Raise (JSONDecodeError (py "Extra data: line 1 column 4 (char 3)"))
  /\ refjson.loads sample_response = Val sample_record.
Proof. repeat split; vm_compute; reflexivity. Qed.

Example truthy_examples :
  truthy (JObject []) = false
  /\ truthy JNull = false
  /\ truthy (JInt 0) = false
  /\ truthy (JFloat false 0 (-1)) = false
  /\ truthy (JFloat false 1 (-400)) = false
  /\ truthy (JString []) = false
  /\ truthy sample_record = true.
Proof. repeat split; vm_compute; reflexivity. Qed.

Example re_search_braces_examples :
  re_search_braces (py "a } b { c } d } e { ") = Some (py "{ c } d }")
  /\ re_search_braces (py "} {") = None
  /\ re_search_braces (py "no braces") = None.
Proof. repeat split; reflexivity. Qed.

(** A response with text around the record is recovered by the
    second stage. *)
Example recovery_from_noisy_response :
  @parse_response reference_codec
    (Some (py "Here is the result:" ++ [10%N] ++ sample_response ++ [10%N]
           ++ py "Let me know if you need more."))
  = Val sample_record.
Proof. vm_compute. reflexivity. Qed.

(** Three images, the service failing for the second: two files are
    written and the summary says 2/3. *)
Example batch_of_three :
  let w := sample_world [py "receipt_extractor.py"] None
             {[ GROQ_API_KEY := py "gsk_test" ]}
             [py "a.jpg"; py "b.jpg"; py "c.png"] [] []
             [Val [Some sample_response];
              Raise (OtherException (py "RateLimitError") (py "Error code: 429"));
              Val [Some sample_response]] in
  let w' := snd (@script reference_codec w) in
  fst (@script reference_codec w) = Val tt
  /\ size (outputs w') = 2%nat
  /\ outputs w' !! py "b.json" = None
  /\ last (stdout w')
     = Some (py "Processing complete: 2/3 files processed successfully").
Proof. intros w w'. repeat split; vm_compute; reflexivity. Qed.

Example mask_examples :
  manage_api_key.mask (py "gsk_0123456789abcdef") = py "gsk_************cdef"
  /\ manage_api_key.mask (py "123456789") = py "1234*6789"
  /\ manage_api_key.mask (py "12345678") = py "********"
  /\ manage_api_key.mask [] = [].
Proof. repeat split; reflexivity. Qed.

(** ** Strings *)

Section StrFacts.

Implicit Types (s a b : str) (c : char).

Lemma len_app a b : len (a ++ b) = len a + len b.
Proof. unfold len. rewrite length_app. lia. Qed.

Lemma len_nonneg s : 0 <= len s.
Proof. unfold len. lia. Qed.

Lemma rfind_from_app c a b i last :
  rfind_from c (a ++ b) i last = rfind_from c b (i + len a) (rfind_from c a i last).
Proof.
  revert i last. induction a as [|x a IH]; intros i last; simpl.
  - unfold len. simpl. f_equal. lia.
  - rewrite IH. f_equal. unfold len. simpl length. lia.
Qed.

Lemma rfind_from_absent c s i last :
  c ∉ s -> rfind_from c s i last = last.
Proof.
  revert i last. induction s as [|x s IH]; intros i last Hc; simpl; [done|].
  apply not_elem_of_cons in Hc as [Hx Hs].
  rewrite IH by done.
  destruct (N.eqb_spec x c); congruence.
Qed.

Lemma rfind_absent c s : c ∉ s -> rfind c s = -1.
Proof. apply rfind_from_absent. Qed.

Lemma rfind_last c a b : c ∉ b -> rfind c (a ++ c :: b) = len a.
Proof.
  intros Hb. unfold rfind. rewrite rfind_from_app. simpl.
  rewrite N.eqb_refl. rewrite rfind_from_absent by done. lia.
Qed.

Lemma find_from_absent c s i : c ∉ s -> find_from c s i = -1.
Proof.
  revert i. induction s as [|x s IH]; intros i Hc; simpl; [done|].
  apply not_elem_of_cons in Hc as [Hx Hs].
  destruct (N.eqb_spec x c); [congruence|]. by apply IH.
Qed.

Lemma find_from_first c a b i :
  c ∉ a -> find_from c (a ++ c :: b) i = i + len a.
Proof.
  revert i. induction a as [|x a IH]; intros i Hc; simpl.
  - rewrite N.eqb_refl. unfold len. simpl. lia.
  - apply not_elem_of_cons in Hc as [Hx Hs].
    destruct (N.eqb_spec x c); [congruence|].
    rewrite IH by done. unfold len. simpl length. lia.
Qed.

Lemma find_absent c s : c ∉ s -> find c s = -1.
Proof. apply find_from_absent. Qed.

Lemma find_first c a b : c ∉ a -> find c (a ++ c :: b) = len a.
Proof. intros. unfold find. rewrite find_from_first by done. lia. Qed.

(** Every text is free of [c] or splits at the last (first) [c]. *)
Lemma split_at_last c s :
  c ∉ s \/ exists a b, s = a ++ c :: b /\ c ∉ b.
Proof.
  induction s as [|x s IH].
  - left. apply not_elem_of_nil.
  - destruct IH as [Hs | (a & b & -> & Hb)].
    + destruct (decide (x = c)) as [->|Hx].
      * right. exists [], s. done.
      * left. by apply not_elem_of_cons.
    + right. exists (x :: a), b. done.
Qed.

Lemma split_at_first c s :
  c ∉ s \/ exists a b, s = a ++ c :: b /\ c ∉ a.
Proof.
  induction s as [|x s IH].
  - left. apply not_elem_of_nil.
  - destruct (decide (x = c)) as [->|Hx].
    + right. exists [], s. split; [done|]. apply not_elem_of_nil.
    + destruct IH as [Hs | (a & b & -> & Ha)].
      * left. by apply not_elem_of_cons.
      * right. exists (x :: a), b. split; [done|]. by apply not_elem_of_cons.
Qed.

Lemma slice_from_app a b : slice (a ++ b) (Some (len a)) None = b.
Proof.
  unfold slice, clamp. rewrite len_app.
  pose proof (len_nonneg a). pose proof (len_nonneg b).
  destruct (Z.ltb_spec (len a) 0); [lia|].
  rewrite Z.min_l by lia.
  replace (len a + len b - len a) with (len b) by lia.
  unfold len. rewrite !Nat2Z.id.
  rewrite drop_app_length. apply firstn_all.
Qed.

Lemma slice_to_app a b : slice (a ++ b) None (Some (len a)) = a.
Proof.
  unfold slice, clamp. rewrite len_app.
  pose proof (len_nonneg a). pose proof (len_nonneg b).
  destruct (Z.ltb_spec (len a) 0); [lia|].
  rewrite Z.min_l by lia. rewrite Z.sub_0_r.
  unfold len. rewrite Nat2Z.id. simpl. rewrite drop_0.
  apply take_app_length.
Qed.

Lemma slice_all s : slice s (Some 0) None = s.
Proof. apply (slice_from_app [] s). Qed.

Lemma slice_prefix a b : slice (a ++ b) (Some 0) (Some (len a)) = a.
Proof.
  unfold slice, clamp. rewrite len_app.
  pose proof (len_nonneg a). pose proof (len_nonneg b).
  destruct (Z.ltb_spec (len a) 0); [lia|]. simpl.
  rewrite Z.min_l by lia. rewrite Z.min_l by lia. rewrite Z.sub_0_r.
  unfold len. rewrite Nat2Z.id. simpl. rewrite drop_0.
  apply take_app_length.
Qed.

End StrFacts.

(** ** Paths and the output file name *)

Section PathFacts.

Import posixpath.

Implicit Types (p q d name : str).

Lemma basename_absent name : sep ∉ name -> basename name = name.
Proof.
  intros Hs. unfold basename. rewrite rfind_absent by done. apply slice_all.
Qed.

Lemma basename_last d name :
  sep ∉ name -> basename (d ++ sep :: name) = name.
Proof.
  intros Hs. unfold basename. rewrite rfind_last by done.
  replace (d ++ sep :: name) with ((d ++ [sep]) ++ name)
    by (by rewrite <- app_assoc).
  replace (len d + 1) with (len (d ++ [sep])) by (by rewrite len_app).
  apply slice_from_app.
Qed.

Lemma basename_no_sep p : sep ∉ basename p.
Proof.
  destruct (split_at_last sep p) as [Hs | (a & b & -> & Hb)].
  - by rewrite basename_absent.
  - by rewrite basename_last.
Qed.

Lemma basename_idempotent p : basename (basename p) = basename p.
Proof. apply basename_absent, basename_no_sep. Qed.

Lemma startswith_sep_absent name : sep ∉ name -> startswith name [sep] = false.
Proof.
  destruct name as [|x name]; [done|]. intros Hs. simpl.
  apply not_elem_of_cons in Hs as [Hx _].
  destruct (N.eqb_spec x sep); [congruence | done].
Qed.

Lemma endswith_sep d : endswith d [sep] = true -> exists d', d = d' ++ [sep].
Proof.
  unfold endswith. simpl. destruct (rev d) as [|x r] eqn:Hr; [done|].
  intros Hx. apply andb_true_iff in Hx as [Hx _].
  apply N.eqb_eq in Hx as ->. exists (rev r).
  rewrite <- (rev_involutive d), Hr. done.
Qed.

(** The base name of a path joined from a directory and a name is
    the name. *)
Lemma basename_join d name : sep ∉ name -> basename (join d name) = name.
Proof.
  intros Hs. unfold join. rewrite startswith_sep_absent by done.
  destruct (len d =? 0) eqn:Hd; simpl.
  - apply Z.eqb_eq in Hd. destruct d; [|unfold len in Hd; simpl in Hd; lia].
    by apply basename_absent.
  - destruct (endswith d [sep]) eqn:He.
    + apply endswith_sep in He as [d' ->]. rewrite <- app_assoc.
      by apply basename_last.
    + by apply basename_last.
Qed.

Lemma cut_last_dot_absent name : extsep ∉ name -> cut_last_dot name = None.
Proof.
  induction name as [|x name IH]; [done|]. intros Hx.
  apply not_elem_of_cons in Hx as [Hx Hn]. simpl. rewrite IH by done.
  destruct (N.eqb_spec x 46); [done | done].
Qed.

Lemma cut_last_dot_last a b :
  extsep ∉ b -> cut_last_dot (a ++ extsep :: b) = Some (a, extsep :: b).
Proof.
  intros Hb. induction a as [|x a IH]; simpl.
  - by rewrite cut_last_dot_absent.
  - by rewrite IH.
Qed.

Lemma existsb_negb_forallb {A : Type} (f : A -> bool) (l : list A) :
  existsb (fun x => negb (f x)) l = negb (forallb f l).
Proof.
  induction l as [|x l IH]; [done|]. simpl. rewrite IH.
  by destruct (f x).
Qed.

(** On a name without directory part, [splitext] cuts the extension
    off as the specification describes it. *)
Lemma splitext_without_extension name :
  sep ∉ name -> fst (splitext name) = without_extension name.
Proof.
  intros Hs. unfold splitext, without_extension.
  rewrite (rfind_absent sep) by done.
  destruct (split_at_last extsep name) as [Hd | (a & b & -> & Hb)].
  - rewrite rfind_absent by done. rewrite cut_last_dot_absent by done. done.
  - rewrite rfind_last by done. rewrite cut_last_dot_last by done.
    pose proof (len_nonneg a).
    destruct (Z.ltb_spec (-1) (len a)); [|lia].
    replace (-1 + 1) with 0 by lia.
    rewrite slice_prefix, slice_to_app.
    rewrite (existsb_negb_forallb (fun c => N.eqb c extsep)).
    unfold extsep. by destruct (forallb (fun c => (c =? 46)%N) a).
Qed.

Lemma get_json_filename_basename p :
  get_json_filename (basename p) = get_json_filename p.
Proof. unfold get_json_filename. by rewrite basename_idempotent. Qed.

End PathFacts.

(** C7.  The output file name depends on the base name of the image
    path only: it is the file name without its extension followed by
    [.json]; two paths with the same base name get the same output
    name, whatever their directories, and so does the base name joined
    to any directory. *)
Theorem get_json_filename_of_basename (p q d : str) :
  posixpath.basename q = posixpath.basename p ->
  get_json_filename p = without_extension (posixpath.basename p) ++ py ".json"
  /\ get_json_filename q = get_json_filename p
  /\ get_json_filename (posixpath.join d (posixpath.basename p))
     = get_json_filename p.
Proof.
  intros Hpq. split; [|split].
  - unfold get_json_filename.
    by rewrite splitext_without_extension by apply basename_no_sep.
  - unfold get_json_filename. by rewrite Hpq.
  - unfold get_json_filename at 1.
    rewrite basename_join by apply basename_no_sep. done.
Qed.

Lemma get_json_filename_of_basename_witness :
  get_json_filename (py "scans/2024/receipt.jpg") = py "receipt.json"
  /\ get_json_filename (py "/tmp/receipt.jpg")
     = get_json_filename (py "scans/2024/receipt.jpg").
Proof.
  destruct (get_json_filename_of_basename
              (py "scans/2024/receipt.jpg") (py "/tmp/receipt.jpg") (py "out")
              eq_refl) as (H1 & H2 & _).
  split; [exact H1 | exact H2].
Defined.

(** ** The masked display of the key *)

Section MaskFacts.

Import manage_api_key.

(** The masking of the source is the display the specification
    describes, character by character. *)
Lemma mask_shown key : mask key = shown_masked key.
Proof.
  apply list_eq. intros i. unfold shown_masked.
  rewrite list_lookup_imap.
  unfold mask, slice, clamp, times, len. simpl.
  set (n := length key).
  destruct (Z.ltb_spec 8 (Z.of_nat n)) as [Hn|Hn]; simpl.
  - rewrite Z.min_l by lia. rewrite Z.max_r by lia.
    rewrite Z.sub_0_r. rewrite drop_0.
    replace (Z.to_nat (Z.of_nat n - (Z.of_nat n + -4))) with 4%nat by lia.
    replace (Z.to_nat (Z.of_nat n + -4)) with (n - 4)%nat by lia.
    replace (Z.to_nat (Z.of_nat n - 8)) with (n - 8)%nat by lia.
    replace (Z.to_nat 4) with 4%nat by lia.
    rewrite (take_ge (drop (n - 4) key)) by (rewrite length_drop; lia).
    destruct (Z.ltb_spec (Z.of_nat i) 4) as [Hi|Hi]; simpl.
    + rewrite lookup_app_l by (rewrite length_take; lia).
      rewrite lookup_take_lt by lia. by destruct (key !! i).
    + rewrite lookup_app_r by (rewrite length_take; lia).
      rewrite length_take. replace (4 `min` length key)%nat with 4%nat by lia.
      destruct (Z.leb_spec (Z.of_nat n - 4) (Z.of_nat i)) as [Hj|Hj].
      * rewrite lookup_app_r by (rewrite length_replicate; lia).
        rewrite length_replicate, lookup_drop.
        replace (n - 4 + (i - 4 - (n - 8)))%nat with i by lia.
        by destruct (key !! i).
      * rewrite lookup_app_l by (rewrite length_replicate; lia).
        rewrite lookup_replicate_2 by lia.
        destruct (key !! i) eqn:Hk; [done|].
        apply lookup_ge_None in Hk. lia.
  - destruct (lt_dec i n) as [Hi|Hi].
    + rewrite lookup_replicate_2 by lia.
      destruct (key !! i) eqn:Hk; [done|].
      apply lookup_ge_None in Hk. lia.
    + rewrite (lookup_ge_None_2 key) by lia. simpl.
      apply lookup_ge_None_2. rewrite length_replicate. lia.
Qed.

Lemma view_env_lines_skip before rest :
  Forall (fun l => startswith l (py "GROQ_API_KEY=") = false) before ->
  view_env_lines (before ++ rest) = view_env_lines rest.
Proof.
  induction 1 as [|l before Hl _ IH]; [done|]. simpl.
  rewrite Hl. exact IH.
Qed.

Lemma view_env_lines_none lines :
  Forall (fun l => startswith l (py "GROQ_API_KEY=") = false) lines ->
  view_env_lines lines = None.
Proof.
  intros Hl. rewrite <- (app_nil_r lines). by rewrite view_env_lines_skip.
Qed.

End MaskFacts.

(** C9.  What [view_api_key] prints for a stored value is its label
    followed by the value with the first four and the last four
    characters shown and a star for each one between, when the value
    is longer than eight characters, and by one star per character
    otherwise. *)
Theorem view_api_key_masks (e : manage_api_key.Env) (label key : str) :
  stored_value e label key ->
  manage_api_key.view_api_key e = Val (label ++ shown_masked key).
Proof.
  intros [before after line key' Hfile Hbefore Hline Hstrip
         | key' Hfile Henv Hkey]; unfold manage_api_key.view_api_key.
  - rewrite Hfile, view_env_lines_skip by done. simpl.
    rewrite Hline, Hstrip. rewrite <- mask_shown. reflexivity.
  - rewrite Henv. destruct key' as [|c k]; [done|].
    rewrite <- mask_shown.
    destruct (manage_api_key.env_file e) as [lines|]; [|done].
    by rewrite view_env_lines_none.
Qed.

Lemma view_api_key_masks_witness :
  manage_api_key.view_api_key
    {| manage_api_key.env_file :=
         Some [py "MODE=batch"; py "GROQ_API_KEY=gsk_0123456789abcdef  "];
       manage_api_key.os_environ := ∅ |}
  = Val (py "Current API key (.env): gsk_************cdef")
  /\ manage_api_key.view_api_key
       {| manage_api_key.env_file := None;
          manage_api_key.os_environ := {[ GROQ_API_KEY := py "12345678" ]} |}
     = Val (py "Current API key (environment): ********").
Proof.
  split.
  - refine (view_api_key_masks _ (py "Current API key (.env): ")
              (py "gsk_0123456789abcdef") _).
    apply (stored_in_file _ [py "MODE=batch"] []
             (py "GROQ_API_KEY=gsk_0123456789abcdef  "));
      [reflexivity | | reflexivity | reflexivity].
    repeat constructor.
  - refine (view_api_key_masks _ (py "Current API key (environment): ")
              (py "12345678") _).
    apply stored_in_environment; [exact I | reflexivity | discriminate].
Defined.

(** ** Running the extraction *)

(** Steps of a computation, unfolded. *)
Lemma bind_run {A B : Type} (c : M A) (f : A -> M B) (w : World) :
  (c ≫= f) w
  = match c w with
    | (Val a, w') => f a w'
    | (Raise e, w') => (Raise e, w')
    end.
Proof. reflexivity. Qed.

Lemma bind_val {A B : Type} (c : M A) (f : A -> M B) (w w' : World) (a : A) :
  c w = (Val a, w') -> (c ≫= f) w = f a w'.
Proof. intros Hc. rewrite bind_run, Hc. done. Qed.

Lemma bind_raise {A B : Type} (c : M A) (f : A -> M B) (w w' : World) e :
  c w = (Raise e, w') -> (c ≫= f) w = (Raise e, w').
Proof. intros Hc. rewrite bind_run, Hc. done. Qed.

(** Reading a field of a world that was built by updates. *)
Ltac world_fields :=
  unfold after_error, after_call in *;
  unfold set_stdout, set_outputs, set_calls, set_environ in *;
  cbn [stdout calls outputs environ service read_bytes write_error scandir
       argv dotenv path_exists] in *.

Section ExtractFacts.

Context `{JsonCodec}.

(** With a key and a readable image, [extract_receipt_data] sends one
    request and returns: the value recovered from the answer, or
    [None] after logging the exception of the service call or of the
    recovery. *)
Lemma extract_receipt_data_run (image_path : str) (api_key : option str)
  (key : str) (data : list Byte.byte) (w : World) :
  or_else api_key (environ w !! GROQ_API_KEY) = Some key ->
  read_bytes w image_path = Val data ->
  extract_receipt_data image_path api_key w
  = let rq := request_for key data in
    match response_outcome (service w (calls w) rq) with
    | Val v => (Val v, after_call rq w)
    | Raise e => (Val JNull, after_error image_path e (after_call rq w))
    end.
Proof.
  intros Hkey Hread. unfold extract_receipt_data.
  rewrite bind_run. unfold environ_get at 1, get at 1. cbv beta.
  rewrite Hkey. rewrite bind_run. simpl Groq. unfold mret at 1, M_ret at 1.
  rewrite bind_run. unfold encode_image. rewrite bind_run, Hread.
  unfold mret at 1, M_ret at 1. cbv beta iota.
  unfold try_except, response_outcome, request_for.
  rewrite bind_run. unfold chat_completions_create at 1.
  fold (after_call
          (extraction_request key
             (create_extraction_prompt system_prompt json_schema)
             (base64.b64encode data)) w).
  destruct (service w (calls w) _) as [choices|e]; simpl; [|done].
  rewrite bind_run. unfold lift at 1.
  destruct (first_choice choices) as [content|e]; simpl; [|done].
  rewrite bind_run. unfold lift at 1.
  destruct (parse_response content) as [v|e]; simpl; done.
Qed.

(** Without any key the client cannot be made: the function raises
    before the image is read or a request is sent. *)
Lemma extract_receipt_data_no_key (image_path : str) (api_key : option str)
  (w : World) :
  or_else api_key (environ w !! GROQ_API_KEY) = None ->
  exists msg, extract_receipt_data image_path api_key w
              = (Raise (GroqError msg), w).
Proof.
  intros Hkey. unfold extract_receipt_data.
  rewrite bind_run. unfold environ_get at 1, get at 1. cbv beta.
  rewrite Hkey. eexists. reflexivity.
Qed.

(** An unreadable image makes the function raise: the reading is not
    inside the [try]. *)
Lemma extract_receipt_data_unreadable (image_path : str)
  (api_key : option str) (key : str) (e : exn) (w : World) :
  or_else api_key (environ w !! GROQ_API_KEY) = Some key ->
  read_bytes w image_path = Raise e ->
  extract_receipt_data image_path api_key w = (Raise e, w).
Proof.
  intros Hkey Hread. unfold extract_receipt_data.
  rewrite bind_run. unfold environ_get at 1, get at 1. cbv beta.
  rewrite Hkey. rewrite bind_run. simpl Groq. unfold mret at 1, M_ret at 1.
  rewrite bind_run. unfold encode_image. rewrite bind_run, Hread.
  reflexivity.
Qed.

End ExtractFacts.

(** ** Recovering the record from the response *)

Section BraceFacts.

Implicit Types (text a m b : str).

Lemma rfind_lt c text : rfind c text < len text.
Proof.
  destruct (split_at_last c text) as [Hc | (x & y & -> & Hy)].
  - rewrite rfind_absent by done. pose proof (len_nonneg text). lia.
  - rewrite rfind_last by done. rewrite len_app.
    unfold len. simpl length. lia.
Qed.

Lemma slice_middle a m b :
  slice (a ++ m ++ b) (Some (len a)) (Some (len a + len m)) = m.
Proof.
  unfold slice, clamp. rewrite !len_app.
  pose proof (len_nonneg a). pose proof (len_nonneg m).
  pose proof (len_nonneg b).
  destruct (Z.ltb_spec (len a) 0); [lia|].
  destruct (Z.ltb_spec (len a + len m) 0); [lia|].
  rewrite !Z.min_l by lia.
  replace (len a + len m - len a) with (len m) by lia.
  unfold len. rewrite !Nat2Z.id. rewrite drop_app_length.
  apply take_app_length.
Qed.

(** The regular expression finds the span from the first opening
    brace to the last closing brace. *)
Lemma re_search_braces_span a m b :
  123%N ∉ a -> 125%N ∉ b ->
  re_search_braces (a ++ 123%N :: m ++ 125%N :: b)
  = Some (123%N :: m ++ [125%N]).
Proof.
  intros Ha Hb.
  pose proof (len_nonneg a). pose proof (len_nonneg m).
  assert (Hfind : find 123%N (a ++ 123%N :: m ++ 125%N :: b) = len a)
    by (by apply find_first).
  assert (Hrfind : rfind 125%N (a ++ 123%N :: m ++ 125%N :: b)
                   = len a + (1 + len m)).
  { replace (a ++ 123%N :: m ++ 125%N :: b)
      with ((a ++ 123%N :: m) ++ 125%N :: b)
      by (by rewrite <- app_assoc).
    rewrite rfind_last by done. rewrite len_app.
    unfold len. simpl length. lia. }
  unfold re_search_braces. rewrite Hfind, Hrfind.
  destruct (Z.leb_spec 0 (len a)); [|lia].
  destruct (Z.ltb_spec (len a) (len a + (1 + len m))); [|lia]. simpl.
  f_equal.
  replace (a ++ 123%N :: m ++ 125%N :: b)
    with (a ++ (123%N :: m ++ [125%N]) ++ b)
    by (simpl; by rewrite <- app_assoc).
  replace (len a + (1 + len m) + 1) with (len a + len (123%N :: m ++ [125%N])).
  - apply slice_middle.
  - unfold len. simpl length. rewrite length_app. simpl. lia.
Qed.

Lemma re_search_braces_none text :
  (forall before inside after : str,
     text <> before ++ 123%N :: inside ++ 125%N :: after) ->
  re_search_braces text = None.
Proof.
  intros Hno. unfold re_search_braces.
  destruct (split_at_first 123%N text) as [Hc | (a & r & -> & Ha)].
  - rewrite find_absent by done. reflexivity.
  - rewrite find_first by done.
    destruct (split_at_last 125%N r) as [Hr | (m & b & -> & Hb)].
    + unfold rfind. rewrite rfind_from_app.
      rewrite rfind_from_absent.
      * pose proof (rfind_lt 125%N a) as Hlt. unfold rfind in Hlt.
        destruct (Z.ltb_spec (len a) (rfind_from 125%N a 0 (-1))); [lia|].
        by rewrite andb_false_r.
      * apply not_elem_of_cons. split; [discriminate | done].
    + exfalso. by apply (Hno a m b).
Qed.

(** A text has a brace-delimited span, between its first opening and
    its last closing brace, or none at all. *)
Lemma brace_span_cases text :
  (exists a m b, text = a ++ 123%N :: m ++ 125%N :: b
                 /\ (123%N ∉ a) /\ (125%N ∉ b))
  \/ (forall before inside after : str,
        text <> before ++ 123%N :: inside ++ 125%N :: after).
Proof.
  destruct (split_at_first 123%N text) as [Hc | (a & r & -> & Ha)].
  - right. intros before inside after ->. apply Hc.
    apply elem_of_app. right. apply elem_of_cons. by left.
  - destruct (split_at_last 125%N r) as [Hr | (m & b & -> & Hb)].
    + right. intros before inside after Heq. apply Hr.
      apply app_eq_inv in Heq as [(k & Hk1 & Hk2) | (k & Hk1 & Hk2)].
      * destruct k as [|x k]; simpl in Hk2.
        -- injection Hk2 as <-. apply elem_of_app. right.
           apply elem_of_cons. by left.
        -- injection Hk2 as <- _. exfalso. apply Ha. rewrite Hk1.
           apply elem_of_app. right. apply elem_of_cons. by left.
      * destruct k as [|x k]; simpl in Hk2.
        -- injection Hk2 as ->. apply elem_of_app. right.
           apply elem_of_cons. by left.
        -- injection Hk2 as _ ->. apply elem_of_app. right.
           apply elem_of_cons. right. apply elem_of_app. right.
           apply elem_of_cons. by left.
    + left. by exists a, m, b.
Qed.

End BraceFacts.

(** The recovery goes through its stages for every text. *)
Lemma parse_response_recovers `{JsonCodec} (text : str) :
  recovers text (parse_response (Some text)).
Proof.
  unfold parse_response, try_res, json_loads.
  destruct (loads text) as [v|e] eqn:Hloads.
  - by apply recovers_whole.
  - destruct (is_JSONDecodeError e) eqn:Hkind.
    + destruct e as [msg| | | | | |]; try discriminate.
      destruct (brace_span_cases text)
        as [(a & m & b & Htext & Ha & Hb) | Hno].
      * subst text. rewrite re_search_braces_span by done.
        by apply (recovers_span _ msg a m b).
      * rewrite re_search_braces_none by done.
        by apply (recovers_no_span text msg).
    + by apply recovers_other.
Qed.

(** C2, as the code has it.  For every raw response text: when the
    whole text parses, its value is the result, object or not; when
    it fails with a decoding error, the result is that of parsing the
    span from the first opening brace to the last closing brace, and
    a [ValueError] when there is no such span.  A failure does not
    leave [extract_receipt_data] as an error that carries the raw
    text: its message is printed after the path of the image, and
    [None] is returned. *)
Theorem parse_response_stages `{JsonCodec} (text image_path : str)
  (api_key : option str) (key : str) (data : list Byte.byte) (w : World) :
  or_else api_key (environ w !! GROQ_API_KEY) = Some key ->
  read_bytes w image_path = Val data ->
  service w (calls w) (request_for key data) = Val [Some text] ->
  recovers text (parse_response (Some text))
  /\ extract_receipt_data image_path api_key w
     = match parse_response (Some text) with
       | Val v => (Val v, after_call (request_for key data) w)
       | Raise e =>
           (Val JNull,
            after_error image_path e (after_call (request_for key data) w))
       end.
Proof.
  intros Hkey Hread Hservice. split.
  - apply parse_response_recovers.
  - rewrite (extract_receipt_data_run _ _ key data) by done.
    cbv zeta. rewrite Hservice. reflexivity.
Qed.

Lemma parse_response_stages_witness :
  let text := py "Sorry, I cannot process this image." in
  let w := sample_world [py "receipt_extractor.py"] None
             {[ GROQ_API_KEY := py "gsk_test" ]} [py "receipt.jpg"] [] []
             [Val [Some text]] in
  @recovers reference_codec text
    (Raise (ValueError (py "Could not find valid JSON in the response")))
  /\ fst (@extract_receipt_data reference_codec (py "receipt.jpg") None w)
     = Val JNull
  /\ stdout (snd (@extract_receipt_data reference_codec (py "receipt.jpg")
                    None w))
     = [py "Error processing receipt.jpg: Could not find valid JSON in the response"].
Proof.
  intros text w.
  destruct (@parse_response_stages reference_codec text (py "receipt.jpg")
              None (py "gsk_test") sample_image w)
    as [Hstages Hrun].
  - vm_compute. reflexivity.
  - vm_compute. reflexivity.
  - reflexivity.
  - split; [exact Hstages|]. rewrite Hrun. split; reflexivity.
Defined.

(** C2, as the specification words it, fails: a text that parses to
    something other than an object is returned as it is, and the
    error for a text without braces does not carry the text. *)
Lemma parse_response_not_spec_recover :
  @parse_response reference_codec (Some (py "42"))
  <> @spec_recover reference_codec (py "42")
  /\ @parse_response reference_codec (Some (py "42")) = Val (JInt 42)
  /\ @parse_response reference_codec
       (Some (py "Sorry, I cannot process this image."))
     = Raise (ValueError (py "Could not find valid JSON in the response"))
  /\ @spec_recover reference_codec (py "Sorry, I cannot process this image.")
     = Raise (ExtractionFormatError
                (py "Sorry, I cannot process this image.")).
Proof.
  split; [|split; [|split]].
  - vm_compute. discriminate.
  - vm_compute. reflexivity.
  - vm_compute. reflexivity.
  - vm_compute. reflexivity.
Qed.

(** C3.  A response text that parses is recovered as the value of
    parsing it, and that value is what [extract_receipt_data]
    returns. *)
Theorem recovery_round_trip `{JsonCodec} (text : str) (v : value)
  (image_path : str) (api_key : option str) (key : str)
  (data : list Byte.byte) (w : World) :
  loads text = Val v ->
  or_else api_key (environ w !! GROQ_API_KEY) = Some key ->
  read_bytes w image_path = Val data ->
  service w (calls w) (request_for key data) = Val [Some text] ->
  parse_response (Some text) = loads text
  /\ extract_receipt_data image_path api_key w
     = (Val v, after_call (request_for key data) w).
Proof.
  intros Hloads Hkey Hread Hservice.
  assert (Hparse : parse_response (Some text) = loads text).
  { unfold parse_response, try_res, json_loads. by rewrite Hloads. }
  split; [exact Hparse|].
  rewrite (extract_receipt_data_run _ _ key data) by done.
  cbv zeta. rewrite Hservice. unfold response_outcome. simpl.
  rewrite Hparse, Hloads. reflexivity.
Qed.

Lemma recovery_round_trip_witness :
  let w := sample_world [py "receipt_extractor.py"] None
             {[ GROQ_API_KEY := py "gsk_test" ]} [py "receipt.jpg"] [] []
             [Val [Some sample_response]] in
  @loads reference_codec sample_response = Val sample_record
  /\ @extract_receipt_data reference_codec (py "receipt.jpg") None w
     = (Val sample_record,
        after_call (@request_for reference_codec (py "gsk_test") sample_image)
          w).
Proof.
  intros w. split; [vm_compute; reflexivity|].
  apply (@recovery_round_trip reference_codec sample_response sample_record
           (py "receipt.jpg") None (py "gsk_test") sample_image w).
  - vm_compute. reflexivity.
  - vm_compute. reflexivity.
  - vm_compute. reflexivity.
  - reflexivity.
Defined.

(** ** The batch *)

Section BatchFacts.

Context `{JsonCodec}.

Lemma print_run (s : str) (w : World) :
  print s w = (Val tt, set_stdout (fun out => out ++ [s]) w).
Proof. reflexivity. Qed.

Lemma json_dump_saved (path : str) (v : value) (w : World) :
  write_error w path = None ->
  dump_error v = None ->
  encodable (dumps (Some 2%nat) false v) = true ->
  json_dump path v w
  = (Val tt,
     set_outputs
       (fun o => <[path := Whole (dumps (Some 2%nat) false v)]> o) w).
Proof.
  intros Hwrite Hdump Hutf8. unfold json_dump, write_text.
  by rewrite Hwrite, Hdump, Hutf8.
Qed.

Lemma print_json_run (v : value) (w : World) :
  dumps_error v = None ->
  print_json v w
  = (Val tt, set_stdout (fun out => out ++ [dumps (Some 2%nat) true v]) w).
Proof. intros Hdumps. unfold print_json. by rewrite Hdumps. Qed.

(** One turn of the loop of [process_all_receipts] on a readable
    image: the value recovered, when it counts as true, is written
    and counted; anything else leaves the count as it is, and the
    loop goes on. *)
Lemma process_images_step (image_path : str) (rest : list str) (n : Z)
  (key : str) (data : list Byte.byte) (w : World) :
  environ w !! GROQ_API_KEY = Some key ->
  read_bytes w image_path = Val data ->
  process_images (image_path :: rest) n w
  = let rq := request_for key data in
    let w1 :=
      after_call rq
        (set_stdout (fun out => out ++ [processing_line image_path]) w) in
    match response_outcome (service w (calls w) rq) with
    | Val v =>
        if truthy v then
          (json_dump (get_json_filename image_path) v;;
           print ([check_mark] ++ py " Successfully extracted data from "
                  ++ posixpath.basename image_path);;
           print (py "   Saved to: " ++ get_json_filename image_path);;
           print_json v;;
           process_images rest (n + 1)) w1
        else
          process_images rest n
            (set_stdout (fun out => out ++ [failed_line image_path]) w1)
    | Raise e =>
        process_images rest n
          (set_stdout (fun out => out ++ [failed_line image_path])
             (after_error image_path e w1))
    end.
Proof.
  intros Hkey Hread. cbn [process_images].
  rewrite bind_run, print_run. rewrite bind_run.
  rewrite (extract_receipt_data_run _ None key data); [| by simpl; rewrite Hkey | done].
  cbv zeta. cbn [calls service set_stdout].
  destruct (response_outcome _) as [v|e].
  - destruct (truthy v); [reflexivity|].
    rewrite bind_run, print_run. reflexivity.
  - cbn [truthy]. rewrite bind_run, print_run. reflexivity.
Qed.

End BatchFacts.

(** C10.  When the recovery yields the empty object, no file is
    written for the image and the attempt counts as a failure: the
    batch prints the failure line and goes on with the count
    unchanged, and the run on a single file reports that the
    extraction failed. *)
Theorem empty_record_is_a_failure `{JsonCodec} (image_path : str)
  (rest : list str) (n : Z) (key : str) (data : list Byte.byte) (w : World) :
  environ w !! GROQ_API_KEY = Some key ->
  key <> [] ->
  read_bytes w image_path = Val data ->
  response_outcome (service w (calls w) (request_for key data))
  = Val (JObject []) ->
  let rq := request_for key data in
  let w_batch :=
    set_stdout (fun out => out ++ [failed_line image_path])
      (after_call rq
         (set_stdout (fun out => out ++ [processing_line image_path]) w)) in
  let w_single :=
    set_stdout (fun out => out ++ [py "Failed to extract data"])
      (after_call rq
         (set_stdout
            (fun out => out ++ [py "Processing single file: " ++ image_path])
            w)) in
  process_images (image_path :: rest) n w = process_images rest n w_batch
  /\ outputs w_batch = outputs w
  /\ (forall prog more,
        argv w = prog :: image_path :: more ->
        path_exists w image_path = true ->
        main w = (Val tt, w_single) /\ outputs w_single = outputs w).
Proof.
  intros Hkey Hnonempty Hread Houtcome rq w_batch w_single.
  subst rq w_batch w_single.
  split; [|split].
  - rewrite (process_images_step _ _ _ key data) by done.
    cbv zeta. rewrite Houtcome. reflexivity.
  - reflexivity.
  - intros prog more Hargv Hexists. split; [|reflexivity].
    unfold main. rewrite bind_run. unfold environ_get at 1, get at 1.
    cbv beta. rewrite Hkey.
    destruct key as [|c key]; [done|]. cbn [is_set negb].
    rewrite bind_run. unfold get at 1. rewrite Hargv. cbv beta iota.
    rewrite bind_run. unfold get at 1. rewrite Hexists. cbv beta iota.
    rewrite bind_run, print_run. rewrite bind_run.
    rewrite (extract_receipt_data_run _ None (c :: key) data);
      [| by simpl; rewrite Hkey | done].
    cbv zeta. simpl (service _). simpl (calls (set_stdout _ _)).
    rewrite Houtcome. reflexivity.
Qed.

Lemma empty_record_is_a_failure_witness :
  let w := sample_world [py "receipt_extractor.py"; py "receipt.jpg"] None
             {[ GROQ_API_KEY := py "gsk_test" ]} [py "receipt.jpg"] [] []
             [Val [Some (py "{}")]] in
  @process_images reference_codec [py "receipt.jpg"] 0 w
  = (Val 0,
     set_stdout (fun out => out ++ [failed_line (py "receipt.jpg")])
       (after_call (@request_for reference_codec (py "gsk_test") sample_image)
          (set_stdout
             (fun out => out ++ [processing_line (py "receipt.jpg")]) w)))
  /\ fst (@main reference_codec w) = Val tt
  /\ outputs (snd (@main reference_codec w)) = ∅.
Proof.
  intros w.
  destruct (@empty_record_is_a_failure reference_codec (py "receipt.jpg") []
              0 (py "gsk_test") sample_image w)
    as (Hbatch & _ & Hsingle).
  - vm_compute. reflexivity.
  - discriminate.
  - vm_compute. reflexivity.
  - vm_compute. reflexivity.
  - split; [exact Hbatch|].
    destruct (Hsingle (py "receipt_extractor.py") []) as [Hmain Hout].
    + reflexivity.
    + reflexivity.
    + rewrite Hmain. split; [reflexivity | exact Hout].
Defined.

Section BatchCompletion.

Context `{JsonCodec}.

Lemma successes_cons (o : Res value) (l : list (Res value)) :
  successes (o :: l) = (if succeeded o then 1 else 0) + successes l.
Proof.
  unfold successes. simpl. destruct (succeeded o); simpl length; lia.
Qed.

Lemma successes_bounds (l : list (Res value)) :
  0 <= successes l <= Z.of_nat (length l).
Proof.
  induction l as [|o l IH]; [by unfold successes|].
  rewrite successes_cons. simpl length. destruct (succeeded o); lia.
Qed.

Lemma attempts_length service image key history files :
  length (attempts service image key history files) = length files.
Proof.
  revert history. induction files as [|p files IH]; intros history; [done|].
  simpl. by rewrite IH.
Qed.

(** The loop over readable images whose output files can be opened
    and whose records can be saved ends normally: every image is
    tried once, the count grows by the number of attempts that
    succeeded, and the exception of every other attempt is logged. *)
Lemma process_images_run (image : str -> list Byte.byte) (key : str)
  (image_files : list str) :
  forall (n : Z) (w : World),
    environ w !! GROQ_API_KEY = Some key ->
    (forall p, p ∈ image_files -> read_bytes w p = Val (image p)) ->
    (forall p, p ∈ image_files -> write_error w (get_json_filename p) = None) ->
    (forall i v,
       attempts (service w) image key (calls w) image_files !! i
       = Some (Val v) ->
       truthy v = true ->
       can_be_saved v) ->
    exists (w' : World) (printed : list str),
      process_images image_files n w
      = (Val (n + successes
                    (attempts (service w) image key (calls w) image_files)),
         w')
      /\ length (calls w') = (length (calls w) + length image_files)%nat
      /\ stdout w' = stdout w ++ printed
      /\ (forall i p e,
            image_files !! i = Some p ->
            attempts (service w) image key (calls w) image_files !! i
            = Some (Raise e) ->
            error_line p e ∈ printed).
Proof.
  induction image_files as [|p rest IH]; intros n w Hkey Hread Hwrite Henc.
  - exists w, []. split; [|split; [|split]].
    + cbn [process_images attempts]. unfold mret, M_ret, successes.
      simpl. f_equal. f_equal. lia.
    + simpl. lia.
    + by rewrite app_nil_r.
    + intros i q e Hq. by rewrite lookup_nil in Hq.
  - assert (Hp : read_bytes w p = Val (image p))
      by (apply Hread; apply elem_of_cons; by left).
    assert (Hwp : write_error w (get_json_filename p) = None)
      by (apply Hwrite; apply elem_of_cons; by left).
    assert (Hread' : forall q, q ∈ rest -> read_bytes w q = Val (image q))
      by (intros q Hq; apply Hread; apply elem_of_cons; by right).
    assert (Hwrite' :
              forall q, q ∈ rest -> write_error w (get_json_filename q) = None)
      by (intros q Hq; apply Hwrite; apply elem_of_cons; by right).
    rewrite (process_images_step _ _ _ key (image p)) by done.
    cbv zeta. cbn [attempts]. rewrite successes_cons.
    set (rq := request_for key (image p)).
    set (w1 := after_call rq
                 (set_stdout (fun out => out ++ [processing_line p]) w)).
    assert (Hhead : attempts (service w) image key (calls w) (p :: rest)
                    !! 0%nat
                    = Some (response_outcome (service w (calls w) rq)))
      by reflexivity.
    destruct (response_outcome (service w (calls w) rq)) as [v|e] eqn:Hout.
    + pose proof Hhead as Hout0.
      cbn [succeeded]. destruct (truthy v) eqn:Hv.
      * destruct (Henc 0%nat v Hout0 Hv) as (Hdump & Hdumps & Hutf8).
        rewrite bind_run, (json_dump_saved _ v w1 Hwp Hdump Hutf8).
        repeat (rewrite bind_run, print_run).
        rewrite bind_run, (print_json_run v _ Hdumps).
        match goal with
        | |- context [process_images rest (n + 1) ?w2] =>
            destruct (IH (n + 1) w2 Hkey Hread' Hwrite'
                        (fun i v' => Henc (S i) v'))
              as (w' & printed & Hrun & Hcalls & Hstdout & Hlog)
        end.
        exists w'.
        exists ([processing_line p;
                 [check_mark] ++ py " Successfully extracted data from "
                 ++ posixpath.basename p;
                 py "   Saved to: " ++ get_json_filename p;
                 dumps (Some 2%nat) true v] ++ printed).
        subst w1. world_fields.
        split; [|split; [|split]].
        -- rewrite Hrun. do 2 f_equal; lia.
        -- rewrite Hcalls. rewrite length_app. simpl. lia.
        -- rewrite Hstdout. by rewrite <- !app_assoc.
        -- intros [|i] q e' Hq Hatt; simpl in Hq, Hatt.
           ++ congruence.
           ++ apply elem_of_app. right. by apply (Hlog i q e').
      * match goal with
        | |- context [process_images rest n ?w2] =>
            destruct (IH n w2 Hkey Hread' Hwrite'
                        (fun i v' => Henc (S i) v'))
              as (w' & printed & Hrun & Hcalls & Hstdout & Hlog)
        end.
        exists w', ([processing_line p; failed_line p] ++ printed).
        subst w1. world_fields.
        split; [|split; [|split]].
        -- rewrite Hrun. do 2 f_equal; lia.
        -- rewrite Hcalls. rewrite length_app. simpl. lia.
        -- rewrite Hstdout. by rewrite <- !app_assoc.
        -- intros [|i] q e' Hq Hatt; simpl in Hq, Hatt.
           ++ congruence.
           ++ apply elem_of_app. right. by apply (Hlog i q e').
    + cbn [succeeded].
      match goal with
      | |- context [process_images rest n ?w2] =>
          destruct (IH n w2 Hkey Hread' Hwrite'
                      (fun i v' => Henc (S i) v'))
            as (w' & printed & Hrun & Hcalls & Hstdout & Hlog)
      end.
      exists w', ([processing_line p; error_line p e; failed_line p] ++ printed).
      subst w1. world_fields.
      split; [|split; [|split]].
      * rewrite Hrun. do 2 f_equal; lia.
      * rewrite Hcalls. rewrite length_app. simpl. lia.
      * rewrite Hstdout. by rewrite <- !app_assoc.
      * intros [|i] q e' Hq Hatt; simpl in Hq, Hatt.
        -- injection Hq as <-. injection Hatt as <-.
           apply elem_of_cons. right. apply elem_of_cons. by left.
        -- apply elem_of_app. right. by apply (Hlog i q e').
Qed.

Lemma find_image_files_run (directory : str) (extensions : list str)
  (w : World) :
  find_image_files directory extensions w
  = (Val (concat (List.map
                    (fun ext =>
                       glob.glob w (posixpath.join directory ext)
                       ++ glob.glob w (posixpath.join directory (upper ext)))
                    extensions)), w).
Proof.
  induction extensions as [|ext rest IH]; [done|].
  cbn [find_image_files]. rewrite bind_run. unfold get at 1.
  cbv beta iota. rewrite bind_run. unfold get at 1. cbv beta iota.
  rewrite bind_run, IH. unfold mret, M_ret. cbn [List.map concat].
  by rewrite <- app_assoc.
Qed.

End BatchCompletion.

Lemma last_two {A : Type} (l : list A) (x y : A) :
  last (l ++ [x; y]) = Some y.
Proof.
  replace (l ++ [x; y]) with ((l ++ [x]) ++ [y])
    by (by rewrite <- app_assoc).
  apply last_snoc.
Qed.

(** C1, as the code has it.  With a key in the environment, when the
    images found (in a directory named without wildcards) can be
    read, their output files can be opened for writing and every
    record recovered can be saved (the encoder returns on it, and its
    text can be encoded in UTF-8), the batch ends normally: every
    image found is tried once, in order; an
    exception of the service call or of the recovery is logged with
    the path of the image and its message, and the image is counted
    in the total of the summary but not among the successes. *)
Theorem batch_isolates_service_failures `{JsonCodec}
  (image : str -> list Byte.byte) (key directory : str) (w : World) :
  glob.has_magic directory = false ->
  environ w !! GROQ_API_KEY = Some key ->
  (forall p, p ∈ discovered w directory -> read_bytes w p = Val (image p)) ->
  (forall p, p ∈ discovered w directory ->
             write_error w (get_json_filename p) = None) ->
  (forall i v,
     attempts (service w) image key (calls w) (discovered w directory) !! i
     = Some (Val v) ->
     truthy v = true ->
     can_be_saved v) ->
  let image_files := discovered w directory in
  let outcomes := attempts (service w) image key (calls w) image_files in
  exists (w' : World) (printed : list str),
    process_all_receipts directory w = (Val tt, w')
    /\ length (calls w') = (length (calls w) + length image_files)%nat
    /\ stdout w' = stdout w ++ printed
    /\ (image_files <> [] ->
        last printed
        = Some (summary_line (successes outcomes)
                  (Z.of_nat (length image_files))))
    /\ (forall i p e,
          image_files !! i = Some p ->
          outcomes !! i = Some (Raise e) ->
          error_line p e ∈ printed).
Proof.
  intros _ Hkey Hread Hwrite Henc. cbv zeta.
  unfold process_all_receipts. rewrite bind_run, find_image_files_run.
  fold (discovered w directory).
  remember (discovered w directory) as image_files eqn:Hfiles.
  destruct image_files as [|p rest].
  - exists (set_stdout
              (fun out => out ++ [py "No image files found in " ++ directory])
              w),
      [py "No image files found in " ++ directory].
    split; [reflexivity|]. split; [simpl; lia|]. split; [reflexivity|].
    split; [done|]. intros i q e Hq. by rewrite lookup_nil in Hq.
  - cbv iota. set (image_files := p :: rest) in *.
    rewrite bind_run, print_run. rewrite bind_run.
    match goal with
    | |- context [process_images image_files 0 ?w1] =>
        destruct (process_images_run image key image_files 0 w1 Hkey
                    Hread Hwrite Henc)
          as (w2 & printed & Hrun & Hcalls & Hstdout & Hlog)
    end.
    rewrite Hrun. repeat (rewrite bind_run, print_run). rewrite print_run.
    eexists. exists
      ([py "Found " ++ str_of_Z (Z.of_nat (length image_files))
        ++ py " image(s) to process"] ++ printed
       ++ [[10%N] ++ times 61%N 50;
           summary_line
             (successes
                (attempts (service w) image key (calls w) image_files))
             (Z.of_nat (length image_files))]).
    world_fields.
    split; [reflexivity|]. cbn [stdout calls].
    split; [exact Hcalls|].
    split; [rewrite Hstdout; rewrite <- !app_assoc; reflexivity|].
    split.
    + intros _. rewrite app_assoc. apply last_two.
    + intros i q e Hq Hatt. apply elem_of_app. right.
      apply elem_of_app. left. by apply (Hlog i q e).
Qed.

Lemma batch_isolates_service_failures_witness :
  let w := sample_world [py "receipt_extractor.py"] None
             {[ GROQ_API_KEY := py "gsk_test" ]}
             [py "a.jpg"; py "b.jpg"; py "c.png"] [] []
             [Val [Some sample_response];
              Raise (OtherException (py "RateLimitError") (py "Error code: 429"));
              Val [Some sample_response]] in
  exists w',
    @process_all_receipts reference_codec (py ".") w = (Val tt, w')
    /\ length (calls w') = 3%nat
    /\ last (stdout w')
       = Some (py "Processing complete: 2/3 files processed successfully")
    /\ py "Error processing ./b.jpg: Error code: 429" ∈ stdout w'.
Proof.
  intros w.
  destruct (@batch_isolates_service_failures reference_codec
              (fun _ => sample_image) (py "gsk_test") (py ".") w)
    as (w' & printed & Hrun & Hcalls & Hstdout & Hlast & Hlog).
  - reflexivity.
  - vm_compute. reflexivity.
  - intros p Hp. vm_compute in Hp.
    repeat (apply elem_of_cons in Hp as [-> | Hp]; [vm_compute; reflexivity|]).
    by apply elem_of_nil in Hp.
  - intros p Hp. vm_compute in Hp.
    repeat (apply elem_of_cons in Hp as [-> | Hp]; [vm_compute; reflexivity|]).
    by apply elem_of_nil in Hp.
  - intros [|[|[|i]]] v Hi _; vm_compute in Hi; try discriminate;
      injection Hi as <-; repeat split; vm_compute; reflexivity.
  - exists w'. split; [exact Hrun|]. split; [exact Hcalls|].
    assert (Hout : stdout w' = printed) by exact Hstdout.
    rewrite Hout. split.
    + rewrite Hlast by (vm_compute; discriminate).
      vm_compute. reflexivity.
    + apply (Hlog 1%nat (py "./b.jpg")
               (OtherException (py "RateLimitError") (py "Error code: 429")));
        vm_compute; reflexivity.
Defined.

(** C1, as stated, fails: an output file that cannot be opened for
    writing, an image that cannot be read, or a record that cannot be
    encoded in UTF-8 (the service answered with a lone surrogate)
    ends the batch with the exception, and the images after it are
    not tried. *)
Lemma batch_stops_at_write_failure :
  let w := sample_world [py "receipt_extractor.py"] None
             {[ GROQ_API_KEY := py "gsk_test" ]}
             [py "a.jpg"; py "b.jpg"] [py "a.json"] []
             [Val [Some sample_response]; Val [Some sample_response]] in
  let w_unreadable :=
    sample_world [py "receipt_extractor.py"] None
      {[ GROQ_API_KEY := py "gsk_test" ]}
      [py "a.jpg"; py "b.jpg"] [] [py "./a.jpg"]
      [Val [Some sample_response]; Val [Some sample_response]] in
  let w_surrogate :=
    sample_world [py "receipt_extractor.py"] None
      {[ GROQ_API_KEY := py "gsk_test" ]}
      [py "a.jpg"; py "b.jpg"] [] []
      [Val [Some (refjson.dumps None true surrogate_record)];
       Val [Some sample_response]] in
  discovered w (py ".") = [py "./a.jpg"; py "./b.jpg"]
  /\ fst (@process_all_receipts reference_codec (py ".") w)
     = Raise (OSError (py "[Errno 13] Permission denied"))
  /\ length (calls (snd (@process_all_receipts reference_codec (py ".") w)))
     = 1%nat
  /\ stdout (snd (@process_all_receipts reference_codec (py ".") w))
     = [py "Found 2 image(s) to process";
        [10%N] ++ py "Processing: a.jpg"]
  /\ fst (@process_all_receipts reference_codec (py ".") w_unreadable)
     = Raise (OSError (py "[Errno 13] Permission denied"))
  /\ calls (snd (@process_all_receipts reference_codec (py ".") w_unreadable))
     = []
  /\ fst (@process_all_receipts reference_codec (py ".") w_surrogate)
     = Raise UnicodeEncodeError
  /\ length
       (calls (snd (@process_all_receipts reference_codec (py ".")
                      w_surrogate)))
     = 1%nat
  /\ stdout (snd (@process_all_receipts reference_codec (py ".") w_surrogate))
     = [py "Found 2 image(s) to process";
        [10%N] ++ py "Processing: a.jpg"].
Proof.
  intros w w_unreadable w_surrogate. repeat split; vm_compute; reflexivity.
Qed.

(** ** The prompt *)

(** C8.  Building the prompt is a function of the policy text and the
    schema alone: equal pairs give the same payload, character for
    character; and every request [extract_receipt_data] sends, in any
    state of the process and for any image, carries the payload built
    from the fixed policy and schema. *)
Theorem create_extraction_prompt_pure `{JsonCodec}
  (policy1 policy2 : str) (schema1 schema2 : value) :
  policy1 = policy2 ->
  schema1 = schema2 ->
  create_extraction_prompt policy1 schema1
  = create_extraction_prompt policy2 schema2
  /\ (forall (w : World) (image_path : str) (api_key : option str)
        (rq : request),
        rq ∈ calls (snd (extract_receipt_data image_path api_key w)) ->
        rq ∈ calls w
        \/ rq_prompt rq = create_extraction_prompt system_prompt json_schema).
Proof.
  intros -> ->. split; [reflexivity|].
  intros w image_path api_key rq.
  destruct (or_else api_key (environ w !! GROQ_API_KEY)) as [key|] eqn:Hkey.
  - destruct (read_bytes w image_path) as [data|e] eqn:Hread.
    + rewrite (extract_receipt_data_run _ _ key data) by done. cbv zeta.
      destruct (response_outcome _); cbn [snd]; world_fields;
        intros Hrq; apply elem_of_app in Hrq as [Hrq|Hrq];
        try (by left);
        apply list_elem_of_singleton in Hrq as ->; by right.
    + rewrite (extract_receipt_data_unreadable _ _ key e) by done.
      by left.
  - destruct (extract_receipt_data_no_key image_path api_key w Hkey)
      as [msg ->]. by left.
Qed.

Lemma create_extraction_prompt_pure_witness :
  @create_extraction_prompt reference_codec
    (py "Extract the total.") (JObject [(py "type", JString (py "object"))])
  = @create_extraction_prompt reference_codec
      (py "Extract " ++ py "the total.")
      (JObject ([] ++ [(py "type", JString (py "object"))])).
Proof.
  apply (@create_extraction_prompt_pure reference_codec); reflexivity.
Defined.

(** ** The credential *)

Section CredentialFacts.

Context `{JsonCodec}.

Lemma load_dotenv_run (w : World) :
  load_dotenv w
  = (Val tt,
     match dotenv w with
     | Some file => set_environ (fun env => env ∪ file) w
     | None => w
     end).
Proof. unfold load_dotenv, dotenv_load. by destruct (dotenv w). Qed.

(** After [load_dotenv()] the variable has its old value, or the
    file entry when it had none. *)
Lemma environ_after_load_dotenv (w : World) :
  environ (snd (load_dotenv w)) !! GROQ_API_KEY
  = match environ w !! GROQ_API_KEY with
    | Some v => Some v
    | None => file_entry w
    end.
Proof.
  rewrite load_dotenv_run. unfold file_entry. cbn [snd].
  destruct (dotenv w) as [file|]; cbn [mbind option_bind].
  - world_fields.
    destruct (environ w !! GROQ_API_KEY) as [v|] eqn:Henv.
    + by apply lookup_union_Some_l.
    + by rewrite lookup_union_r.
  - by destruct (environ w !! GROQ_API_KEY).
Qed.

(** With [override=True] the file entry would come first, as in the
    order of the specification. *)
Lemma environ_after_dotenv_override (w : World) :
  environ (snd (dotenv_load true w)) !! GROQ_API_KEY
  = match file_entry w with
    | Some v => Some v
    | None => environ w !! GROQ_API_KEY
    end.
Proof.
  unfold dotenv_load, file_entry.
  destruct (dotenv w) as [file|]; cbn [snd mbind option_bind]; [|done].
  world_fields.
  destruct (file !! GROQ_API_KEY) as [v|] eqn:Hfile.
  - by apply lookup_union_Some_l.
  - by rewrite lookup_union_r.
Qed.

Lemma or_else_resolved (override : option str) (w : World) :
  or_else override (environ (snd (load_dotenv w)) !! GROQ_API_KEY)
  = resolved_credential override w.
Proof.
  rewrite environ_after_load_dotenv. unfold or_else, resolved_credential.
  by destruct override as [[|c k]|].
Qed.

End CredentialFacts.

(** C4, as the code has it.  The credential of a job is the explicit
    override when one is given and not empty; otherwise the
    [GROQ_API_KEY] environment variable when it is set; otherwise the
    [GROQ_API_KEY] entry of the [.env] file: the request carries the
    credential resolved in this order, and without any no request is
    sent. *)
Theorem credential_priority `{JsonCodec} (w : World) (image_path : str)
  (override : option str) (data : list Byte.byte) :
  read_bytes w image_path = Val data ->
  let run := (load_dotenv;; extract_receipt_data image_path override) w in
  match resolved_credential override w with
  | Some key => calls (snd run) = calls w ++ [request_for key data]
  | None => calls (snd run) = calls w
            /\ exists msg, fst run = Raise (GroqError msg)
  end.
Proof.
  intros Hread. cbv zeta. rewrite bind_run.
  pose proof (or_else_resolved override w) as Hres.
  assert (Hread' : read_bytes (snd (load_dotenv w)) image_path = Val data).
  { rewrite load_dotenv_run. cbn [snd]. by destruct (dotenv w). }
  assert (Hcalls : calls (snd (load_dotenv w)) = calls w).
  { rewrite load_dotenv_run. cbn [snd]. by destruct (dotenv w). }
  destruct (load_dotenv w) as [r w1] eqn:Hload.
  assert (r = Val tt) as ->.
  { rewrite load_dotenv_run in Hload. by injection Hload as <- _. }
  cbn [snd] in *.
  destruct (resolved_credential override w) as [key|].
  - rewrite (extract_receipt_data_run _ _ key data) by done. cbv zeta.
    destruct (response_outcome _); cbn [snd]; world_fields;
      by rewrite Hcalls.
  - destruct (extract_receipt_data_no_key image_path override w1 Hres)
      as [msg ->]. cbn [fst snd]. split; [done|]. by exists msg.
Qed.

Lemma credential_priority_witness :
  let w := sample_world [py "receipt_extractor.py"]
             (Some {[ GROQ_API_KEY := py "gsk_from_file" ]})
             ∅ [py "receipt.jpg"] [] []
             [Val [Some sample_response]] in
  calls (snd ((load_dotenv;;
               @extract_receipt_data reference_codec (py "receipt.jpg") None)
                w))
  = [@request_for reference_codec (py "gsk_from_file") sample_image].
Proof.
  intros w.
  exact (@credential_priority reference_codec w (py "receipt.jpg") None
           sample_image eq_refl).
Defined.

(** C4, as stated, fails: when the environment variable and the file
    entry differ, the request carries the environment variable. *)
Lemma environment_beats_file :
  let w := sample_world [py "receipt_extractor.py"]
             (Some {[ GROQ_API_KEY := py "gsk_from_file" ]})
             {[ GROQ_API_KEY := py "gsk_from_environment" ]}
             [py "receipt.jpg"] [] []
             [Val [Some sample_response]] in
  spec_resolved_credential None w = Some (py "gsk_from_file")
  /\ List.map rq_api_key
       (calls (snd ((load_dotenv;;
                     @extract_receipt_data reference_codec
                       (py "receipt.jpg") None) w)))
     = [py "gsk_from_environment"].
Proof.
  intros w. split; vm_compute; reflexivity.
Qed.

(** C5.  Without a credential in the environment and in the [.env]
    file the script ends at once: it prints how to set the key, writes
    no file and sends no request, whatever its arguments. *)
Theorem missing_credential_is_fatal `{JsonCodec} (w : World) :
  no_credential (environ w !! GROQ_API_KEY) ->
  no_credential (file_entry w) ->
  exists w',
    script w = (Val tt, w')
    /\ outputs w' = outputs w
    /\ calls w' = calls w
    /\ stdout w' = stdout w ++ missing_key_lines.
Proof.
  intros Henv Hfile. unfold script. rewrite bind_run.
  pose proof (environ_after_load_dotenv w) as Hafter.
  assert (Hnone : is_set (environ (snd (load_dotenv w)) !! GROQ_API_KEY)
                  = false).
  { rewrite Hafter.
    destruct Henv as [-> | ->]; [|done].
    by destruct Hfile as [-> | ->]. }
  assert (Hsame : outputs (snd (load_dotenv w)) = outputs w
                  /\ calls (snd (load_dotenv w)) = calls w
                  /\ stdout (snd (load_dotenv w)) = stdout w).
  { rewrite load_dotenv_run. cbn [snd]. by destruct (dotenv w). }
  destruct (load_dotenv w) as [r w1] eqn:Hload.
  assert (r = Val tt) as ->.
  { rewrite load_dotenv_run in Hload. by injection Hload as <- _. }
  cbn [snd] in *. destruct Hsame as (Hout & Hcalls & Hstdout).
  unfold main. rewrite bind_run. unfold environ_get at 1, get at 1.
  cbv beta. rewrite Hnone. cbn [negb].
  repeat (rewrite bind_run, print_run). rewrite print_run.
  eexists. split; [reflexivity|]. cbn [outputs calls stdout set_stdout].
  split; [done|]. split; [done|].
  rewrite Hstdout. unfold missing_key_lines. by rewrite <- !app_assoc.
Qed.

Lemma missing_credential_is_fatal_witness :
  let w := sample_world [py "receipt_extractor.py"]
             (Some {[ py "MODEL" := py "maverick" ]})
             {[ py "HOME" := py "/home/user" ]}
             [py "receipt.jpg"] [] []
             [Val [Some sample_response]] in
  exists w',
    @script reference_codec w = (Val tt, w')
    /\ outputs w' = ∅ /\ calls w' = [] /\ stdout w' = missing_key_lines.
Proof.
  intros w.
  destruct (@missing_credential_is_fatal reference_codec w)
    as (w' & Hrun & Hout & Hcalls & Hstdout).
  - left. vm_compute. reflexivity.
  - left. vm_compute. reflexivity.
  - exists w'. split; [exact Hrun|]. split; [exact Hout|].
    split; [exact Hcalls | exact Hstdout].
Defined.

(** ** Finding the images *)

Section GlobFacts.

Import glob.

Implicit Types (pat lit name stem : str).

Lemma fnmatch_plain lit name :
  plain lit = true -> fnmatch lit name = true <-> name = lit.
Proof.
  revert name. induction lit as [|c lit IH]; intros name Hplain.
  - simpl. destruct name; split; intros; done.
  - simpl in Hplain.
    apply andb_true_iff in Hplain as [Hc Hlit].
    apply andb_true_iff in Hc as [Hstar Hquery].
    apply negb_true_iff in Hstar, Hquery.
    simpl. rewrite Hstar, Hquery.
    destruct name as [|x name]; [split; intros; done|].
    simpl. rewrite andb_true_iff, (IH name Hlit), N.eqb_eq.
    split; [intros [-> ->]; done | intros [= -> ->]; done].
Qed.

Lemma fnmatch_star_nil pat : fnmatch (42%N :: pat) [] = fnmatch pat [].
Proof. simpl. apply orb_false_r. Qed.

Lemma fnmatch_star_cons pat x name :
  fnmatch (42%N :: pat) (x :: name)
  = fnmatch pat (x :: name) || fnmatch (42%N :: pat) name.
Proof. reflexivity. Qed.

(** A star followed by plain text matches the names that end with
    the text. *)
Lemma fnmatch_star_plain lit name :
  plain lit = true ->
  fnmatch (42%N :: lit) name = true <-> exists stem, name = stem ++ lit.
Proof.
  intros Hplain. induction name as [|x name IH].
  - rewrite fnmatch_star_nil, (fnmatch_plain lit [] Hplain). split.
    + intros <-. by exists [].
    + intros [stem Hstem]. symmetry in Hstem.
      by apply app_eq_nil in Hstem as [_ ->].
  - rewrite fnmatch_star_cons, orb_true_iff, IH,
      (fnmatch_plain lit (x :: name) Hplain).
    split.
    + intros [<- | [stem ->]]; [by exists [] | by exists (x :: stem)].
    + intros [[|y stem] Hstem]; simpl in Hstem.
      * by left.
      * right. injection Hstem as -> ->. by exists stem.
Qed.

(** The path of a pattern without separator splits into the directory
    part of [glob] and the pattern. *)
Lemma split_prefixed (x pat : str) :
  posixpath.sep ∉ pat ->
  x = [] \/ (exists x', x = x' ++ [posixpath.sep]) ->
  posixpath.split (x ++ pat) = (fst (posixpath.split x), pat).
Proof.
  intros Hpat Hx. unfold posixpath.split.
  assert (Hrfind : rfind posixpath.sep (x ++ pat) + 1 = len x
                   /\ rfind posixpath.sep x + 1 = len x).
  { destruct Hx as [-> | [x' ->]].
    - rewrite app_nil_l, (rfind_absent _ pat) by done.
      split; reflexivity.
    - replace ((x' ++ [posixpath.sep]) ++ pat)
        with (x' ++ posixpath.sep :: pat) by (by rewrite <- app_assoc).
      rewrite rfind_last by done.
      rewrite (rfind_last _ x' []) by apply not_elem_of_nil.
      rewrite len_app. done. }
  destruct Hrfind as [-> ->].
  rewrite slice_to_app, slice_from_app.
  assert (Hx_all : slice x None (Some (len x)) = x).
  { rewrite <- (app_nil_r x) at 1. apply slice_to_app. }
  rewrite Hx_all.
  by destruct (negb (len x =? 0)
               && negb (forallb (fun c => (c =? posixpath.sep)%N) x)).
Qed.

Lemma join_prefixed (directory pat : str) :
  posixpath.sep ∉ pat ->
  exists x, posixpath.join directory pat = x ++ pat
            /\ (x = [] \/ exists x', x = x' ++ [posixpath.sep])
            /\ forall pat', posixpath.sep ∉ pat' ->
                            posixpath.join directory pat' = x ++ pat'.
Proof.
  intros Hpat. unfold posixpath.join.
  destruct (len directory =? 0) eqn:Hd; simpl.
  - apply Z.eqb_eq in Hd.
    destruct directory; [|unfold len in Hd; simpl in Hd; lia].
    exists []. rewrite startswith_sep_absent by done.
    split; [done|]. split; [by left|].
    intros pat' Hpat'. by rewrite startswith_sep_absent.
  - destruct (endswith directory [posixpath.sep]) eqn:He.
    + exists directory. rewrite startswith_sep_absent by done.
      split; [done|]. split; [right; by apply endswith_sep|].
      intros pat' Hpat'. by rewrite startswith_sep_absent.
    + exists (directory ++ [posixpath.sep]).
      rewrite startswith_sep_absent by done.
      split; [by rewrite <- app_assoc|]. split; [right; by eexists|].
      intros pat' Hpat'. rewrite startswith_sep_absent by done.
      by rewrite <- app_assoc.
Qed.

Lemma split_join (directory pat : str) :
  posixpath.sep ∉ pat ->
  posixpath.split (posixpath.join directory pat)
  = (glob_dirname directory, pat).
Proof.
  intros Hpat. unfold glob_dirname.
  destruct (join_prefixed directory pat Hpat) as (x & -> & Hx & Hall).
  rewrite (Hall (py "*")).
  - rewrite !split_prefixed; try done.
    apply not_elem_of_cons. split; [done | apply not_elem_of_nil].
  - apply not_elem_of_cons. split; [done | apply not_elem_of_nil].
Qed.

End GlobFacts.

Section DiscoveryFacts.

Import glob.

Lemma not_elem_of_forallb (c : char) (l : str) :
  forallb (fun x => negb (x =? c)%N) l = true -> c ∉ l.
Proof.
  induction l as [|x l IH]; simpl; [intros _; apply not_elem_of_nil|].
  intros Hl. apply andb_true_iff in Hl as [Hx Hl].
  apply negb_true_iff, N.eqb_neq in Hx.
  apply not_elem_of_cons. split; [congruence | by apply IH].
Qed.

(** The matches of the pattern [*.ext] in a directory. *)
Lemma elem_of_glob_extension (w : World) (directory ext p : str) :
  plain (46%N :: ext) = true ->
  forallb (fun x => negb (x =? posixpath.sep)%N) ext = true ->
  p ∈ glob w (posixpath.join directory (42%N :: 46%N :: ext))
  <-> exists name stem,
        name ∈ scandir w (listed_directory directory)
        /\ ishidden name = false
        /\ name = stem ++ 46%N :: ext
        /\ p = posixpath.join (glob_dirname directory) name.
Proof.
  intros Hplain Hsep. unfold glob.
  rewrite split_join.
  2:{ apply not_elem_of_cons. split; [done|].
      apply not_elem_of_cons. split; [done|].
      by apply not_elem_of_forallb. }
  fold (listed_directory directory).
  change (ishidden (42%N :: 46%N :: ext)) with false. cbv iota.
  rewrite list_elem_of_In, in_map_iff. split.
  - intros (name & <- & Hname).
    apply filter_In in Hname as [Hname Hmatch].
    apply filter_In in Hname as [Hname Hvisible].
    apply negb_true_iff in Hvisible.
    apply (fnmatch_star_plain (46%N :: ext) name Hplain) in Hmatch
      as [stem ->].
    exists (stem ++ 46%N :: ext), stem.
    split; [by apply list_elem_of_In|]. done.
  - intros (name & stem & Hname & Hvisible & -> & ->).
    exists (stem ++ 46%N :: ext). split; [done|].
    apply filter_In. split.
    + apply filter_In. split; [by apply list_elem_of_In|].
      by apply negb_true_iff.
    + apply (fnmatch_star_plain (46%N :: ext) _ Hplain). by exists stem.
Qed.

Lemma allowed_extension_facts (ext : str) :
  ext ∈ allowed_extensions ->
  plain (46%N :: ext) = true
  /\ plain (46%N :: upper ext) = true
  /\ forallb (fun x => negb (x =? posixpath.sep)%N) ext = true
  /\ forallb (fun x => negb (x =? posixpath.sep)%N) (upper ext) = true.
Proof.
  unfold allowed_extensions. intros Hext.
  repeat (apply elem_of_cons in Hext as [-> | Hext];
          [repeat split; vm_compute; reflexivity|]).
  by apply elem_of_nil in Hext.
Qed.

Lemma elem_of_discovered (w : World) (directory p : str) :
  p ∈ discovered w directory
  <-> exists ext,
        ext ∈ allowed_extensions
        /\ (p ∈ glob w (posixpath.join directory (42%N :: 46%N :: ext))
            \/ p ∈ glob w (posixpath.join directory
                             (42%N :: 46%N :: upper ext))).
Proof.
  unfold discovered.
  change image_extensions
    with (List.map (fun e => 42%N :: 46%N :: e) allowed_extensions).
  rewrite list_elem_of_In, in_concat. split.
  - intros (l & Hl & Hp).
    apply in_map_iff in Hl as (pat & <- & Hpat).
    apply in_map_iff in Hpat as (ext & <- & Hext).
    exists ext. split; [by apply list_elem_of_In|].
    apply in_app_or in Hp as [Hp | Hp]; [left | right];
      by apply list_elem_of_In.
  - intros (ext & Hext & Hp).
    exists (glob w (posixpath.join directory (42%N :: 46%N :: ext))
            ++ glob w (posixpath.join directory
                         (upper (42%N :: 46%N :: ext)))).
    split.
    + apply in_map_iff. exists (42%N :: 46%N :: ext). split; [done|].
      apply in_map_iff. exists ext. split; [done|].
      by apply list_elem_of_In.
    + apply in_or_app.
      destruct Hp as [Hp | Hp]; [left | right]; by apply list_elem_of_In.
Qed.

End DiscoveryFacts.

Section ExtensionFacts.

Import posixpath.

(** A name [stem.ext] whose stem has a character other than the dot
    has the extension [.ext]. *)
Lemma splitext_suffix (stem ext : str) :
  sep ∉ stem ++ extsep :: ext ->
  extsep ∉ ext ->
  (exists c, c ∈ stem /\ c <> extsep) ->
  splitext (stem ++ extsep :: ext) = (stem, extsep :: ext).
Proof.
  intros Hsep Hext (c & Hc & Hdot). unfold splitext.
  rewrite (rfind_absent sep) by done.
  rewrite rfind_last by done.
  pose proof (len_nonneg stem).
  destruct (Z.ltb_spec (-1) (len stem)); [|lia].
  replace (-1 + 1) with 0 by lia.
  rewrite slice_prefix, slice_to_app, slice_from_app.
  assert (Hex : existsb (fun c => negb (c =? extsep)%N) stem = true).
  { apply existsb_exists. exists c. split; [by apply list_elem_of_In|].
    by apply negb_true_iff, N.eqb_neq. }
  by rewrite Hex.
Qed.

Lemma visible_stem (stem rest : str) :
  glob.ishidden (stem ++ extsep :: rest) = false ->
  exists c, c ∈ stem /\ c <> extsep.
Proof.
  assert (Hnil : forall s : str, startswith s [] = true) by (by intros []).
  unfold glob.ishidden. change (py ".") with [extsep].
  destruct stem as [|c stem]; cbn [app startswith]; rewrite Hnil.
  { rewrite N.eqb_refl. discriminate. }
  rewrite andb_true_r. intros Hc. apply N.eqb_neq in Hc.
  exists c. split; [apply list_elem_of_here | done].
Qed.

(** What the batch finds is within the allow-list of the
    specification; the converse fails for extensions in mixed case. *)
Lemma has_image_extension_spec (name : str) :
  sep ∉ name ->
  glob.ishidden name = false ->
  has_image_extension name ->
  spec_image_file name = true.
Proof.
  intros Hsep Hvisible (stem & ext & Hext & Hname).
  unfold spec_image_file, allowed_extensions in *.
  assert (Hcases :
    forall e, e ∈ [py "jpg"; py "jpeg"; py "png"; py "gif"; py "bmp"] ->
      (extsep ∉ e) /\ (extsep ∉ upper e)
      /\ lower (extsep :: e) = 46%N :: e
      /\ lower (extsep :: upper e) = 46%N :: e).
  { intros e He.
    repeat (apply elem_of_cons in He as [-> | He];
            [repeat split; try reflexivity;
             apply not_elem_of_forallb; reflexivity|]).
    by apply elem_of_nil in He. }
  destruct (Hcases ext Hext) as (Hdot & Hdot' & Hlow & Hlow').
  assert (Hsnd : lower (snd (splitext name)) = 46%N :: ext).
  { destruct Hname as [-> | ->].
    - rewrite splitext_suffix; [done | done | done |].
      by apply (visible_stem stem ext).
    - rewrite splitext_suffix; [done | done | done |].
      by apply (visible_stem stem (upper ext)). }
  rewrite Hsnd.
  apply existsb_exists. exists ext.
  split; [by apply list_elem_of_In | by apply bool_decide_eq_true].
Qed.

End ExtensionFacts.

(** C6, as the code has it.  In a directory named without wildcards
    the batch finds exactly the entries that are not hidden and whose
    name ends with a dot and one of [jpg], [jpeg], [png], [gif],
    [bmp], written in lower case or in upper case throughout (so
    [RECEIPT.JPG] is found as [receipt.jpg] is); when it finds none
    it says so and returns. *)
Theorem discovery_by_extension `{JsonCodec} (w : World) (directory : str) :
  glob.has_magic directory = false ->
  find_image_files directory image_extensions w
  = (Val (discovered w directory), w)
  /\ (forall p,
        p ∈ discovered w directory
        <-> exists name,
              name ∈ scandir w (listed_directory directory)
              /\ glob.ishidden name = false
              /\ has_image_extension name
              /\ p = posixpath.join (glob_dirname directory) name)
  /\ (discovered w directory = [] ->
      process_all_receipts directory w
      = (Val tt,
         set_stdout
           (fun out => out ++ [py "No image files found in " ++ directory])
           w)).
Proof.
  intros _. split; [apply find_image_files_run|]. split.
  - intros p. rewrite elem_of_discovered. split.
    + intros (ext & Hext & Hp).
      destruct (allowed_extension_facts ext Hext) as (H1 & H2 & H3 & H4).
      destruct Hp as [Hp | Hp].
      * apply elem_of_glob_extension in Hp
          as (name & stem & Hname & Hvisible & -> & ->); [|done..].
        exists (stem ++ 46%N :: ext). repeat split; try done.
        exists stem, ext. split; [done | by left].
      * apply elem_of_glob_extension in Hp
          as (name & stem & Hname & Hvisible & -> & ->); [|done..].
        exists (stem ++ 46%N :: upper ext). repeat split; try done.
        exists stem, ext. split; [done | by right].
    + intros (name & Hname & Hvisible & (stem & ext & Hext & Hcase) & ->).
      destruct (allowed_extension_facts ext Hext) as (H1 & H2 & H3 & H4).
      exists ext. split; [done|].
      destruct Hcase as [-> | ->]; [left | right];
        apply elem_of_glob_extension; try done;
        by eexists _, stem.
  - intros Hnone. unfold process_all_receipts.
    rewrite bind_run, find_image_files_run.
    fold (discovered w directory). rewrite Hnone. reflexivity.
Qed.

Lemma discovery_by_extension_witness :
  let w := sample_world [py "receipt_extractor.py"] None
             {[ GROQ_API_KEY := py "gsk_test" ]}
             [py "RECEIPT.JPG"; py "receipt.jpg"; py "notes.txt"] [] [] [] in
  py "./RECEIPT.JPG" ∈ discovered w (py ".")
  /\ py "./receipt.jpg" ∈ discovered w (py ".")
  /\ py "./notes.txt" ∉ discovered w (py ".").
Proof.
  intros w.
  destruct (@discovery_by_extension reference_codec w (py ".") eq_refl)
    as (_ & Hfound & _).
  split; [|split].
  - apply Hfound. exists (py "RECEIPT.JPG").
    split; [vm_compute; apply list_elem_of_here|].
    split; [reflexivity|]. split; [|reflexivity].
    exists (py "RECEIPT"), (py "jpg").
    split; [apply list_elem_of_here | by right].
  - apply Hfound. exists (py "receipt.jpg").
    split; [vm_compute; apply list_elem_of_further, list_elem_of_here|].
    split; [reflexivity|]. split; [|reflexivity].
    exists (py "receipt"), (py "jpg").
    split; [apply list_elem_of_here | by left].
  - vm_compute. intros Hin.
    repeat (apply elem_of_cons in Hin as [Hin | Hin]; [discriminate|]).
    by apply elem_of_nil in Hin.
Defined.

(** C6, as stated, fails: an extension in mixed case is in the
    allow-list of the specification, and the batch does not find the
    file. *)
Lemma mixed_case_extension_is_not_found :
  let w := sample_world [py "receipt_extractor.py"] None
             {[ GROQ_API_KEY := py "gsk_test" ]}
             [py "receipt.Jpg"] [] []
             [Val [Some sample_response]] in
  spec_image_file (py "receipt.Jpg") = true
  /\ discovered w (py ".") = []
  /\ stdout (snd (@process_all_receipts reference_codec (py ".") w))
     = [py "No image files found in ."]
  /\ calls (snd (@process_all_receipts reference_codec (py ".") w)) = [].
Proof.
  intros w. repeat split; vm_compute; reflexivity.
Qed.

Example upper_case_extension_is_found :
  let w := sample_world [py "receipt_extractor.py"] None
             {[ GROQ_API_KEY := py "gsk_test" ]}
             [py "RECEIPT.JPG"; py "receipt.jpg"; py ".hidden.png";
              py "notes.txt"] [] [] [] in
  discovered w (py ".") = [py "./receipt.jpg"; py "./RECEIPT.JPG"]
  /\ discovered w (py "scans/") = [py "scans/receipt.jpg"; py "scans/RECEIPT.JPG"]
  /\ discovered w [] = [py "receipt.jpg"; py "RECEIPT.JPG"].
Proof.
  intros w. repeat split; vm_compute; reflexivity.
Qed.

(** ** The key file of [manage_api_key.py] *)

Section StripFacts.

Implicit Types (s x y a b : str) (c : char).

Lemma lstrip_app_nonspace x c y :
  isspace c = false -> lstrip (x ++ c :: y) = lstrip x ++ c :: y.
Proof.
  intros Hc. induction x as [|d x IH]; simpl.
  - by rewrite Hc.
  - destruct (isspace d); [exact IH | done].
Qed.

Lemma rstrip_app_nonspace a c b :
  isspace c = false -> rstrip ((a ++ [c]) ++ b) = (a ++ [c]) ++ rstrip b.
Proof.
  intros Hc. unfold rstrip. rewrite !rev_app_distr. simpl.
  rewrite lstrip_app_nonspace by done.
  rewrite rev_app_distr. simpl. by rewrite rev_involutive.
Qed.

Lemma rstrip_snoc_space s c : isspace c = true -> rstrip (s ++ [c]) = rstrip s.
Proof.
  intros Hc. unfold rstrip. rewrite rev_app_distr. simpl. by rewrite Hc.
Qed.

Lemma lstrip_suffix s : exists t, s = t ++ lstrip s.
Proof.
  induction s as [|c s [t IH]]; simpl.
  - by exists [].
  - destruct (isspace c).
    + exists (c :: t). simpl. by rewrite <- IH.
    + by exists [].
Qed.

(** [s.rstrip()] is a prefix of [s]. *)
Lemma rstrip_prefix s : exists t, s = rstrip s ++ t.
Proof.
  unfold rstrip. destruct (lstrip_suffix (rev s)) as [t Ht].
  exists (rev t). rewrite <- rev_app_distr, <- Ht. by rewrite rev_involutive.
Qed.

Lemma lstrip_idempotent s : lstrip (lstrip s) = lstrip s.
Proof.
  induction s as [|c s IH]; simpl; [done|].
  destruct (isspace c) eqn:Hc; [exact IH|]. simpl. by rewrite Hc.
Qed.

Lemma rstrip_idempotent s : rstrip (rstrip s) = rstrip s.
Proof.
  unfold rstrip. rewrite rev_involutive. by rewrite lstrip_idempotent.
Qed.

Lemma elem_of_rstrip c s : c ∈ rstrip s -> c ∈ s.
Proof.
  intros Hc. destruct (rstrip_prefix s) as [t Ht]. rewrite Ht.
  apply elem_of_app. by left.
Qed.

Lemma startswith_app (p x : str) : startswith (p ++ x) p = true.
Proof.
  induction p as [|c p IH]; simpl; [by destruct x|].
  by rewrite N.eqb_refl.
Qed.

Lemma startswith_split (s p : str) :
  startswith s p = true -> exists x, s = p ++ x.
Proof.
  revert s. induction p as [|c p IH]; intros s; simpl.
  - intros _. by exists s.
  - destruct s as [|d s]; [done|].
    intros H. apply andb_true_iff in H as [Hd Hs].
    apply N.eqb_eq in Hd as ->. destruct (IH s Hs) as [x ->]. by exists x.
Qed.

(** A text that starts with [p] once a suffix is taken off started
    with [p] before. *)
Lemma startswith_prefix_of (s t p : str) :
  startswith s p = true -> startswith (s ++ t) p = true.
Proof.
  intros H. destruct (startswith_split s p H) as [x ->].
  rewrite <- app_assoc. apply startswith_app.
Qed.

Lemma startswith_snoc (s p : str) c :
  c ∉ p -> startswith (s ++ [c]) p = startswith s p.
Proof.
  revert p. induction s as [|d s IH]; intros p Hc.
  - destruct p as [|x p]; [done|]. simpl.
    apply not_elem_of_cons in Hc as [Hx _].
    destruct (N.eqb_spec c x); [congruence | done].
  - destruct p as [|x p]; [done|]. simpl.
    apply not_elem_of_cons in Hc as [_ Hp]. by rewrite IH.
Qed.

End StripFacts.

Section KeyFileFacts.

Import manage_api_key_script.

Implicit Types (text k v line : str) (lines : list str).

Lemma translate_newlines_cons c text :
  c <> 13%N -> translate_newlines (c :: text) = c :: translate_newlines text.
Proof.
  intros Hc. destruct c as [|p]; [done|].
  do 4 (try destruct p as [p|p|]); try reflexivity; congruence.
Qed.

Lemma translate_newlines_cr text :
  translate_newlines (13%N :: text)
  = 10%N :: match text with
            | 10%N :: rest => translate_newlines rest
            | _ => translate_newlines text
            end.
Proof. reflexivity. Qed.

Lemma translate_newlines_plain text :
  13%N ∉ text -> translate_newlines text = text.
Proof.
  induction text as [|c text IH]; [done|]. intros Hc.
  apply not_elem_of_cons in Hc as [Hc Ht].
  rewrite translate_newlines_cons by congruence. by rewrite IH.
Qed.

Lemma translate_newlines_no_cr text : 13%N ∉ translate_newlines text.
Proof.
  induction text as [text IH] using (induction_ltof1 _ (@length N)).
  unfold ltof in IH. destruct text as [|c text]; [apply not_elem_of_nil|].
  destruct (decide (c = 13%N)) as [->|Hc].
  - rewrite translate_newlines_cr. apply not_elem_of_cons. split; [done|].
    destruct text as [|d text]; [apply not_elem_of_nil|].
    destruct (decide (d = 10%N)) as [->|Hd].
    + apply IH. simpl. lia.
    + assert (Hsame : match d :: text with
                      | 10%N :: rest => translate_newlines rest
                      | _ => translate_newlines (d :: text)
                      end = translate_newlines (d :: text)).
      { destruct d as [|p]; [done|].
        do 4 (try destruct p as [p|p|]); try reflexivity; congruence. }
      rewrite Hsame. apply IH. simpl. lia.
  - rewrite translate_newlines_cons by done.
    apply not_elem_of_cons. split; [congruence|]. apply IH. simpl. lia.
Qed.

(** A text that begins with a line without line feed. *)
Lemma lines_of_first v text :
  10%N ∉ v -> lines_of (v ++ 10%N :: text) = (v ++ [10%N]) :: lines_of text.
Proof.
  intros Hv. induction v as [|c v IH]; [done|].
  apply not_elem_of_cons in Hv as [Hc Hv]. simpl.
  destruct (N.eqb_spec c 10); [congruence|].
  by rewrite IH.
Qed.

Lemma concat_lines_of text : concat (lines_of text) = text.
Proof.
  induction text as [|c text IH]; [done|]. simpl.
  destruct (N.eqb_spec c 10) as [->|Hc]; simpl; [by rewrite IH|].
  destruct (lines_of text) as [|l ls]; simpl in *; by rewrite <- IH.
Qed.

(** Every line has its only line feed, if any, at its end. *)
Lemma lines_of_shape text :
  Forall (fun line => exists body,
            (10%N ∉ body) /\ (line = body ++ [10%N] \/ line = body))
         (lines_of text).
Proof.
  induction text as [|c text IH]; [constructor|]. simpl.
  destruct (N.eqb_spec c 10) as [->|Hc].
  - constructor; [|exact IH]. exists []. split; [apply not_elem_of_nil|].
    by left.
  - destruct (lines_of text) as [|l ls].
    + constructor; [|constructor]. exists [c].
      split; [|by right]. apply not_elem_of_cons.
      split; [congruence | apply not_elem_of_nil].
    + inversion IH as [|? ? (body & Hbody & Hl) Hls]; subst.
      constructor; [|exact Hls]. exists (c :: body).
      split; [apply not_elem_of_cons; split; [congruence | done]|].
      destruct Hl as [-> | ->]; [by left | by right].
Qed.

(** The lines written back for a list of clean variables are read as
    they were written. *)
Lemma lines_of_written (vars : list str) :
  Forall (fun v => 10%N ∉ v) vars ->
  lines_of (concat (List.map (fun v => v ++ [10%N]) vars))
  = List.map (fun v => v ++ [10%N]) vars.
Proof.
  induction 1 as [|v vars Hv _ IH]; [done|]. simpl.
  rewrite <- app_assoc. simpl. rewrite lines_of_first by done.
  by rewrite IH.
Qed.

End KeyFileFacts.

Section KeyFileRewrites.

Import manage_api_key_script.

Implicit Types (text k v line : str) (lines : list str) (s : State).

Lemma strip_key_entry (r : str) :
  strip (key_prefix ++ r) = key_prefix ++ rstrip r.
Proof.
  unfold strip.
  change (key_prefix ++ r) with ([] ++ 71%N :: (py "ROQ_API_KEY=" ++ r)).
  rewrite lstrip_app_nonspace by reflexivity.
  change (lstrip [] ++ 71%N :: py "ROQ_API_KEY=" ++ r)
    with ((py "GROQ_API_KEY" ++ [61%N]) ++ r).
  by rewrite rstrip_app_nonspace.
Qed.

Lemma rstrip_line (v : str) : rstrip (v ++ [10%N]) = rstrip v.
Proof. by apply rstrip_snoc_space. Qed.

(** What the loop over the file collects: no line feed or carriage
    return, no entry for the key, no white space at the end. *)
Lemma other_vars_clean text :
  Forall (fun v => (10%N ∉ v) /\ (13%N ∉ v)
                   /\ startswith v key_prefix = false /\ rstrip v = v)
         (other_vars (read_lines text)).
Proof.
  unfold other_vars, read_lines.
  pose proof (translate_newlines_no_cr text) as Hcr.
  pose proof (lines_of_shape (translate_newlines text)) as Hshape.
  rewrite <- (concat_lines_of (translate_newlines text)) in Hcr.
  induction Hshape as [|line lines (body & Hbody & Hline) _ IH];
    [constructor|].
  simpl in Hcr. apply not_elem_of_app in Hcr as [Hcr1 Hcr2].
  simpl. destruct (startswith line key_prefix) eqn:Hstart; simpl;
    [by apply IH|].
  constructor; [|by apply IH].
  split; [|split; [|split]].
  - intros Hin. apply Hbody.
    destruct Hline as [-> | ->].
    + rewrite rstrip_line in Hin. by apply elem_of_rstrip.
    + by apply elem_of_rstrip.
  - intros Hin. by apply Hcr1, elem_of_rstrip.
  - destruct (startswith (rstrip line) key_prefix) eqn:Hr; [|done].
    destruct (rstrip_prefix line) as [t Ht].
    rewrite Ht in Hstart.
    by rewrite (startswith_prefix_of _ t _ Hr) in Hstart.
  - apply rstrip_idempotent.
Qed.

Lemma other_vars_of_clean s :
  Forall (fun v => (10%N ∉ v) /\ (13%N ∉ v)
                   /\ startswith v key_prefix = false /\ rstrip v = v)
         (other_vars_of s).
Proof.
  unfold other_vars_of. destruct (dot_env s); [|constructor].
  apply other_vars_clean.
Qed.

Lemma write_vars_kept (vars : list str) :
  write_vars vars = concat (kept_lines vars).
Proof. reflexivity. Qed.

Lemma no_cr_concat (ls : list str) :
  Forall (fun l => 13%N ∉ l) ls -> 13%N ∉ concat ls.
Proof.
  induction 1 as [|l ls Hl _ IH]; simpl; [apply not_elem_of_nil|].
  by apply not_elem_of_app.
Qed.

(** The variables written back are read as they were written. *)
Lemma read_lines_written (vars : list str) :
  Forall (fun v => (10%N ∉ v) /\ (13%N ∉ v)
                   /\ startswith v key_prefix = false /\ rstrip v = v) vars ->
  read_lines (write_vars vars) = kept_lines vars.
Proof.
  intros Hvars. unfold read_lines, write_vars, kept_lines.
  assert (Hkept : Forall (fun v => (10%N ∉ v) /\ (13%N ∉ v))
            (List.filter (fun var => negb (len (strip var) =? 0)) vars)).
  { induction Hvars as [|v vars (H10 & H13 & _) _ IH]; simpl; [constructor|].
    destruct (negb _); [by constructor | done]. }
  rewrite translate_newlines_plain.
  - apply lines_of_written. eapply Forall_impl; [exact Hkept|].
    by intros v [? ?].
  - apply no_cr_concat. apply Forall_forall. intros l Hl.
    apply list_elem_of_In, in_map_iff in Hl as (v & <- & Hv).
    apply list_elem_of_In in Hv.
    rewrite Forall_forall in Hkept. destruct (Hkept v Hv) as [_ H13].
    apply not_elem_of_app. split; [done|].
    apply not_elem_of_cons. split; [done | apply not_elem_of_nil].
Qed.

(** The lines of the file after [set_api_key] with a key of one
    line. *)
Lemma read_lines_after_set k (vars : list str) :
  10%N ∉ k -> 13%N ∉ k ->
  Forall (fun v => (10%N ∉ v) /\ (13%N ∉ v)
                   /\ startswith v key_prefix = false /\ rstrip v = v) vars ->
  read_lines (key_prefix ++ k ++ [10%N] ++ write_vars vars)
  = (key_prefix ++ k ++ [10%N]) :: kept_lines vars.
Proof.
  intros H10 H13 Hvars.
  rewrite <- (read_lines_written vars Hvars). unfold read_lines.
  assert (Hcr : 13%N ∉ key_prefix ++ k ++ [10%N] ++ write_vars vars).
  { rewrite !not_elem_of_app. split; [by apply not_elem_of_forallb|].
    split; [done|]. split.
    - apply not_elem_of_cons. split; [done | apply not_elem_of_nil].
    - pose proof (translate_newlines_no_cr (write_vars vars)) as Hw.
      fold (read_lines (write_vars vars)) in *.
      rewrite write_vars_kept. apply no_cr_concat. apply Forall_forall.
      intros l Hl. unfold kept_lines in Hl.
      apply list_elem_of_In, in_map_iff in Hl as (v & <- & Hv).
      apply filter_In in Hv as [Hv _]. apply list_elem_of_In in Hv.
      rewrite Forall_forall in Hvars. destruct (Hvars v Hv) as (_ & Hv13 & _).
      apply not_elem_of_app. split; [done|].
      apply not_elem_of_cons. split; [done | apply not_elem_of_nil]. }
  rewrite (translate_newlines_plain _ Hcr).
  assert (Hw : translate_newlines (write_vars vars) = write_vars vars).
  { apply translate_newlines_plain. intros Hin. apply Hcr.
    rewrite !elem_of_app. do 3 right. done. }
  rewrite Hw.
  replace (key_prefix ++ k ++ [10%N] ++ write_vars vars)
    with ((key_prefix ++ k) ++ 10%N :: write_vars vars)
    by (by rewrite <- !app_assoc).
  rewrite lines_of_first.
  - by rewrite <- app_assoc.
  - apply not_elem_of_app. split; [by apply not_elem_of_forallb | done].
Qed.

Lemma kept_lines_not_key (vars : list str) :
  Forall (fun v => (10%N ∉ v) /\ (13%N ∉ v)
                   /\ startswith v key_prefix = false /\ rstrip v = v) vars ->
  Forall (fun line => startswith line key_prefix = false) (kept_lines vars).
Proof.
  intros Hvars. unfold kept_lines.
  induction Hvars as [|v vars (_ & _ & Hkey & _) _ IH]; simpl; [constructor|].
  destruct (negb _); simpl; [|exact IH].
  constructor; [|exact IH].
  rewrite startswith_snoc; [done|]. by apply not_elem_of_forallb.
Qed.

(** Reading the kept lines again collects the same variables. *)
Lemma other_vars_kept (vars : list str) :
  Forall (fun v => (10%N ∉ v) /\ (13%N ∉ v)
                   /\ startswith v key_prefix = false /\ rstrip v = v) vars ->
  other_vars (kept_lines vars)
  = List.filter (fun var => negb (len (strip var) =? 0)) vars.
Proof.
  intros Hvars. unfold other_vars, kept_lines.
  induction Hvars as [|v vars (_ & _ & Hkey & Hstrip) _ IH]; simpl; [done|].
  destruct (negb (len (strip v) =? 0)) eqn:Hblank; simpl; [|exact IH].
  rewrite startswith_snoc by (by apply not_elem_of_forallb).
  rewrite Hkey. simpl. rewrite rstrip_line, Hstrip. by rewrite IH.
Qed.

Lemma kept_lines_filter (vars : list str) :
  kept_lines (List.filter (fun var => negb (len (strip var) =? 0)) vars)
  = kept_lines vars.
Proof.
  unfold kept_lines. f_equal.
  induction vars as [|v vars IH]; simpl; [done|].
  destruct (negb (len (strip v) =? 0)) eqn:Hv; simpl; [|exact IH].
  by rewrite Hv, IH.
Qed.

Lemma found_false lines :
  Forall (fun line => startswith line key_prefix = false) lines ->
  found lines = false.
Proof.
  induction 1 as [|l lines Hl _ IH]; simpl; [done|]. by rewrite Hl.
Qed.

End KeyFileRewrites.

Section KeyFileProperties.

Import manage_api_key_script.

Implicit Types (text k v line : str) (lines : list str) (s : State).

Lemma not_found_forall lines :
  found lines = false ->
  Forall (fun line => startswith line key_prefix = false) lines.
Proof.
  induction lines as [|l lines IH]; simpl; [constructor|].
  intros H. apply orb_false_iff in H as [Hl Hrest].
  constructor; [done | by apply IH].
Qed.

(** What the loop of [view_api_key] prints for the first entry it
    meets is the label and a masked key: the index is in range. *)
Lemma view_env_lines_masked lines (r : Res str) :
  manage_api_key.view_env_lines lines = Some r ->
  exists key,
    r = Val (py "Current API key (.env): " ++ manage_api_key.mask key).
Proof.
  induction lines as [|l lines IH]; simpl; [done|].
  change (py "GROQ_API_KEY=") with key_prefix.
  destruct (startswith l key_prefix) eqn:Hstart; [|exact IH].
  destruct (startswith_split l key_prefix Hstart) as [x ->].
  rewrite strip_key_entry. intros [= <-]. eexists. reflexivity.
Qed.

Lemma view_env_lines_value lines (r : Res str) :
  manage_api_key.view_env_lines lines = Some r -> exists line, r = Val line.
Proof.
  intros Hr. destruct (view_env_lines_masked lines r Hr) as [key ->].
  eexists. reflexivity.
Qed.

Lemma view_env_lines_first k rest :
  manage_api_key.view_env_lines ((key_prefix ++ k ++ [10%N]) :: rest)
  = Some (Val (py "Current API key (.env): "
               ++ manage_api_key.mask (rstrip k))).
Proof.
  cbn [manage_api_key.view_env_lines].
  change (py "GROQ_API_KEY=") with key_prefix.
  rewrite startswith_app, strip_key_entry, rstrip_line. reflexivity.
Qed.

Lemma encodable_app (a b : str) :
  encodable (a ++ b) = encodable a && encodable b.
Proof. apply forallb_app. Qed.

(** The entry can be encoded when the key can. *)
Lemma encodable_entry k : encodable (key_prefix ++ k ++ [10%N]) = encodable k.
Proof.
  rewrite !encodable_app.
  change (encodable key_prefix) with true.
  change (encodable [10%N]) with true.
  by rewrite andb_true_r.
Qed.

Lemma set_api_key_encodable k s :
  encodable k = true ->
  set_api_key k s
  = (Val tt,
     say ([check_mark] ++ py " API key updated in .env file")
       (set_dot_env
          (Some (key_prefix ++ k ++ [10%N] ++ write_vars (other_vars_of s)))
          s)).
Proof.
  intros Hk. unfold set_api_key, other_vars_of. cbv zeta.
  rewrite encodable_entry, Hk. by rewrite <- !app_assoc.
Qed.

Lemma set_api_key_not_encodable k s :
  encodable k = false ->
  set_api_key k s = (Raise UnicodeEncodeError, set_dot_env (Some []) s).
Proof.
  intros Hk. unfold set_api_key. cbv zeta. by rewrite encodable_entry, Hk.
Qed.

Lemma file_lines_after_set k s :
  10%N ∉ k -> 13%N ∉ k -> encodable k = true ->
  file_lines (snd (set_api_key k s))
  = (key_prefix ++ k ++ [10%N]) :: kept_lines (other_vars_of s).
Proof.
  intros H10 H13 Hk. rewrite set_api_key_encodable by done.
  unfold file_lines. cbn [snd dot_env say set_dot_env].
  apply read_lines_after_set; [done | done | apply other_vars_of_clean].
Qed.

(** Reading the file after [set_api_key] collects, for the next
    rewrite, what the former file gave. *)
Lemma write_vars_after_set k s :
  10%N ∉ k -> 13%N ∉ k -> encodable k = true ->
  write_vars (other_vars_of (snd (set_api_key k s)))
  = write_vars (other_vars_of s).
Proof.
  intros H10 H13 Hk.
  pose proof (file_lines_after_set k s H10 H13 Hk) as Hlines.
  pose proof (other_vars_of_clean s) as Hclean.
  unfold file_lines in Hlines. unfold other_vars_of at 1.
  destruct (dot_env (snd (set_api_key k s))) as [text|] eqn:Henv.
  - rewrite Hlines.
    unfold other_vars at 1. cbn [List.filter].
    rewrite startswith_app. cbn [negb].
    fold (other_vars (kept_lines (other_vars_of s))).
    rewrite other_vars_kept by done.
    rewrite !write_vars_kept. by rewrite kept_lines_filter.
  - rewrite set_api_key_encodable in Henv by done. discriminate.
Qed.

End KeyFileProperties.

(** [set_api_key] with a key of one line that can be encoded returns,
    and the file then holds the entry of the key first and only once,
    and after it every former line that was no entry of the key, in
    order, without its trailing white space; blank lines are gone. *)
Theorem set_api_key_read_back (s : manage_api_key_script.State) (k : str) :
  10%N ∉ k -> 13%N ∉ k -> encodable k = true ->
  fst (manage_api_key_script.set_api_key k s) = Val tt
  /\ file_lines (snd (manage_api_key_script.set_api_key k s))
     = (manage_api_key_script.key_prefix ++ k ++ [10%N])
       :: kept_lines (other_vars_of s)
  /\ Forall (fun line =>
               startswith line manage_api_key_script.key_prefix = false)
       (kept_lines (other_vars_of s)).
Proof.
  intros H10 H13 Hk. split; [by rewrite set_api_key_encodable|].
  split; [by apply file_lines_after_set|].
  apply kept_lines_not_key, other_vars_of_clean.
Qed.

Lemma set_api_key_read_back_witness :
  file_lines
    (snd (manage_api_key_script.set_api_key (py "gsk_new")
            (sample_state
               (Some (py "# settings  " ++ [13%N; 10%N]
                      ++ py "GROQ_API_KEY=old"
                      ++ [10%N; 10%N] ++ py "MODE=batch" ++ [9%N; 10%N]
                      ++ py "GROQ_API_KEY=older"))
               [])))
  = [py "GROQ_API_KEY=gsk_new" ++ [10%N]; py "# settings" ++ [10%N];
     py "MODE=batch" ++ [10%N]].
Proof.
  destruct (set_api_key_read_back
              (sample_state
                 (Some (py "# settings  " ++ [13%N; 10%N]
                        ++ py "GROQ_API_KEY=old"
                        ++ [10%N; 10%N] ++ py "MODE=batch" ++ [9%N; 10%N]
                        ++ py "GROQ_API_KEY=older"))
                 [])
              (py "gsk_new"))
    as (_ & Hlines & _).
  - by apply not_elem_of_forallb.
  - by apply not_elem_of_forallb.
  - reflexivity.
  - rewrite Hlines. vm_compute. reflexivity.
Defined.

(** After [set_api_key] with a key of one line that can be encoded,
    [view_api_key] shows that key, masked, from the file, whatever
    the file and the environment held before. *)
Theorem view_after_set_api_key (s : manage_api_key_script.State) (k : str) :
  10%N ∉ k -> 13%N ∉ k -> encodable k = true ->
  manage_api_key_script.view_api_key
    (snd (manage_api_key_script.set_api_key k s))
  = Val (manage_api_key_script.say
           (py "Current API key (.env): "
            ++ manage_api_key.mask (rstrip k))
           (snd (manage_api_key_script.set_api_key k s))).
Proof.
  intros H10 H13 Hk. unfold manage_api_key_script.view_api_key.
  pose proof (file_lines_after_set k s H10 H13 Hk) as Hlines.
  unfold file_lines in Hlines.
  destruct (manage_api_key_script.dot_env
              (snd (manage_api_key_script.set_api_key k s)))
    as [text|] eqn:Henv.
  - cbn [fmap option_fmap option_map]. rewrite Hlines.
    unfold manage_api_key.view_api_key.
    cbn [manage_api_key.env_file].
    rewrite view_env_lines_first. reflexivity.
  - rewrite set_api_key_encodable in Henv by done. discriminate.
Qed.

Lemma view_after_set_api_key_witness :
  manage_api_key_script.view_api_key
    (snd (manage_api_key_script.set_api_key (py "gsk_0123456789abcdef")
            (sample_state (Some (py "GROQ_API_KEY=old")) [])))
  = Val (manage_api_key_script.say
           (py "Current API key (.env): gsk_************cdef")
           (snd (manage_api_key_script.set_api_key
                   (py "gsk_0123456789abcdef")
                   (sample_state (Some (py "GROQ_API_KEY=old")) [])))).
Proof.
  rewrite (view_after_set_api_key
             (sample_state (Some (py "GROQ_API_KEY=old")) [])
             (py "gsk_0123456789abcdef"));
    [reflexivity | by apply not_elem_of_forallb
     | by apply not_elem_of_forallb | reflexivity].
Defined.

(** Setting a key over a key of one line that was set before leaves
    the file as setting it at once would, and ends the same way: the
    older key is gone and nothing else changes; in particular setting
    the same key twice is setting it once. *)
Theorem set_api_key_overwrites (s : manage_api_key_script.State)
  (k1 k2 : str) :
  10%N ∉ k1 -> 13%N ∉ k1 -> encodable k1 = true ->
  fst (manage_api_key_script.set_api_key k2
         (snd (manage_api_key_script.set_api_key k1 s)))
  = fst (manage_api_key_script.set_api_key k2 s)
  /\ manage_api_key_script.dot_env
       (snd (manage_api_key_script.set_api_key k2
               (snd (manage_api_key_script.set_api_key k1 s))))
     = manage_api_key_script.dot_env
         (snd (manage_api_key_script.set_api_key k2 s)).
Proof.
  intros H10 H13 Hk1.
  pose proof (write_vars_after_set k1 s H10 H13 Hk1) as Hsame.
  destruct (encodable k2) eqn:Hk2.
  - rewrite !(set_api_key_encodable k2) by done.
    cbn [fst snd manage_api_key_script.dot_env manage_api_key_script.say
         manage_api_key_script.set_dot_env].
    split; [done|]. by rewrite Hsame.
  - rewrite !(set_api_key_not_encodable k2) by done.
    split; reflexivity.
Qed.

Lemma set_api_key_overwrites_witness :
  manage_api_key_script.dot_env
    (snd (manage_api_key_script.set_api_key (py "gsk_b")
            (snd (manage_api_key_script.set_api_key (py "gsk_a")
                    (sample_state (Some (py "MODE=batch")) [])))))
  = Some (py "GROQ_API_KEY=gsk_b" ++ [10%N] ++ py "MODE=batch" ++ [10%N]).
Proof.
  destruct (set_api_key_overwrites
              (sample_state (Some (py "MODE=batch")) []) (py "gsk_a")
              (py "gsk_b"))
    as [_ Hfile].
  - by apply not_elem_of_forallb.
  - by apply not_elem_of_forallb.
  - reflexivity.
  - rewrite Hfile. reflexivity.
Defined.

Section KeyFileRemoval.

Import manage_api_key_script.

Implicit Types (text k v line : str) (lines : list str) (s : State).

Lemma file_lines_after_remove s :
  found (file_lines s) = true ->
  file_lines (remove_api_key s) = kept_lines (other_vars_of s).
Proof.
  unfold file_lines, remove_api_key, other_vars_of.
  destruct (dot_env s) as [text|] eqn:Henv; [|done].
  intros ->. cbn [dot_env say set_dot_env].
  apply read_lines_written, other_vars_clean.
Qed.

Lemma remove_api_key_not_found s :
  found (file_lines s) = false -> dot_env (remove_api_key s) = dot_env s.
Proof.
  unfold file_lines, remove_api_key.
  destruct (dot_env s) as [text|] eqn:Henv; [|by rewrite ?Henv].
  by intros ->.
Qed.

Lemma found_after_remove s : found (file_lines (remove_api_key s)) = false.
Proof.
  destruct (found (file_lines s)) eqn:Hfound.
  - rewrite file_lines_after_remove by done.
    apply found_false, kept_lines_not_key, other_vars_of_clean.
  - unfold file_lines in *. by rewrite remove_api_key_not_found.
Qed.

Lemma environ_vars_remove s :
  environ_vars (remove_api_key s) = environ_vars s.
Proof.
  unfold remove_api_key. destruct (dot_env s); [|done].
  by destruct (found _).
Qed.

Lemma environ_vars_set k s :
  environ_vars (snd (set_api_key k s)) = environ_vars s.
Proof. unfold set_api_key. cbv zeta. by destruct (encodable _). Qed.

Lemma view_api_key_no_entry (e : manage_api_key.Env) (lines : list str) :
  manage_api_key.env_file e = Some lines ->
  found lines = false ->
  manage_api_key.view_api_key e
  = Val (environment_line (manage_api_key.os_environ e)).
Proof.
  intros Hfile Hfound. unfold manage_api_key.view_api_key. rewrite Hfile.
  rewrite view_env_lines_none by (by apply not_found_forall).
  unfold environment_line.
  by destruct (manage_api_key.os_environ e !! GROQ_API_KEY) as [[|c k]|].
Qed.

Lemma view_api_key_no_file (e : manage_api_key.Env) :
  manage_api_key.env_file e = None ->
  manage_api_key.view_api_key e
  = Val (environment_line (manage_api_key.os_environ e)).
Proof.
  intros Hfile. unfold manage_api_key.view_api_key. rewrite Hfile.
  unfold environment_line.
  by destruct (manage_api_key.os_environ e !! GROQ_API_KEY) as [[|c k]|].
Qed.

End KeyFileRemoval.

(** [remove_api_key] leaves no entry of the key in the file, however
    many it had; it never creates the file, and a file without an
    entry is left as it is, byte for byte. *)
Theorem remove_api_key_clears (s : manage_api_key_script.State) :
  manage_api_key_script.found
    (file_lines (manage_api_key_script.remove_api_key s)) = false
  /\ (manage_api_key_script.found (file_lines s) = false ->
      manage_api_key_script.dot_env (manage_api_key_script.remove_api_key s)
      = manage_api_key_script.dot_env s)
  /\ (manage_api_key_script.found (file_lines s) = true ->
      file_lines (manage_api_key_script.remove_api_key s)
      = kept_lines (other_vars_of s)).
Proof.
  split; [apply found_after_remove|].
  split; [apply remove_api_key_not_found | apply file_lines_after_remove].
Qed.

Lemma remove_api_key_clears_witness :
  file_lines
    (manage_api_key_script.remove_api_key
       (sample_state
          (Some (py "GROQ_API_KEY=a" ++ [10%N] ++ py "MODE=batch  "
                 ++ [13%N; 10%N; 10%N] ++ py "GROQ_API_KEY=b"))
          []))
  = [py "MODE=batch" ++ [10%N]]
  /\ manage_api_key_script.dot_env
       (manage_api_key_script.remove_api_key
          (sample_state (Some (py "MODE=batch  " ++ [13%N; 10%N])) []))
     = Some (py "MODE=batch  " ++ [13%N; 10%N]).
Proof.
  split.
  - destruct (remove_api_key_clears
                (sample_state
                   (Some (py "GROQ_API_KEY=a" ++ [10%N] ++ py "MODE=batch  "
                          ++ [13%N; 10%N; 10%N] ++ py "GROQ_API_KEY=b"))
                   []))
      as (_ & _ & Hlines).
    rewrite Hlines; reflexivity.
  - destruct (remove_api_key_clears
                (sample_state (Some (py "MODE=batch  " ++ [13%N; 10%N])) []))
      as (_ & Hkeep & _).
    rewrite Hkeep; reflexivity.
Defined.

(** Removing the key after setting one of one line that can be
    encoded leaves exactly the other variables of the file as it was
    before the key was set. *)
Theorem remove_after_set_api_key (s : manage_api_key_script.State)
  (k : str) :
  10%N ∉ k -> 13%N ∉ k -> encodable k = true ->
  manage_api_key_script.dot_env
    (manage_api_key_script.remove_api_key
       (snd (manage_api_key_script.set_api_key k s)))
  = Some (manage_api_key_script.write_vars (other_vars_of s)).
Proof.
  intros H10 H13 Hk.
  pose proof (file_lines_after_set k s H10 H13 Hk) as Hlines.
  pose proof (write_vars_after_set k s H10 H13 Hk) as Hsame.
  unfold file_lines in Hlines. unfold other_vars_of at 1 in Hsame.
  unfold manage_api_key_script.remove_api_key.
  destruct (manage_api_key_script.dot_env
              (snd (manage_api_key_script.set_api_key k s)))
    as [text|] eqn:Henv.
  - rewrite Hlines in *.
    cbn [manage_api_key_script.found existsb].
    rewrite startswith_app. cbn [orb].
    cbn [manage_api_key_script.dot_env manage_api_key_script.say
         manage_api_key_script.set_dot_env].
    by rewrite Hsame.
  - rewrite set_api_key_encodable in Henv by done. discriminate.
Qed.

Lemma remove_after_set_api_key_witness :
  manage_api_key_script.dot_env
    (manage_api_key_script.remove_api_key
       (snd (manage_api_key_script.set_api_key (py "gsk_a")
               (sample_state
                  (Some (py "MODE=batch" ++ [10%N; 10%N] ++ py "N=1"))
                  []))))
  = Some (py "MODE=batch" ++ [10%N] ++ py "N=1" ++ [10%N]).
Proof.
  rewrite (remove_after_set_api_key
             (sample_state
                (Some (py "MODE=batch" ++ [10%N; 10%N] ++ py "N=1")) [])
             (py "gsk_a"));
    [reflexivity | by apply not_elem_of_forallb
     | by apply not_elem_of_forallb | reflexivity].
Defined.

(** After [remove_api_key], [view_api_key] no longer reads a key from
    the file: it shows the key of the environment, masked, when there
    is a non-empty one, and says that no key was found otherwise. *)
Theorem view_after_remove_api_key (s : manage_api_key_script.State) :
  manage_api_key_script.view_api_key
    (manage_api_key_script.remove_api_key s)
  = Val (manage_api_key_script.say
           (environment_line (manage_api_key_script.environ_vars s))
           (manage_api_key_script.remove_api_key s)).
Proof.
  unfold manage_api_key_script.view_api_key.
  pose proof (found_after_remove s) as Hfound.
  pose proof (environ_vars_remove s) as Henviron.
  unfold file_lines in Hfound.
  destruct (manage_api_key_script.dot_env
              (manage_api_key_script.remove_api_key s)) as [text|] eqn:Henv.
  - erewrite view_api_key_no_entry; [|reflexivity | exact Hfound].
    cbn [manage_api_key.os_environ mbind]. by rewrite Henviron.
  - rewrite view_api_key_no_file by reflexivity.
    cbn [manage_api_key.os_environ]. by rewrite Henviron.
Qed.

(** The line of [view_api_key] is always a value. *)
Lemma view_api_key_value (e : manage_api_key.Env) :
  exists line, manage_api_key.view_api_key e = Val line.
Proof.
  unfold manage_api_key.view_api_key.
  destruct (manage_api_key.env_file e) as [lines|].
  - destruct (manage_api_key.view_env_lines lines) as [r|] eqn:Hr.
    + destruct (view_env_lines_value lines r Hr) as [line ->].
      by exists line.
    + destruct (manage_api_key.os_environ e !! GROQ_API_KEY) as [[|c k]|];
        eexists; reflexivity.
  - destruct (manage_api_key.os_environ e !! GROQ_API_KEY) as [[|c k]|];
      eexists; reflexivity.
Qed.

(** The loop of [view_api_key] over the lines of the file never
    raises [IndexError]: whatever lines the file yields, either none
    starts with [GROQ_API_KEY=], or the first that does still has its
    [=] once stripped, so that [split("=", 1)[1]] exists, and the
    loop prints the label and a masked key. *)
Theorem view_api_key_index_in_range (lines : list str) :
  manage_api_key.view_env_lines lines = None
  \/ exists key,
       manage_api_key.view_env_lines lines
       = Some (Val (py "Current API key (.env): "
                    ++ manage_api_key.mask key)).
Proof.
  destruct (manage_api_key.view_env_lines lines) as [r|] eqn:Hr;
    [|by left].
  right. destruct (view_env_lines_masked lines r Hr) as [key ->].
  by exists key.
Qed.

(** A key that holds a line feed is written as it is: what follows
    the line feed becomes a line of its own in the file, read back as
    another variable. *)
Theorem set_api_key_line_feed (s : manage_api_key_script.State)
  (a b : str) :
  10%N ∉ a -> 13%N ∉ a -> 10%N ∉ b -> 13%N ∉ b ->
  encodable a = true -> encodable b = true ->
  fst (manage_api_key_script.set_api_key (a ++ [10%N] ++ b) s) = Val tt
  /\ file_lines
       (snd (manage_api_key_script.set_api_key (a ++ [10%N] ++ b) s))
     = (manage_api_key_script.key_prefix ++ a ++ [10%N])
       :: (b ++ [10%N]) :: kept_lines (other_vars_of s).
Proof.
  intros Ha10 Ha13 Hb10 Hb13 Ha Hb.
  assert (Hk : encodable (a ++ [10%N] ++ b) = true).
  { rewrite !encodable_app, Ha, Hb. reflexivity. }
  rewrite set_api_key_encodable by done.
  split; [reflexivity|].
  pose proof (other_vars_of_clean s) as Hclean.
  unfold file_lines.
  cbn [snd manage_api_key_script.dot_env manage_api_key_script.say
       manage_api_key_script.set_dot_env].
  rewrite <- (read_lines_written _ Hclean).
  unfold manage_api_key_script.read_lines.
  assert (Hw : 13%N ∉ manage_api_key_script.write_vars (other_vars_of s)).
  { rewrite write_vars_kept. apply no_cr_concat. apply Forall_forall.
    intros l Hl. unfold kept_lines in Hl.
    apply list_elem_of_In, in_map_iff in Hl as (v & <- & Hv).
    apply filter_In in Hv as [Hv _]. apply list_elem_of_In in Hv.
    rewrite Forall_forall in Hclean.
    destruct (Hclean v Hv) as (_ & Hv13 & _).
    apply not_elem_of_app. split; [done|].
    apply not_elem_of_cons. split; [done | apply not_elem_of_nil]. }
  rewrite (translate_newlines_plain
             (manage_api_key_script.write_vars (other_vars_of s)) Hw).
  rewrite translate_newlines_plain.
  - replace (manage_api_key_script.key_prefix ++ (a ++ [10%N] ++ b)
               ++ [10%N] ++ manage_api_key_script.write_vars (other_vars_of s))
      with ((manage_api_key_script.key_prefix ++ a)
              ++ 10%N :: (b ++ 10%N
                            :: manage_api_key_script.write_vars
                                 (other_vars_of s)))
      by (by rewrite <- !app_assoc).
    rewrite lines_of_first.
    + rewrite lines_of_first by done. by rewrite <- app_assoc.
    + apply not_elem_of_app. split; [by apply not_elem_of_forallb | done].
  - rewrite !not_elem_of_app. split; [by apply not_elem_of_forallb|].
    split; [|split; [|done]].
    + split; [done|]. split; [|done].
      apply not_elem_of_cons. split; [done | apply not_elem_of_nil].
    + apply not_elem_of_cons. split; [done | apply not_elem_of_nil].
Qed.

Lemma set_api_key_line_feed_witness :
  file_lines
    (snd (manage_api_key_script.set_api_key
            (py "gsk_a" ++ [10%N] ++ py "MODE=single")
            (sample_state (Some (py "MODE=batch")) [])))
  = [py "GROQ_API_KEY=gsk_a" ++ [10%N]; py "MODE=single" ++ [10%N];
     py "MODE=batch" ++ [10%N]].
Proof.
  destruct (set_api_key_line_feed
              (sample_state (Some (py "MODE=batch")) [])
              (py "gsk_a") (py "MODE=single"))
    as [_ Hlines];
    [by apply not_elem_of_forallb .. | reflexivity | reflexivity |].
  rewrite Hlines. reflexivity.
Defined.

(** A key that cannot be encoded (it holds a lone surrogate, as an
    argument made of bytes that are no valid text does) destroys the
    file: [set_api_key] raises [UnicodeEncodeError] with [.env]
    emptied, or created empty, and nothing printed; the former key and
    every other variable are gone, and [view_api_key] afterwards
    falls back to the environment. *)
Theorem set_api_key_unencodable_key (s : manage_api_key_script.State)
  (k : str) :
  encodable k = false ->
  fst (manage_api_key_script.set_api_key k s) = Raise UnicodeEncodeError
  /\ manage_api_key_script.dot_env
       (snd (manage_api_key_script.set_api_key k s)) = Some []
  /\ manage_api_key_script.printed
       (snd (manage_api_key_script.set_api_key k s))
     = manage_api_key_script.printed s
  /\ manage_api_key_script.view_api_key
       (snd (manage_api_key_script.set_api_key k s))
     = Val (manage_api_key_script.say
              (environment_line (manage_api_key_script.environ_vars s))
              (snd (manage_api_key_script.set_api_key k s))).
Proof.
  intros Hk. rewrite set_api_key_not_encodable by done.
  cbn [fst snd]. split; [done|]. split; [done|]. split; [done|].
  unfold manage_api_key_script.view_api_key.
  cbn [manage_api_key_script.dot_env manage_api_key_script.set_dot_env
       manage_api_key_script.environ_vars fmap option_fmap option_map].
  erewrite view_api_key_no_entry; [|reflexivity | reflexivity].
  reflexivity.
Qed.

Lemma set_api_key_unencodable_key_witness :
  let s := sample_state
             (Some (py "GROQ_API_KEY=old" ++ [10%N] ++ py "MODE=batch"
                    ++ [10%N]))
             [] in
  fst (manage_api_key_script.set_api_key (py "ab" ++ [56575%N] ++ py "cd") s)
  = Raise UnicodeEncodeError
  /\ manage_api_key_script.dot_env
       (snd (manage_api_key_script.set_api_key
               (py "ab" ++ [56575%N] ++ py "cd") s))
     = Some [].
Proof.
  intros s.
  destruct (set_api_key_unencodable_key s (py "ab" ++ [56575%N] ++ py "cd"))
    as (Hraise & Hfile & _); [reflexivity|].
  split; [exact Hraise | exact Hfile].
Defined.

(** Whatever its arguments and however it ends, [main] leaves the
    environment alone, and it changes [.env] only for the command
    [set] with a key or for the command [remove]; without arguments,
    for [view], for [set] without a key and for an unknown command
    the file stays as it is. *)
Theorem main_rewrites_only_on_set_or_remove
  (s : manage_api_key_script.State) :
  manage_api_key_script.environ_vars (snd (manage_api_key_script.main s))
  = manage_api_key_script.environ_vars s
  /\ (manage_api_key_script.dot_env (snd (manage_api_key_script.main s))
      <> manage_api_key_script.dot_env s ->
      exists prog arg rest,
        manage_api_key_script.sys_argv s = prog :: arg :: rest
        /\ ((lower arg = py "set" /\ rest <> [])
            \/ lower arg = py "remove")).
Proof.
  unfold manage_api_key_script.main.
  destruct (manage_api_key_script.sys_argv s) as [|prog [|arg rest]] eqn:Hargv.
  - cbn [snd]. split; [reflexivity|]. by intros [].
  - cbn [snd]. split; [reflexivity|]. by intros [].
  - cbv zeta. repeat case_bool_decide.
    + unfold manage_api_key_script.view_api_key.
      destruct (view_api_key_value
                  {| manage_api_key.env_file :=
                       manage_api_key_script.read_lines
                         <$> manage_api_key_script.dot_env s;
                     manage_api_key.os_environ :=
                       manage_api_key_script.environ_vars s |})
        as [line ->].
      cbn [mbind snd]. split; [reflexivity|]. by intros [].
    + destruct rest as [|new_key rest].
      * cbn [snd]. split; [reflexivity|]. by intros [].
      * split; [apply environ_vars_set|].
        intros _. exists prog, arg, (new_key :: rest).
        split; [done|]. by left.
    + cbn [snd]. split; [apply environ_vars_remove|].
      intros _. exists prog, arg, rest. split; [done|]. by right.
    + cbn [snd]. split; [reflexivity|]. by intros [].
Qed.

Lemma main_rewrites_only_on_set_or_remove_witness :
  let s := sample_state (Some (py "MODE=batch"))
             [py "manage_api_key.py"; py "SET"; py "gsk_a"] in
  manage_api_key_script.dot_env (snd (manage_api_key_script.main s))
  = Some (py "GROQ_API_KEY=gsk_a" ++ [10%N] ++ py "MODE=batch" ++ [10%N])
  /\ exists prog arg rest,
       manage_api_key_script.sys_argv s = prog :: arg :: rest
       /\ ((lower arg = py "set" /\ rest <> []) \/ lower arg = py "remove").
Proof.
  intros s.
  destruct (main_rewrites_only_on_set_or_remove s) as [_ Hchange].
  assert (Hfile : manage_api_key_script.dot_env
                    (snd (manage_api_key_script.main s))
                  = Some (py "GROQ_API_KEY=gsk_a" ++ [10%N]
                          ++ py "MODE=batch" ++ [10%N]))
    by reflexivity.
  split; [exact Hfile|].
  apply Hchange. rewrite Hfile. discriminate.
Defined.

(** ** What a run touches *)

Section Effects.

Context `{JsonCodec}.

(** The three ways [extract_receipt_data] goes. *)
Lemma extract_receipt_data_cases (image_path : str) (api_key : option str)
  (w : World) :
  (or_else api_key (environ w !! GROQ_API_KEY) = None
   /\ exists msg,
        extract_receipt_data image_path api_key w
        = (Raise (GroqError msg), w))
  \/ (exists key e,
        or_else api_key (environ w !! GROQ_API_KEY) = Some key
        /\ read_bytes w image_path = Raise e
        /\ extract_receipt_data image_path api_key w = (Raise e, w))
  \/ (exists key data,
        or_else api_key (environ w !! GROQ_API_KEY) = Some key
        /\ read_bytes w image_path = Val data
        /\ extract_receipt_data image_path api_key w
           = match response_outcome
                     (service w (calls w) (request_for key data)) with
             | Val v => (Val v, after_call (request_for key data) w)
             | Raise e =>
                 (Val JNull,
                  after_error image_path e
                    (after_call (request_for key data) w))
             end).
Proof.
  destruct (or_else api_key (environ w !! GROQ_API_KEY)) as [key|] eqn:Hkey.
  - right. destruct (read_bytes w image_path) as [data|e] eqn:Hread.
    + right. exists key, data. split; [done|]. split; [done|].
      by rewrite (extract_receipt_data_run _ _ key data).
    + left. exists key, e. split; [done|]. split; [done|].
      by apply (extract_receipt_data_unreadable _ _ key).
  - left. split; [done|]. by apply extract_receipt_data_no_key.
Qed.

Lemma extract_receipt_data_effects (image_path : str) (api_key : option str)
  (w : World) :
  let w' := snd (extract_receipt_data image_path api_key w) in
  outputs w' = outputs w
  /\ environ w' = environ w
  /\ (length (calls w') <= S (length (calls w)))%nat.
Proof.
  cbv zeta.
  destruct (extract_receipt_data_cases image_path api_key w)
    as [(_ & msg & ->) | [(key & e & _ & _ & ->) | (key & data & _ & _ & ->)]];
    cbn [snd].
  - split; [done|]. split; [done | lia].
  - split; [done|]. split; [done | lia].
  - destruct (response_outcome _) as [v|e]; cbn [snd]; world_fields;
      (split; [done|]; split; [done|]); rewrite length_app; simpl; lia.
Qed.

(** What the loop of the batch touches, whatever happens in it. *)
Lemma write_text_run (path text : str) (w : World) :
  write_text path text w
  = match write_error w path with
    | Some e => (Raise e, w)
    | None =>
        if encodable text then
          (Val tt, set_outputs (fun o => <[path := Whole text]> o) w)
        else
          (Raise UnicodeEncodeError,
           set_outputs (fun o => <[path := Torn text]> o) w)
    end.
Proof. reflexivity. Qed.

(** Saving a record touches the file at its path only, however it
    ends. *)
Lemma json_dump_effects (path : str) (v : value) (w : World) :
  let w' := snd (json_dump path v w) in
  environ w' = environ w
  /\ calls w' = calls w
  /\ (forall path', path <> path' -> outputs w' !! path' = outputs w !! path').
Proof.
  cbv zeta. unfold json_dump. rewrite write_text_run.
  destruct (write_error w path) as [e|]; [done|].
  destruct (dump_error v) as [e|];
    [|destruct (encodable (dumps (Some 2%nat) false v))];
    cbn [snd]; world_fields;
    (split; [done|]; split; [done|]);
    intros path' Hpath; by rewrite lookup_insert_ne.
Qed.

Lemma print_json_effects (v : value) (w : World) :
  let w' := snd (print_json v w) in
  environ w' = environ w /\ calls w' = calls w /\ outputs w' = outputs w.
Proof.
  cbv zeta. unfold print_json. by destruct (dumps_error v).
Qed.

(** What the loop of the batch touches, whatever happens in it. *)
Lemma process_images_effects (image_files : list str) :
  forall (n : Z) (w : World),
    let w' := snd (process_images image_files n w) in
    environ w' = environ w
    /\ (length (calls w') <= length (calls w) + length image_files)%nat
    /\ (forall path,
          (forall p, p ∈ image_files -> get_json_filename p <> path) ->
          outputs w' !! path = outputs w !! path).
Proof.
  induction image_files as [|p rest IH]; intros n w; cbv zeta.
  - cbn [process_images]. unfold mret, M_ret. cbn [snd].
    split; [done|]. split; [lia | done].
  - destruct (process_images (p :: rest) n w) as [r w'] eqn:Hrun.
    cbn [snd]. cbn [process_images] in Hrun.
    rewrite bind_run, print_run in Hrun. rewrite bind_run in Hrun.
    match type of Hrun with
    | context [extract_receipt_data p None ?w0] =>
        pose proof (extract_receipt_data_effects p None w0) as (Ho & He & Hc);
        destruct (extract_receipt_data p None w0) as [[v|e] w1]
    end; cbn [snd] in Ho, He, Hc; world_fields.
    + destruct (truthy v).
      * rewrite bind_run in Hrun.
        pose proof (json_dump_effects (get_json_filename p) v w1)
          as (He1 & Hc1 & Ho1).
        destruct (json_dump (get_json_filename p) v w1) as [[[]|e] w2];
          cbn [snd] in He1, Hc1, Ho1.
        -- repeat (rewrite bind_run, print_run in Hrun).
           rewrite bind_run in Hrun.
           match type of Hrun with
           | context [print_json v ?w3] =>
               pose proof (print_json_effects v w3) as (He2 & Hc2 & Ho2);
               destruct (print_json v w3) as [[[]|e] w4]
           end; cbn [snd] in He2, Hc2, Ho2; world_fields.
           ++ pose proof (IH (n + 1) w4) as (He' & Hc' & Ho').
              rewrite Hrun in He', Hc', Ho'. cbn [snd] in He', Hc', Ho'.
              split; [congruence|].
              split; [rewrite Hc2, Hc1 in Hc'; simpl; lia|].
              intros path Hpath. rewrite Ho'.
              ** rewrite Ho2, Ho1; [by rewrite Ho|].
                 apply Hpath. apply elem_of_cons. by left.
              ** intros q Hq. apply Hpath. apply elem_of_cons. by right.
           ++ injection Hrun as <- <-.
              split; [congruence|].
              split; [rewrite Hc2, Hc1; simpl; lia|].
              intros path Hpath. rewrite Ho2, Ho1; [by rewrite Ho|].
              apply Hpath. apply elem_of_cons. by left.
        -- injection Hrun as <- <-.
           split; [congruence|]. split; [rewrite Hc1; simpl; lia|].
           intros path Hpath. rewrite Ho1; [by rewrite Ho|].
           apply Hpath. apply elem_of_cons. by left.
      * rewrite bind_run, print_run in Hrun.
        match type of Hrun with
        | process_images rest n ?w2 = _ =>
            pose proof (IH n w2) as (He' & Hc' & Ho')
        end.
        rewrite Hrun in He', Hc', Ho'. cbn [snd] in He', Hc', Ho'.
        world_fields. split; [by rewrite He'|].
        split; [simpl; lia|].
        intros path Hpath. rewrite Ho'; [by rewrite Ho|].
        intros q Hq. apply Hpath. apply elem_of_cons. by right.
    + injection Hrun as <- <-. split; [done|]. split; [simpl; lia|].
      intros path _. by rewrite Ho.
Qed.

Lemma process_all_receipts_effects (directory : str) (w : World) :
  let w' := snd (process_all_receipts directory w) in
  environ w' = environ w
  /\ (length (calls w')
      <= length (calls w) + length (discovered w directory))%nat
  /\ (forall path,
        (forall p, p ∈ discovered w directory ->
                   get_json_filename p <> path) ->
        outputs w' !! path = outputs w !! path).
Proof.
  cbv zeta.
  destruct (process_all_receipts directory w) as [r w'] eqn:Hrun.
  cbn [snd]. unfold process_all_receipts in Hrun.
  rewrite bind_run, find_image_files_run in Hrun.
  fold (discovered w directory) in Hrun.
  destruct (discovered w directory) as [|p rest].
  - rewrite print_run in Hrun. injection Hrun as <- <-. world_fields.
    split; [done|]. split; [lia | done].
  - cbv iota in Hrun. set (image_files := p :: rest) in *.
    rewrite bind_run, print_run in Hrun. rewrite bind_run in Hrun.
    match type of Hrun with
    | context [process_images image_files 0 ?w1] =>
        pose proof (process_images_effects image_files 0 w1)
          as (He & Hc & Ho);
        destruct (process_images image_files 0 w1) as [[c|e] w2]
    end; cbn [snd] in He, Hc, Ho; world_fields.
    + repeat (rewrite bind_run, print_run in Hrun).
      rewrite print_run in Hrun. injection Hrun as <- <-.
      world_fields. done.
    + injection Hrun as <- <-. done.
Qed.

End Effects.

(** [extract_receipt_data] raises only before it contacts the
    service: when no key can be resolved, or when the image cannot be
    read (the exception of the reading, as it is).  Then no request
    has been sent and nothing printed or written. *)
Theorem extract_receipt_data_raises_early `{JsonCodec} (image_path : str)
  (api_key : option str) (w : World) (e : exn) :
  fst (extract_receipt_data image_path api_key w) = Raise e ->
  snd (extract_receipt_data image_path api_key w) = w
  /\ (or_else api_key (environ w !! GROQ_API_KEY) = None
      \/ read_bytes w image_path = Raise e).
Proof.
  destruct (extract_receipt_data_cases image_path api_key w)
    as [(Hkey & msg & ->) | [(key & e' & _ & Hread & ->)
                            | (key & data & _ & _ & ->)]];
    cbn [fst snd].
  - intros _. split; [done | by left].
  - intros [= ->]. split; [done | by right].
  - by destruct (response_outcome _).
Qed.

Lemma extract_receipt_data_raises_early_witness :
  let w := sample_world [] None {[ GROQ_API_KEY := py "gsk_test" ]}
             [py "receipt.jpg"] [] [py "receipt.jpg"]
             [Val [Some sample_response]] in
  snd (@extract_receipt_data reference_codec (py "receipt.jpg") None w) = w
  /\ (or_else None (environ w !! GROQ_API_KEY) = None
      \/ read_bytes w (py "receipt.jpg")
         = Raise (OSError (py "[Errno 13] Permission denied"))).
Proof.
  intros w.
  apply (@extract_receipt_data_raises_early reference_codec
           (py "receipt.jpg") None w
           (OSError (py "[Errno 13] Permission denied"))).
  vm_compute. reflexivity.
Defined.

(** With a key and a readable image [extract_receipt_data] always
    returns, whatever the service does: it sends exactly one request,
    carrying the key, the prompt and the image in base 64; it prints
    at most one line, the log of a failure; it writes no file and
    leaves the environment alone. *)
Theorem extract_receipt_data_sends_one_request `{JsonCodec}
  (image_path : str) (api_key : option str) (key : str)
  (data : list Byte.byte) (w : World) :
  or_else api_key (environ w !! GROQ_API_KEY) = Some key ->
  read_bytes w image_path = Val data ->
  exists (v : value) (w' : World),
    extract_receipt_data image_path api_key w = (Val v, w')
    /\ calls w' = calls w ++ [request_for key data]
    /\ outputs w' = outputs w
    /\ environ w' = environ w
    /\ (stdout w' = stdout w
        \/ exists e, v = JNull /\ stdout w' = stdout w ++ [error_line image_path e]).
Proof.
  intros Hkey Hread.
  rewrite (extract_receipt_data_run _ _ key data) by done. cbv zeta.
  destruct (response_outcome _) as [v|e].
  - exists v. eexists. split; [reflexivity|]. world_fields.
    repeat split; try done. by left.
  - exists JNull. eexists. split; [reflexivity|]. world_fields.
    repeat split; try done. right. by exists e.
Qed.

Lemma extract_receipt_data_sends_one_request_witness :
  let w := sample_world [] None {[ GROQ_API_KEY := py "gsk_test" ]}
             [py "receipt.jpg"] [] []
             [Raise (OtherException (py "RateLimitError")
                       (py "Error code: 429"))] in
  exists v w',
    @extract_receipt_data reference_codec (py "receipt.jpg") None w
    = (Val v, w')
    /\ calls w' = [@request_for reference_codec (py "gsk_test") sample_image].
Proof.
  intros w.
  destruct (@extract_receipt_data_sends_one_request reference_codec
              (py "receipt.jpg") None (py "gsk_test") sample_image w)
    as (v & w' & Hrun & Hcalls & _).
  - vm_compute. reflexivity.
  - vm_compute. reflexivity.
  - exists v, w'. split; [exact Hrun | exact Hcalls].
Defined.

(** The batch writes no file but the outputs of the images it found:
    a path that is the output name of none of them holds after the
    run what it held before, also when the run ends with an
    exception. *)
Theorem batch_writes_only_outputs_of_images `{JsonCodec} (directory : str)
  (w : World) (path : str) :
  (forall p, p ∈ discovered w directory -> get_json_filename p <> path) ->
  outputs (snd (process_all_receipts directory w)) !! path
  = outputs w !! path.
Proof.
  intros Hpath.
  destruct (process_all_receipts_effects directory w) as (_ & _ & Ho).
  by apply Ho.
Qed.

Lemma batch_writes_only_outputs_of_images_witness :
  let w := sample_world [py "receipt_extractor.py"] None
             {[ GROQ_API_KEY := py "gsk_test" ]}
             [py "a.jpg"; py "notes.txt"] [] []
             [Val [Some sample_response]] in
  outputs (snd (@process_all_receipts reference_codec (py ".") w))
    !! py "notes.json" = None.
Proof.
  intros w.
  rewrite (@batch_writes_only_outputs_of_images reference_codec (py ".") w
             (py "notes.json")).
  - reflexivity.
  - intros p Hp. vm_compute in Hp.
    repeat (apply elem_of_cons in Hp as [-> | Hp];
            [vm_compute; discriminate|]).
    by apply elem_of_nil in Hp.
Defined.

(** The batch sends at most one request for each image it found and
    never changes the environment, whatever the service answers and
    however the run ends. *)
Theorem batch_sends_at_most_one_request_per_image `{JsonCodec}
  (directory : str) (w : World) :
  (length (calls (snd (process_all_receipts directory w)))
   <= length (calls w) + length (discovered w directory))%nat
  /\ environ (snd (process_all_receipts directory w)) = environ w.
Proof.
  destruct (process_all_receipts_effects directory w) as (He & Hc & _).
  split; [exact Hc | exact He].
Qed.

(** ** Where the records go *)

Section OutputFacts.

Import posixpath.

Lemma cut_last_dot_app (s a b : str) :
  cut_last_dot s = Some (a, b) -> s = a ++ b.
Proof.
  revert a b. induction s as [|c s IH]; intros a b; simpl; [done|].
  destruct (cut_last_dot s) as [[a' b']|].
  - intros [= <- <-]. simpl. by rewrite (IH a' b').
  - destruct (c =? 46)%N; [|done]. by intros [= <- <-].
Qed.

(** The name without its extension is a prefix of the name. *)
Lemma without_extension_prefix (name : str) :
  exists ext, name = without_extension name ++ ext.
Proof.
  unfold without_extension.
  destruct (cut_last_dot name) as [[root ext]|] eqn:Hcut.
  - destruct (forallb _ root).
    + exists []. by rewrite app_nil_r.
    + exists ext. by apply cut_last_dot_app.
  - exists []. by rewrite app_nil_r.
Qed.

Lemma get_json_filename_no_sep (p : str) : sep ∉ get_json_filename p.
Proof.
  unfold get_json_filename.
  rewrite splitext_without_extension by apply basename_no_sep.
  pose proof (basename_no_sep p) as Hbase.
  destruct (without_extension_prefix (basename p)) as [ext Hext].
  rewrite Hext in Hbase. apply not_elem_of_app in Hbase as [Hstem _].
  apply not_elem_of_app. split; [done|]. by apply not_elem_of_forallb.
Qed.

End OutputFacts.

(** The output name has no directory part and ends with [.json]:
    whatever directory the image is in, its record is written into
    the working directory of the process. *)
Theorem get_json_filename_in_working_directory (p : str) :
  (posixpath.sep ∉ get_json_filename p)
  /\ posixpath.basename (get_json_filename p) = get_json_filename p
  /\ endswith (get_json_filename p) (py ".json") = true.
Proof.
  split; [apply get_json_filename_no_sep|]. split.
  - apply basename_absent, get_json_filename_no_sep.
  - unfold get_json_filename, endswith. rewrite rev_app_distr.
    apply startswith_app.
Qed.

(** Reading a field of a world behind many updates, one update at a
    time. *)
Ltac world_simpl :=
  cbn [stdout calls outputs environ service read_bytes write_error scandir
       argv dotenv path_exists set_stdout set_outputs set_calls set_environ
       after_call after_error] in *.

Section ResultFiles.

Context `{JsonCodec}.

(** The head of [main] when the key is set and a path is given. *)
Lemma main_with_path (w : World) (prog image_path : str) (more : list str)
  (key : str) :
  environ w !! GROQ_API_KEY = Some key ->
  key <> [] ->
  argv w = prog :: image_path :: more ->
  main w
  = if path_exists w image_path then
      (print (py "Processing single file: " ++ image_path);;
       result ← extract_receipt_data image_path None;
       if truthy result then
         print ([10%N] ++ py "Extracted data:");;
         print_json result;;
         json_dump (get_json_filename image_path) result;;
         print ([10%N; check_mark] ++ py " Result saved to "
                ++ get_json_filename image_path)
       else print (py "Failed to extract data")) w
    else print (py "File not found: " ++ image_path) w.
Proof.
  intros Hkey Hnonempty Hargv.
  unfold main. rewrite bind_run. unfold environ_get at 1, get at 1.
  cbv beta. rewrite Hkey.
  destruct key as [|c key]; [done|]. cbn [is_set negb].
  rewrite bind_run. unfold get at 1. rewrite Hargv. cbv beta iota.
  rewrite bind_run. unfold get at 1. cbv beta iota.
  by destruct (path_exists w image_path).
Qed.

End ResultFiles.

(** The run on a single file, with the key set.  A path that does not
    exist is reported, and nothing is sent or written.  An existing
    path that cannot be read ends the run with the exception of the
    reading.  When the answer yields a value that counts as true and
    can be saved (the encoder returns on it, and its text can be
    encoded in UTF-8), the value is written, indented and with its
    characters as they are, under the output name in the working
    directory, after one request.  A value that counts as true but
    holds a lone surrogate ends the run with [UnicodeEncodeError]
    after the value was printed: the output file is left broken off
    and the line that reports the saving is not printed.  Arguments
    after the path are ignored. *)
Theorem main_single_file `{JsonCodec} (w : World) (prog image_path : str)
  (more : list str) (key : str) :
  environ w !! GROQ_API_KEY = Some key ->
  key <> [] ->
  argv w = prog :: image_path :: more ->
  (path_exists w image_path = false ->
   main w
   = (Val tt,
      set_stdout (fun out => out ++ [py "File not found: " ++ image_path]) w))
  /\ (forall e,
        path_exists w image_path = true ->
        read_bytes w image_path = Raise e ->
        main w
        = (Raise e,
           set_stdout
             (fun out => out ++ [py "Processing single file: " ++ image_path])
             w))
  /\ (forall data v,
        path_exists w image_path = true ->
        read_bytes w image_path = Val data ->
        response_outcome (service w (calls w) (request_for key data))
        = Val v ->
        truthy v = true ->
        write_error w (get_json_filename image_path) = None ->
        can_be_saved v ->
        exists w',
          main w = (Val tt, w')
          /\ outputs w'
             = <[get_json_filename image_path
                 := Whole (dumps (Some 2%nat) false v)]> (outputs w)
          /\ calls w' = calls w ++ [request_for key data]
          /\ stdout w'
             = stdout w
               ++ [py "Processing single file: " ++ image_path;
                   [10%N] ++ py "Extracted data:";
                   dumps (Some 2%nat) true v;
                   [10%N; check_mark] ++ py " Result saved to "
                   ++ get_json_filename image_path])
  /\ (forall data v,
        path_exists w image_path = true ->
        read_bytes w image_path = Val data ->
        response_outcome (service w (calls w) (request_for key data))
        = Val v ->
        truthy v = true ->
        write_error w (get_json_filename image_path) = None ->
        dumps_error v = None ->
        dump_error v = None ->
        encodable (dumps (Some 2%nat) false v) = false ->
        exists w',
          main w = (Raise UnicodeEncodeError, w')
          /\ outputs w'
             = <[get_json_filename image_path
                 := Torn (dumps (Some 2%nat) false v)]> (outputs w)
          /\ calls w' = calls w ++ [request_for key data]
          /\ stdout w'
             = stdout w
               ++ [py "Processing single file: " ++ image_path;
                   [10%N] ++ py "Extracted data:";
                   dumps (Some 2%nat) true v]).
Proof.
  intros Hkey Hnonempty Hargv.
  rewrite (main_with_path w prog image_path more key) by done.
  split; [|split; [|split]].
  - intros ->. reflexivity.
  - intros e -> Hread. rewrite bind_run, print_run. rewrite bind_run.
    rewrite (extract_receipt_data_unreadable _ None key e);
      [reflexivity | by simpl; rewrite Hkey | done].
  - intros data v -> Hread Houtcome Htruthy Hwrite (Hdump & Hdumps & Hutf8).
    rewrite bind_run, print_run. rewrite bind_run.
    rewrite (extract_receipt_data_run _ None key data);
      [| by simpl; rewrite Hkey | done].
    cbv zeta. simpl (service _). simpl (calls (set_stdout _ _)).
    rewrite Houtcome, Htruthy.
    rewrite bind_run, print_run.
    rewrite bind_run, (print_json_run v _ Hdumps).
    rewrite bind_run, json_dump_saved;
      [| exact Hwrite | exact Hdump | exact Hutf8].
    rewrite print_run. eexists. split; [reflexivity|]. world_simpl.
    split; [done|]. split; [done|]. by rewrite <- !app_assoc.
  - intros data v -> Hread Houtcome Htruthy Hwrite Hdumps Hdump Hutf8.
    rewrite bind_run, print_run. rewrite bind_run.
    rewrite (extract_receipt_data_run _ None key data);
      [| by simpl; rewrite Hkey | done].
    cbv zeta. simpl (service _). simpl (calls (set_stdout _ _)).
    rewrite Houtcome, Htruthy.
    rewrite bind_run, print_run.
    rewrite bind_run, (print_json_run v _ Hdumps).
    rewrite bind_run. unfold json_dump. rewrite write_text_run.
    world_simpl. rewrite Hwrite, Hdump, Hutf8.
    eexists. split; [reflexivity|]. world_simpl.
    split; [done|]. split; [done|]. by rewrite <- !app_assoc.
Qed.

Lemma main_single_file_witness :
  let w := sample_world
             [py "receipt_extractor.py"; py "scans/receipt.jpg"; py "more"]
             None {[ GROQ_API_KEY := py "gsk_test" ]} [] [] []
             [Val [Some sample_response]] in
  let w_surrogate :=
    sample_world [py "receipt_extractor.py"; py "scans/receipt.jpg"]
      None {[ GROQ_API_KEY := py "gsk_test" ]} [] [] []
      [Val [Some (refjson.dumps None true surrogate_record)]] in
  (exists w',
     @main reference_codec w = (Val tt, w')
     /\ outputs w'
        = {[ py "receipt.json"
             := Whole (refjson.dumps (Some 2%nat) false sample_record) ]}
     /\ length (calls w') = 1%nat)
  /\ (exists w',
        @main reference_codec w_surrogate = (Raise UnicodeEncodeError, w')
        /\ outputs w'
           = {[ py "receipt.json"
                := Torn (refjson.dumps (Some 2%nat) false surrogate_record) ]}
        /\ length (calls w') = 1%nat).
Proof.
  intros w w_surrogate. split.
  - destruct (@main_single_file reference_codec w (py "receipt_extractor.py")
                (py "scans/receipt.jpg") [py "more"] (py "gsk_test"))
      as (_ & _ & Hsuccess & _).
    + vm_compute. reflexivity.
    + discriminate.
    + reflexivity.
    + destruct (Hsuccess sample_image sample_record)
        as (w' & Hmain & Hout & Hcalls & _).
      * reflexivity.
      * reflexivity.
      * vm_compute. reflexivity.
      * reflexivity.
      * reflexivity.
      * repeat split; vm_compute; reflexivity.
      * exists w'. split; [exact Hmain|]. split.
        -- rewrite Hout. reflexivity.
        -- rewrite Hcalls. reflexivity.
  - destruct (@main_single_file reference_codec w_surrogate
                (py "receipt_extractor.py") (py "scans/receipt.jpg") []
                (py "gsk_test"))
      as (_ & _ & _ & Hbroken).
    + vm_compute. reflexivity.
    + discriminate.
    + reflexivity.
    + destruct (Hbroken sample_image surrogate_record)
        as (w' & Hmain & Hout & Hcalls & _).
      * reflexivity.
      * reflexivity.
      * vm_compute. reflexivity.
      * reflexivity.
      * reflexivity.
      * reflexivity.
      * reflexivity.
      * vm_compute. reflexivity.
      * exists w'. split; [exact Hmain|]. split.
        -- rewrite Hout. reflexivity.
        -- rewrite Hcalls. reflexivity.
Defined.

(** Two images whose output names are the same (as [a.jpg] and
    [a.png], or [x/a.jpg] and [y/a.jpg]) share one output file: when
    both extractions succeed and both records can be saved, both are
    counted, and the file holds the record of the later one only. *)
Theorem later_image_overwrites_earlier `{JsonCodec} (p q : str)
  (rest : list str) (n : Z) (key : str) (d1 d2 : list Byte.byte)
  (v1 v2 : value) (w : World) :
  environ w !! GROQ_API_KEY = Some key ->
  read_bytes w p = Val d1 ->
  read_bytes w q = Val d2 ->
  write_error w (get_json_filename p) = None ->
  get_json_filename q = get_json_filename p ->
  response_outcome (service w (calls w) (request_for key d1)) = Val v1 ->
  truthy v1 = true ->
  can_be_saved v1 ->
  response_outcome
    (service w (calls w ++ [request_for key d1]) (request_for key d2))
  = Val v2 ->
  truthy v2 = true ->
  can_be_saved v2 ->
  exists w2,
    process_images (p :: q :: rest) n w = process_images rest (n + 2) w2
    /\ outputs w2
       = <[get_json_filename p := Whole (dumps (Some 2%nat) false v2)]>
           (outputs w)
    /\ calls w2 = calls w ++ [request_for key d1; request_for key d2].
Proof.
  intros Hkey Hread1 Hread2 Hwrite Hsame Hout1 Hv1 (Hd1 & Hds1 & He1)
    Hout2 Hv2 (Hd2 & Hds2 & He2).
  rewrite (process_images_step p _ n key d1) by done.
  cbv zeta. rewrite Hout1, Hv1.
  rewrite bind_run, json_dump_saved; [| exact Hwrite | exact Hd1 | exact He1].
  repeat (rewrite bind_run, print_run).
  rewrite bind_run, (print_json_run v1 _ Hds1).
  rewrite (process_images_step q rest (n + 1) key d2);
    [| exact Hkey | exact Hread2].
  cbv zeta. world_simpl. rewrite Hout2, Hv2.
  rewrite Hsame.
  rewrite bind_run, json_dump_saved; [| exact Hwrite | exact Hd2 | exact He2].
  repeat (rewrite bind_run, print_run).
  rewrite bind_run, (print_json_run v2 _ Hds2).
  replace (n + 2) with (n + 1 + 1) by lia.
  eexists. split; [reflexivity|]. world_simpl.
  split; [by rewrite insert_insert_eq | by rewrite <- app_assoc].
Qed.

Lemma later_image_overwrites_earlier_witness :
  let first := JObject [(py "vatNumber", JString (py "SK1"))] in
  let second := JObject [(py "vatNumber", JString (py "SK2"))] in
  let w := sample_world [py "receipt_extractor.py"] None
             {[ GROQ_API_KEY := py "gsk_test" ]}
             [py "a.jpg"; py "a.png"] [] []
             [Val [Some (refjson.dumps None true first)];
              Val [Some (refjson.dumps None true second)]] in
  discovered w (py ".") = [py "./a.jpg"; py "./a.png"]
  /\ exists w2,
       @process_images reference_codec [py "./a.jpg"; py "./a.png"] 0 w
       = (Val 2, w2)
       /\ outputs w2
          = {[ py "a.json"
               := Whole (refjson.dumps (Some 2%nat) false second) ]}.
Proof.
  intros first second w. split; [vm_compute; reflexivity|].
  destruct (@later_image_overwrites_earlier reference_codec
              (py "./a.jpg") (py "./a.png") [] 0 (py "gsk_test")
              sample_image sample_image first second w)
    as (w2 & Hrun & Hout & _);
    try (vm_compute; reflexivity);
    try (split; [|split]; vm_compute; reflexivity).
  exists w2. split; [exact Hrun|]. rewrite Hout. reflexivity.
Defined.

(** [process_all_receipts] called without a key in the environment
    raises at the first image it found: the exception of the client
    is not caught, and no request is sent. *)
Theorem batch_without_key_raises `{JsonCodec} (directory : str) (w : World)
  (p : str) (rest : list str) :
  environ w !! GROQ_API_KEY = None ->
  discovered w directory = p :: rest ->
  exists msg,
    process_all_receipts directory w
    = (Raise (GroqError msg),
       set_stdout
         (fun out =>
            out ++ [py "Found " ++ str_of_Z (Z.of_nat (length (p :: rest)))
                    ++ py " image(s) to process";
                    processing_line p]) w).
Proof.
  intros Hkey Hfound. unfold process_all_receipts.
  rewrite bind_run, find_image_files_run. fold (discovered w directory).
  rewrite Hfound. cbv iota. rewrite bind_run, print_run. rewrite bind_run.
  cbn [process_images]. rewrite bind_run, print_run. rewrite bind_run.
  match goal with
  | |- context [extract_receipt_data p None ?w0] =>
      destruct (extract_receipt_data_no_key p None w0) as [msg Hraise]
  end.
  - world_fields. by rewrite Hkey.
  - rewrite Hraise. exists msg. world_fields.
    by rewrite <- app_assoc.
Qed.

Lemma batch_without_key_raises_witness :
  let w := sample_world [py "receipt_extractor.py"] None ∅
             [py "a.jpg"] [] [] [Val [Some sample_response]] in
  exists msg,
    fst (@process_all_receipts reference_codec (py ".") w)
    = Raise (GroqError msg)
    /\ calls (snd (@process_all_receipts reference_codec (py ".") w)) = [].
Proof.
  intros w.
  destruct (@batch_without_key_raises reference_codec (py ".") w
              (py "./a.jpg") [])
    as [msg Hrun].
  - reflexivity.
  - vm_compute. reflexivity.
  - exists msg. rewrite Hrun. split; reflexivity.
Defined.

(** ** The image in base 64 *)

Section Base64Facts.

Import base64.

Lemma list_ind3 {A : Type} (P : list A -> Prop) :
  P [] -> (forall a, P [a]) -> (forall a b, P [a; b]) ->
  (forall a b c l, P l -> P (a :: b :: c :: l)) ->
  forall l, P l.
Proof.
  intros H0 H1 H2 H3 l.
  assert (Hall : P l /\ (forall a, P (a :: l)) /\ (forall a b, P (a :: b :: l))).
  { induction l as [|x l (IH0 & IH1 & IH2)]; [done|].
    split; [apply IH1|]. split; [intros a; apply IH2|].
    intros a b. by apply H3. }
  apply Hall.
Qed.

Lemma b64encode_1 (a : Byte.byte) :
  b64encode [a]
  = [alphabet (Byte.to_N a * 65536 / 262144);
     alphabet (Byte.to_N a * 65536 / 4096 mod 64); pad; pad]%N.
Proof. reflexivity. Qed.

Lemma b64encode_2 (a b : Byte.byte) :
  b64encode [a; b]
  = [alphabet ((Byte.to_N a * 65536 + Byte.to_N b * 256) / 262144);
     alphabet ((Byte.to_N a * 65536 + Byte.to_N b * 256) / 4096 mod 64);
     alphabet ((Byte.to_N a * 65536 + Byte.to_N b * 256) / 64 mod 64);
     pad]%N.
Proof. reflexivity. Qed.

Lemma b64encode_3 (a b c : Byte.byte) (rest : list Byte.byte) :
  b64encode (a :: b :: c :: rest)
  = [alphabet ((Byte.to_N a * 65536 + Byte.to_N b * 256 + Byte.to_N c)
               / 262144);
     alphabet ((Byte.to_N a * 65536 + Byte.to_N b * 256 + Byte.to_N c)
               / 4096 mod 64);
     alphabet ((Byte.to_N a * 65536 + Byte.to_N b * 256 + Byte.to_N c)
               / 64 mod 64);
     alphabet ((Byte.to_N a * 65536 + Byte.to_N b * 256 + Byte.to_N c)
               mod 64)]%N
    ++ b64encode rest.
Proof. reflexivity. Qed.

Lemma alphabet_inj (m n : N) :
  (m < 64)%N -> (n < 64)%N -> alphabet m = alphabet n -> m = n.
Proof.
  unfold alphabet. intros Hm Hn.
  repeat match goal with
         | |- context [(?a <? ?b)%N] => destruct (N.ltb_spec a b)
         | |- context [(?a =? ?b)%N] => destruct (N.eqb_spec a b)
         end; lia.
Qed.

Lemma alphabet_not_pad (n : N) : (n < 64)%N -> alphabet n <> pad.
Proof.
  unfold alphabet, pad. intros Hn.
  repeat match goal with
         | |- context [(?a <? ?b)%N] => destruct (N.ltb_spec a b)
         | |- context [(?a =? ?b)%N] => destruct (N.eqb_spec a b)
         end; lia.
Qed.

Lemma alphabet_base64_char (n : N) : base64_char (alphabet n) = true.
Proof.
  unfold alphabet, base64_char.
  repeat match goal with
         | |- context [(?a <? ?b)%N] => destruct (N.ltb_spec a b)
         | |- context [(?a =? ?b)%N] => destruct (N.eqb_spec a b)
         end;
    rewrite ?orb_true_iff, ?andb_true_iff, ?N.leb_le, ?N.eqb_eq; lia.
Qed.

Lemma to_N_inj (a b : Byte.byte) : Byte.to_N a = Byte.to_N b -> a = b.
Proof.
  intros Hab. pose proof (Byte.of_to_N a) as Ha.
  rewrite Hab, Byte.of_to_N in Ha. by injection Ha.
Qed.

Lemma sextet_bound (n : N) : (n mod 64 < 64)%N.
Proof. apply N.mod_lt. done. Qed.

Lemma first_sextet_bound (n : N) : (n < 16777216)%N -> (n / 262144 < 64)%N.
Proof. intros Hn. apply N.Div0.div_lt_upper_bound. lia. Qed.

(** Four sextets determine the 24 bits they were cut from. *)
Lemma sextets_inj (m n : N) :
  (m < 16777216)%N -> (n < 16777216)%N ->
  (m / 262144 = n / 262144)%N ->
  (m / 4096 mod 64 = n / 4096 mod 64)%N ->
  (m / 64 mod 64 = n / 64 mod 64)%N ->
  (m mod 64 = n mod 64)%N ->
  m = n.
Proof. intros. zify. Z.to_euclidean_division_equations. lia. Qed.

Lemma b64encode_inj (d1 : list Byte.byte) :
  forall d2, b64encode d1 = b64encode d2 -> d1 = d2.
Proof.
  induction d1 as [|a|a b|a b c rest IH] using list_ind3;
    intros [|a' [|b' [|c' rest']]];
    rewrite ?b64encode_1, ?b64encode_2, ?b64encode_3; cbn [app];
    intros Heq; try discriminate; try done.
  all: pose proof (Byte.to_N_bounded a) as Ba;
    pose proof (Byte.to_N_bounded a') as Ba'.
  all: try (pose proof (Byte.to_N_bounded b) as Bb).
  all: try (pose proof (Byte.to_N_bounded b') as Bb').
  all: try (pose proof (Byte.to_N_bounded c) as Bc).
  all: try (pose proof (Byte.to_N_bounded c') as Bc').
  - injection Heq as H1 H2.
    apply alphabet_inj in H1;
      [| apply first_sextet_bound; lia | apply first_sextet_bound; lia].
    apply alphabet_inj in H2; [| apply sextet_bound..].
    f_equal. apply to_N_inj.
    zify. Z.to_euclidean_division_equations. lia.
  - injection Heq as _ _ H3. exfalso.
    symmetry in H3. by apply alphabet_not_pad in H3; [|apply sextet_bound].
  - injection Heq as _ _ H3. exfalso.
    symmetry in H3. by apply alphabet_not_pad in H3; [|apply sextet_bound].
  - injection Heq as _ _ H3. exfalso.
    by apply alphabet_not_pad in H3; [|apply sextet_bound].
  - injection Heq as H1 H2 H3.
    apply alphabet_inj in H1;
      [| apply first_sextet_bound; lia | apply first_sextet_bound; lia].
    apply alphabet_inj in H2; [| apply sextet_bound..].
    apply alphabet_inj in H3; [| apply sextet_bound..].
    assert (Byte.to_N a = Byte.to_N a' /\ Byte.to_N b = Byte.to_N b')
      as [Ha Hb] by (zify; Z.to_euclidean_division_equations; lia).
    apply to_N_inj in Ha, Hb. by subst.
  - injection Heq as _ _ _ H4. exfalso.
    symmetry in H4. by apply alphabet_not_pad in H4; [|apply sextet_bound].
  - injection Heq as _ _ H3. exfalso.
    by apply alphabet_not_pad in H3; [|apply sextet_bound].
  - injection Heq as _ _ _ H4. exfalso.
    by apply alphabet_not_pad in H4; [|apply sextet_bound].
  - injection Heq as H1 H2 H3 H4 Hrest.
    apply alphabet_inj in H1;
      [| apply first_sextet_bound; lia | apply first_sextet_bound; lia].
    apply alphabet_inj in H2; [| apply sextet_bound..].
    apply alphabet_inj in H3; [| apply sextet_bound..].
    apply alphabet_inj in H4; [| apply sextet_bound..].
    assert (Hm : (Byte.to_N a * 65536 + Byte.to_N b * 256 + Byte.to_N c
                  < 16777216)%N) by lia.
    assert (Hm' : (Byte.to_N a' * 65536 + Byte.to_N b' * 256 + Byte.to_N c'
                   < 16777216)%N) by lia.
    pose proof (sextets_inj _ _ Hm Hm' H1 H2 H3 H4) as Hn.
    assert (Byte.to_N a = Byte.to_N a' /\ Byte.to_N b = Byte.to_N b'
            /\ Byte.to_N c = Byte.to_N c')
      as (Ha & Hb & Hc) by lia.
    apply to_N_inj in Ha, Hb, Hc. subst. by rewrite (IH rest').
Qed.

Lemma b64encode_length (data : list Byte.byte) :
  length (b64encode data) = (4 * ((length data + 2) / 3))%nat.
Proof.
  induction data as [|a|a b|a b c rest IH] using list_ind3; try reflexivity.
  rewrite b64encode_3, length_app, IH. cbn [length].
  replace (S (S (S (length rest))) + 2)%nat
    with (length rest + 2 + 1 * 3)%nat by lia.
  rewrite Nat.div_add by lia. lia.
Qed.

Lemma b64encode_chars (data : list Byte.byte) :
  forallb base64_char (b64encode data) = true.
Proof.
  induction data as [|a|a b|a b c rest IH] using list_ind3.
  - reflexivity.
  - rewrite b64encode_1. cbn [forallb].
    by rewrite !alphabet_base64_char.
  - rewrite b64encode_2. cbn [forallb].
    by rewrite !alphabet_base64_char.
  - rewrite b64encode_3. cbn [app forallb].
    by rewrite !alphabet_base64_char, IH.
Qed.

End Base64Facts.

(** [encode_image] gives, for a readable file of [n] bytes, a text of
    [4 * ceil(n/3)] characters, all of them letters, digits, [+], [/]
    or [=]; for an unreadable file it raises the exception of the
    reading.  It changes nothing. *)
Theorem encode_image_text (image_path : str) (w : World) :
  match read_bytes w image_path with
  | Val data =>
      exists text,
        encode_image image_path w = (Val text, w)
        /\ length text = (4 * ((length data + 2) / 3))%nat
        /\ forallb base64_char text = true
  | Raise e => encode_image image_path w = (Raise e, w)
  end.
Proof.
  unfold encode_image. rewrite bind_run.
  destruct (read_bytes w image_path) as [data|e]; [|reflexivity].
  exists (base64.b64encode data). split; [reflexivity|].
  split; [apply b64encode_length | apply b64encode_chars].
Qed.

(** The encoding loses nothing: two readable files are encoded to the
    same text only when they hold the same bytes, so the requests for
    images that differ differ. *)
Theorem encode_image_injective `{JsonCodec} (p1 p2 key : str)
  (w1 w2 : World) (d1 d2 : list Byte.byte) :
  read_bytes w1 p1 = Val d1 ->
  read_bytes w2 p2 = Val d2 ->
  (fst (encode_image p1 w1) = fst (encode_image p2 w2) -> d1 = d2)
  /\ (request_for key d1 = request_for key d2 -> d1 = d2).
Proof.
  intros Hread1 Hread2. split.
  - unfold encode_image. rewrite !bind_run, Hread1, Hread2. cbn [fst].
    unfold mret, M_ret. intros [= Heq]. by apply b64encode_inj.
  - unfold request_for, extraction_request. intros [= Heq].
    by apply b64encode_inj.
Qed.

Lemma encode_image_injective_witness :
  let w := sample_world [] None ∅ [] [] [] [] in
  (fst (encode_image (py "a.jpg") w) = fst (encode_image (py "b.jpg") w) ->
   sample_image = sample_image)
  /\ fst (encode_image (py "a.jpg") w) = Val (py "/9j/4A==").
Proof.
  intros w.
  destruct (@encode_image_injective reference_codec (py "a.jpg") (py "b.jpg")
              (py "gsk_test") w w sample_image sample_image)
    as [Hsame _]; [reflexivity | reflexivity |].
  split; [exact Hsame | reflexivity].
Defined.

(** ** Each image once *)

Section DiscoveryOnce.

Import glob.

Lemma NoDup_list_filter {A : Type} (f : A -> bool) (l : list A) :
  NoDup l -> NoDup (List.filter f l).
Proof.
  induction 1 as [|x l Hx _ IH]; simpl; [constructor|].
  destruct (f x); [|exact IH].
  constructor; [|exact IH].
  intros Hin. apply Hx. apply list_elem_of_In, filter_In in Hin as [Hin _].
  by apply list_elem_of_In.
Qed.

(** The matches of a pattern without separator that does not start
    with a dot. *)
Lemma glob_pattern_run (w : World) (directory pat : str) :
  posixpath.sep ∉ pat ->
  ishidden pat = false ->
  glob w (posixpath.join directory pat)
  = List.map (posixpath.join (glob_dirname directory))
      (List.filter (fnmatch pat)
         (List.filter (fun x => negb (ishidden x))
            (scandir w (listed_directory directory)))).
Proof.
  intros Hsep Hhidden. unfold glob. rewrite split_join by done.
  fold (listed_directory directory). by rewrite Hhidden.
Qed.

(** Names that end with two of the extensions at once do not exist. *)
Ltac two_suffixes Hx Hy :=
  apply list_elem_of_In, filter_In in Hx as [_ Hx];
  apply list_elem_of_In, filter_In in Hy as [_ Hy];
  apply fnmatch_star_plain in Hx as [stem1 Hx]; [|reflexivity];
  apply fnmatch_star_plain in Hy as [stem2 Hy]; [|reflexivity];
  rewrite Hx in Hy; apply (f_equal (@rev N)) in Hy;
  rewrite !rev_app_distr in Hy; vm_compute in Hy; discriminate Hy.

Lemma matches_NoDup (names : list str) :
  NoDup names ->
  NoDup (concat
           (List.map (fun pat => List.filter (fnmatch pat) names)
              [42%N :: py ".jpg"; 42%N :: py ".JPG";
               42%N :: py ".jpeg"; 42%N :: py ".JPEG";
               42%N :: py ".png"; 42%N :: py ".PNG";
               42%N :: py ".gif"; 42%N :: py ".GIF";
               42%N :: py ".bmp"; 42%N :: py ".BMP"])).
Proof.
  intros Hnames. cbn [List.map concat]. rewrite app_nil_r.
  repeat (apply NoDup_app; split; [by apply NoDup_list_filter|];
          split;
          [intros x Hx Hy; rewrite ?elem_of_app in Hy;
           repeat (destruct Hy as [Hy | Hy]; [two_suffixes Hx Hy|]);
           two_suffixes Hx Hy|]).
  by apply NoDup_list_filter.
Qed.

Lemma discovered_matches (w : World) (directory : str) :
  discovered w directory
  = List.map (posixpath.join (glob_dirname directory))
      (concat
         (List.map
            (fun pat =>
               List.filter (fnmatch pat)
                 (List.filter (fun x => negb (ishidden x))
                    (scandir w (listed_directory directory))))
            [42%N :: py ".jpg"; 42%N :: py ".JPG";
             42%N :: py ".jpeg"; 42%N :: py ".JPEG";
             42%N :: py ".png"; 42%N :: py ".PNG";
             42%N :: py ".gif"; 42%N :: py ".GIF";
             42%N :: py ".bmp"; 42%N :: py ".BMP"])).
Proof.
  unfold discovered, image_extensions. cbn [List.map concat].
  rewrite !glob_pattern_run
    by first [reflexivity | by apply not_elem_of_forallb].
  rewrite !app_nil_r, !map_app, <- !app_assoc. reflexivity.
Qed.

Lemma join_injective (d a b : str) :
  posixpath.sep ∉ a -> posixpath.sep ∉ b ->
  posixpath.join d a = posixpath.join d b -> a = b.
Proof.
  intros Ha Hb. destruct (join_prefixed d a Ha) as (x & _ & _ & Hall).
  rewrite (Hall a Ha), (Hall b Hb). apply app_inv_head.
Qed.

Lemma discovered_once (w : World) (directory : str) :
  NoDup (scandir w (listed_directory directory)) ->
  (forall name, name ∈ scandir w (listed_directory directory) ->
                posixpath.sep ∉ name) ->
  NoDup (discovered w directory).
Proof.
  intros Hnames Hsep. rewrite discovered_matches.
  set (visible := List.filter (fun x => negb (ishidden x))
                    (scandir w (listed_directory directory))).
  assert (Hvisible : forall x, In x visible ->
                               x ∈ scandir w (listed_directory directory)).
  { intros x Hx. apply filter_In in Hx as [Hx _]. by apply list_elem_of_In. }
  match goal with
  | |- NoDup (List.map ?f ?l) => change (NoDup (f <$> l))
  end.
  apply NoDup_fmap_2_strong.
  - assert (Hin : forall x,
              x ∈ concat
                    (List.map (fun pat => List.filter (fnmatch pat) visible)
                       [42%N :: py ".jpg"; 42%N :: py ".JPG";
                        42%N :: py ".jpeg"; 42%N :: py ".JPEG";
                        42%N :: py ".png"; 42%N :: py ".PNG";
                        42%N :: py ".gif"; 42%N :: py ".GIF";
                        42%N :: py ".bmp"; 42%N :: py ".BMP"]) ->
              posixpath.sep ∉ x).
    { intros x Hx. apply list_elem_of_In, in_concat in Hx as (l & Hl & Hx).
      apply in_map_iff in Hl as (pat & <- & _).
      apply filter_In in Hx as [Hx _]. by apply Hsep, Hvisible. }
    intros x y Hx Hy. apply join_injective; by apply Hin.
  - apply matches_NoDup. by apply NoDup_list_filter.
Qed.

End DiscoveryOnce.

(** No image is taken twice: when the names of the directory are
    distinct and have no slash, as the entries of a directory are,
    the images found are distinct, so the number the batch announces
    and divides by is the number of image files. *)
Theorem discovered_images_are_distinct `{JsonCodec} (w : World)
  (directory : str) :
  glob.has_magic directory = false ->
  NoDup (scandir w (listed_directory directory)) ->
  (forall name, name ∈ scandir w (listed_directory directory) ->
                posixpath.sep ∉ name) ->
  find_image_files directory image_extensions w
  = (Val (discovered w directory), w)
  /\ NoDup (discovered w directory).
Proof.
  intros _ Hnames Hsep.
  split; [apply find_image_files_run | by apply discovered_once].
Qed.

Lemma discovered_images_are_distinct_witness :
  let w := sample_world [py "receipt_extractor.py"] None ∅
             [py "a.jpg"; py "a.JPG"; py "b.jpeg"; py "notes.txt"] [] [] [] in
  NoDup (discovered w (py "scans"))
  /\ discovered w (py "scans")
     = [py "scans/a.jpg"; py "scans/a.JPG"; py "scans/b.jpeg"].
Proof.
  intros w.
  destruct (@discovered_images_are_distinct reference_codec w (py "scans"))
    as [_ Hdistinct].
  - reflexivity.
  - vm_compute.
    repeat (apply NoDup_cons; split;
            [rewrite ?not_elem_of_cons; repeat split;
             first [discriminate | apply not_elem_of_nil]|]).
    apply NoDup_nil_2.
  - intros name Hname. vm_compute in Hname.
    repeat (apply elem_of_cons in Hname as [-> | Hname];
            [by apply not_elem_of_forallb|]).
    by apply elem_of_nil in Hname.
  - split; [exact Hdistinct | vm_compute; reflexivity].
Defined.

(** ** A tidy key file *)

Section TidyFile.

Import manage_api_key_script.

Implicit Types (k v : str) (vars : list str) (s : State).

(** A text that ends with a character that is no white space is not
    blank. *)
Lemma rstrip_fixed_not_blank v :
  rstrip v = v -> v <> [] -> negb (len (strip v) =? 0) = true.
Proof.
  destruct v as [|c a _] using rev_ind; [done|]. intros Hfixed _.
  destruct (isspace c) eqn:Hc.
  - rewrite rstrip_snoc_space in Hfixed by done.
    destruct (rstrip_prefix a) as [t Ht]. rewrite Hfixed in Ht.
    apply (f_equal (@length N)) in Ht. rewrite !length_app in Ht.
    simpl in Ht. lia.
  - unfold strip. rewrite lstrip_app_nonspace by done.
    rewrite <- (app_nil_r (lstrip a ++ [c])).
    rewrite rstrip_app_nonspace by done.
    unfold len. rewrite !length_app. simpl.
    apply negb_true_iff, Z.eqb_neq. lia.
Qed.

Lemma other_vars_tidy vars :
  Forall (fun v => (10%N ∉ v) /\ (13%N ∉ v) /\ rstrip v = v /\ v <> []) vars ->
  other_vars (List.map (fun v => v ++ [10%N]) vars)
  = List.filter (fun v => negb (startswith v key_prefix)) vars.
Proof.
  unfold other_vars.
  induction 1 as [|v vars (_ & _ & Hfixed & _) _ IH]; simpl; [done|].
  rewrite startswith_snoc by (by apply not_elem_of_forallb).
  destruct (startswith v key_prefix); simpl; [exact IH|].
  by rewrite rstrip_line, Hfixed, IH.
Qed.

Lemma kept_lines_tidy vars :
  Forall (fun v => (10%N ∉ v) /\ (13%N ∉ v) /\ rstrip v = v /\ v <> []) vars ->
  kept_lines (List.filter (fun v => negb (startswith v key_prefix)) vars)
  = List.filter (fun line => negb (startswith line key_prefix))
      (List.map (fun v => v ++ [10%N]) vars).
Proof.
  unfold kept_lines.
  induction 1 as [|v vars (_ & _ & Hfixed & Hv) _ IH]; simpl; [done|].
  rewrite startswith_snoc by (by apply not_elem_of_forallb).
  destruct (startswith v key_prefix); simpl; [exact IH|].
  rewrite rstrip_fixed_not_blank by done. simpl. by rewrite IH.
Qed.

Lemma read_lines_tidy vars :
  Forall (fun v => (10%N ∉ v) /\ (13%N ∉ v) /\ rstrip v = v /\ v <> []) vars ->
  read_lines (concat (List.map (fun v => v ++ [10%N]) vars))
  = List.map (fun v => v ++ [10%N]) vars.
Proof.
  intros Htidy. unfold read_lines. rewrite translate_newlines_plain.
  - apply lines_of_written. eapply Forall_impl; [exact Htidy|].
    by intros v (? & _).
  - apply no_cr_concat. apply Forall_forall. intros l Hl.
    apply list_elem_of_In, in_map_iff in Hl as (v & <- & Hv).
    apply list_elem_of_In in Hv. rewrite Forall_forall in Htidy.
    destruct (Htidy v Hv) as (_ & H13 & _).
    apply not_elem_of_app. split; [done|].
    apply not_elem_of_cons. split; [done | apply not_elem_of_nil].
Qed.

Lemma other_vars_of_tidy s vars :
  Forall (fun v => (10%N ∉ v) /\ (13%N ∉ v) /\ rstrip v = v /\ v <> []) vars ->
  dot_env s = Some (concat (List.map (fun v => v ++ [10%N]) vars)) ->
  file_lines s = List.map (fun v => v ++ [10%N]) vars
  /\ kept_lines (other_vars_of s)
     = List.filter (fun line => negb (startswith line key_prefix))
         (file_lines s).
Proof.
  intros Htidy Hfile. unfold file_lines, other_vars_of. rewrite Hfile.
  rewrite read_lines_tidy by done. split; [done|].
  rewrite other_vars_tidy by done. by apply kept_lines_tidy.
Qed.

End TidyFile.

(** On a tidy file (every line ends with a line feed, is not blank
    and has no white space at its end) the two rewrites touch the
    entries of the key only: [set_api_key], with a key of one line
    that can be encoded, puts the new entry first and keeps every
    other line as it is and in order, and [remove_api_key] deletes
    the entries of the key and nothing else. *)
Theorem tidy_file_keeps_other_lines (s : manage_api_key_script.State)
  (vars : list str) (k : str) :
  Forall (fun v => (10%N ∉ v) /\ (13%N ∉ v) /\ rstrip v = v /\ v <> []) vars ->
  manage_api_key_script.dot_env s
  = Some (concat (List.map (fun v => v ++ [10%N]) vars)) ->
  10%N ∉ k -> 13%N ∉ k -> encodable k = true ->
  file_lines (snd (manage_api_key_script.set_api_key k s))
  = (manage_api_key_script.key_prefix ++ k ++ [10%N])
    :: List.filter
         (fun line =>
            negb (startswith line manage_api_key_script.key_prefix))
         (file_lines s)
  /\ (manage_api_key_script.found (file_lines s) = true ->
      file_lines (manage_api_key_script.remove_api_key s)
      = List.filter
          (fun line =>
             negb (startswith line manage_api_key_script.key_prefix))
          (file_lines s)).
Proof.
  intros Htidy Hfile H10 H13 Hk.
  destruct (other_vars_of_tidy s vars Htidy Hfile) as [_ Hkept].
  split.
  - rewrite file_lines_after_set by done. by rewrite Hkept.
  - intros Hfound. rewrite file_lines_after_remove by done. exact Hkept.
Qed.

Lemma tidy_file_keeps_other_lines_witness :
  let s := sample_state
             (Some (py "# keys" ++ [10%N] ++ py "GROQ_API_KEY=old" ++ [10%N]
                    ++ py "  MODE=batch" ++ [10%N]))
             [] in
  file_lines (snd (manage_api_key_script.set_api_key (py "gsk_new") s))
  = [py "GROQ_API_KEY=gsk_new" ++ [10%N]; py "# keys" ++ [10%N];
     py "  MODE=batch" ++ [10%N]]
  /\ file_lines (manage_api_key_script.remove_api_key s)
     = [py "# keys" ++ [10%N]; py "  MODE=batch" ++ [10%N]].
Proof.
  intros s.
  destruct (tidy_file_keeps_other_lines s
              [py "# keys"; py "GROQ_API_KEY=old"; py "  MODE=batch"]
              (py "gsk_new"))
    as [Hset Hremove].
  - repeat (constructor;
            [split; [by apply not_elem_of_forallb|];
             split; [by apply not_elem_of_forallb|];
             split; [reflexivity | discriminate]|]).
    constructor.
  - reflexivity.
  - by apply not_elem_of_forallb.
  - by apply not_elem_of_forallb.
  - reflexivity.
  - split; [rewrite Hset; reflexivity|].
    rewrite Hremove; reflexivity.
Defined.
